(** * AlphaBot chat backend: the reply pipeline and the room lifecycle

    A shallow embedding of [app/services/chat_service.py] and of the chat
    router [app/routers/chat.py], followed by the properties of the
    response-generation pipeline and of the room operations.

    Conventions of the embedding.
    - Python values are atoms or references into a heap of containers and
      objects, so that shared and self-referential payloads exist.
    - A Python call either returns or raises: [result].
    - Text is a [string] of UTF-8 bytes.  [strip] knows every whitespace
      character of Python, in its UTF-8 form.  The case mappings, the
      whitespace class of the regular expressions, [len] and the slices are
      those of ASCII text, on which they agree with Python; a property that
      rests on one of them is stated for ASCII text ([is_ascii]).
    - The interpreter's recursion limit is the [depth] argument of the
      recursive functions: the number of nested activations still allowed. *)

From Stdlib Require Import String Ascii List ZArith Bool Arith Lia DecimalString
  Sorted.
From Stdlib Require QArith Qminmax.
Import ListNotations.
Local Open Scope string_scope.


(** ** Exceptions and results *)

Inductive exn : Type :=
| HTTPException (status_code : Z) (detail : string)
| ValueError (msg : string)
| TypeError (msg : string)
| AttributeError (msg : string)
| KeyError (msg : string)
| IndexError (msg : string)
| RecursionError
| IntegrityError
| OtherError (msg : string).

Inductive result (A : Type) : Type :=
| Ok (a : A)
| Raise (e : exn).

Arguments Ok {A} a.
Arguments Raise {A} e.

Definition bind {A B : Type} (m : result A) (k : A -> result B) : result B :=
  match m with
  | Ok a => k a
  | Raise e => Raise e
  end.

(** [str(exc)] *)
Definition exn_str (e : exn) : string :=
  match e with
  | HTTPException _ detail => detail
  | ValueError msg | TypeError msg | AttributeError msg | KeyError msg
  | IndexError msg | OtherError msg => msg
  | RecursionError => "maximum recursion depth exceeded"
  | IntegrityError => "IntegrityError"
  end.

Notation "x <- m ;; k" := (bind m (fun x => k))
  (at level 61, m at next level, right associativity).

Fixpoint map_result {A B : Type} (f : A -> result B) (l : list A)
  : result (list B) :=
  match l with
  | [] => Ok []
  | x :: rest =>
      y <- f x ;;
      ys <- map_result f rest ;;
      Ok (y :: ys)
  end.

(** ** Text *)

Definition nl : string := String "010"%char EmptyString.

Definition code (c : ascii) : nat := nat_of_ascii c.

Definition between (lo hi n : nat) : bool := (lo <=? n)%nat && (n <=? hi)%nat.

(** [str.isspace] and the regular expression class [\s] on an ASCII
    character: tab to carriage return, the four separators 28..31 and the
    space. *)
Definition py_isspace (c : ascii) : bool :=
  between 9 13 (code c) || between 28 32 (code c).

Definition py_upper_char (c : ascii) : ascii :=
  if between 97 122 (code c) then ascii_of_nat (code c - 32) else c.

Definition py_lower_char (c : ascii) : ascii :=
  if between 65 90 (code c) then ascii_of_nat (code c + 32) else c.

Fixpoint map_string (f : ascii -> ascii) (s : string) : string :=
  match s with
  | EmptyString => EmptyString
  | String c s' => String (f c) (map_string f s')
  end.

(** [s.upper()] and [s.lower()] on ASCII text *)
Definition upper : string -> string := map_string py_upper_char.
Definition lower : string -> string := map_string py_lower_char.

(** The whitespace characters outside ASCII, in UTF-8: the two bytes of
    U+0085 and U+00A0, and the three bytes of U+1680, U+2000 to U+200A,
    U+2028, U+2029, U+202F, U+205F and U+3000.  With the ASCII ones they are
    the characters [str.isspace] holds of, the ones [str.strip] removes. *)
Definition space2 (c1 c2 : ascii) : bool :=
  (code c1 =? 194)%nat && ((code c2 =? 133)%nat || (code c2 =? 160)%nat).

Definition space3 (c1 c2 c3 : ascii) : bool :=
  ((code c1 =? 225)%nat && (code c2 =? 154)%nat && (code c3 =? 128)%nat)
  || ((code c1 =? 226)%nat && (code c2 =? 128)%nat
      && (between 128 138 (code c3) || (code c3 =? 168)%nat
          || (code c3 =? 169)%nat || (code c3 =? 175)%nat))
  || ((code c1 =? 226)%nat && (code c2 =? 129)%nat && (code c3 =? 159)%nat)
  || ((code c1 =? 227)%nat && (code c2 =? 128)%nat && (code c3 =? 128)%nat).

(** [s.lstrip()]: the text after its leading whitespace characters *)
Fixpoint lstrip (s : string) : string :=
  match s with
  | EmptyString => EmptyString
  | String c1 s1 =>
      if py_isspace c1 then lstrip s1
      else
        match s1 with
        | EmptyString => s
        | String c2 s2 =>
            if space2 c1 c2 then lstrip s2
            else
              match s2 with
              | EmptyString => s
              | String c3 s3 => if space3 c1 c2 c3 then lstrip s3 else s
              end
        end
  end.

(** [s.rstrip()]: the text is cut where nothing but whitespace follows. *)
Fixpoint rstrip (s : string) : string :=
  match s with
  | EmptyString => EmptyString
  | String c s' =>
      match lstrip s with
      | EmptyString => EmptyString
      | String _ _ => String c (rstrip s')
      end
  end.

(** [s.strip()] *)
Definition strip (s : string) : string := rstrip (lstrip s).

(** [re.sub] of every whitespace run by the empty string, on ASCII text *)
Fixpoint remove_whitespace (s : string) : string :=
  match s with
  | EmptyString => EmptyString
  | String c s' =>
      if py_isspace c then remove_whitespace s'
      else String c (remove_whitespace s')
  end.

(** [re.sub] of every whitespace run by one space, on ASCII text: every
    maximal run of whitespace becomes one space.  [in_run] tells that the
    previous character was whitespace. *)
Fixpoint collapse_from (in_run : bool) (s : string) : string :=
  match s with
  | EmptyString => EmptyString
  | String c s' =>
      if py_isspace c
      then (if in_run then collapse_from true s'
            else String " "%char (collapse_from true s'))
      else String c (collapse_from false s')
  end.

Definition collapse_whitespace (s : string) : string := collapse_from false s.

(** [s[:n]] on ASCII text, where a character is a byte *)
Fixpoint take_string (n : nat) (s : string) : string :=
  match n, s with
  | S n', String c s' => String c (take_string n' s')
  | _, _ => EmptyString
  end.

(** [needle in s] *)
Fixpoint contains (needle s : string) : bool :=
  prefix needle s ||
  match s with
  | EmptyString => false
  | String _ s' => contains needle s'
  end.

(** [s.startswith(prefixes)] for a tuple of prefixes *)
Definition startswith_any (s : string) (prefixes : list string) : bool :=
  existsb (fun p => prefix p s) prefixes.

Definition is_empty (s : string) : bool :=
  match s with
  | EmptyString => true
  | String _ _ => false
  end.

(** [str(n)] for an integer *)
Definition str_int (n : Z) : string := NilZero.string_of_int (Z.to_int n).

Definition str_nat (n : nat) : string := str_int (Z.of_nat n).

Definition hex_digit (n : nat) : ascii :=
  if (n <? 10)%nat then ascii_of_nat (48 + n) else ascii_of_nat (87 + n).

Fixpoint has_char (c : ascii) (s : string) : bool :=
  match s with
  | EmptyString => false
  | String d s' => Ascii.eqb c d || has_char c s'
  end.

Definition backslash : ascii := "092"%char.

Definition repr_char (quote c : ascii) : string :=
  if Ascii.eqb c quote || Ascii.eqb c backslash
  then String backslash (String c EmptyString)
  else if Ascii.eqb c "009"%char then "\t"
  else if Ascii.eqb c "010"%char then "\n"
  else if Ascii.eqb c "013"%char then "\r"
  else if (code c <? 32)%nat || (code c =? 127)%nat
  then String backslash (String "x"%char
         (String (hex_digit (code c / 16)) (String (hex_digit (code c mod 16)) EmptyString)))
  else String c EmptyString.

Fixpoint repr_chars (quote : ascii) (s : string) : string :=
  match s with
  | EmptyString => EmptyString
  | String c s' => repr_char quote c ++ repr_chars quote s'
  end.

(** [repr(s)] for a string: single quotes, unless the text has a single
    quote and no double quote. *)
Definition repr_str (s : string) : string :=
  let quote :=
    if has_char "'"%char s && negb (has_char "034"%char s)
    then "034"%char else "'"%char in
  String quote (repr_chars quote s ++ String quote EmptyString).

(** ** Python values

    A value is an atom or a reference to a heap cell.  A float is carried by
    its [str] rendering, the only thing the code asks of it.  An object is a
    bag of attributes with the text [str] and [repr] show for it;
    [model_dump] is [None] when the object has no such method, [Some None]
    when the method raises and [Some (Some d)] when it returns [d]. *)

Definition loc := nat.

Inductive pyval : Type :=
| PyNone
| PyBool (b : bool)
| PyInt (n : Z)
| PyFloat (shown : string)
| PyStr (s : string)
| PyRef (l : loc).

Inductive pyobj : Type :=
| PyList (items : list pyval)
| PyTuple (items : list pyval)
| PyDict (entries : list (string * pyval))
| PyObject (attrs : list (string * pyval)) (shown : string)
           (model_dump : option (option pyval)).

Definition heap := loc -> pyobj.

Fixpoint lookup (key : string) (entries : list (string * pyval)) : option pyval :=
  match entries with
  | [] => None
  | (k, v) :: rest => if String.eqb k key then Some v else lookup key rest
  end.

Fixpoint mem_loc (l : loc) (ls : list loc) : bool :=
  match ls with
  | [] => false
  | l' :: rest => Nat.eqb l l' || mem_loc l rest
  end.

(** Truth value of [if v:] *)
Definition truthy (h : heap) (v : pyval) : bool :=
  match v with
  | PyNone => false
  | PyBool b => b
  | PyInt n => negb (Z.eqb n 0)
  | PyFloat shown => negb (String.eqb shown "0.0" || String.eqb shown "-0.0")
  | PyStr s => negb (is_empty s)
  | PyRef l =>
      match h l with
      | PyList items | PyTuple items => negb (Nat.eqb (List.length items) 0)
      | PyDict entries => negb (Nat.eqb (List.length entries) 0)
      | PyObject _ _ _ => true
      end
  end.

(** [a or b] *)
Definition py_or (h : heap) (a b : pyval) : pyval :=
  if truthy h a then a else b.

(** Truth value of an optional text: [if text:] *)
Definition nonempty (t : option string) : bool :=
  match t with
  | Some s => negb (is_empty s)
  | None => false
  end.

(** The [TypeError] of [len] on a value of the type named *)
Definition no_len (type_name : string) : exn :=
  TypeError ("object of type '" ++ type_name ++ "' has no len()").

(** [len(v)].  The class of an object is not part of the model: the error
    names it [object]. *)
Definition py_len (h : heap) (v : pyval) : result nat :=
  match v with
  | PyStr s => Ok (String.length s)
  | PyRef l =>
      match h l with
      | PyList items | PyTuple items => Ok (List.length items)
      | PyDict entries => Ok (List.length entries)
      | PyObject _ _ _ => Raise (no_len "object")
      end
  | PyNone => Raise (no_len "NoneType")
  | PyBool _ => Raise (no_len "bool")
  | PyInt _ => Raise (no_len "int")
  | PyFloat _ => Raise (no_len "float")
  end.

(** [repr(v)].  [active] holds the containers being rendered, which the
    interpreter shows as an ellipsis when met again. *)
Fixpoint py_repr (depth : nat) (h : heap) (active : list loc) (v : pyval)
  : result string :=
  match depth with
  | O => Raise RecursionError
  | S depth' =>
      match v with
      | PyNone => Ok "None"
      | PyBool b => Ok (if b then "True" else "False")
      | PyInt n => Ok (str_int n)
      | PyFloat shown => Ok shown
      | PyStr s => Ok (repr_str s)
      | PyRef l =>
          match h l with
          | PyObject _ shown _ => Ok shown
          | PyList items =>
              if mem_loc l active then Ok "[...]"
              else
                parts <- map_result (py_repr depth' h (l :: active)) items ;;
                Ok ("[" ++ String.concat ", " parts ++ "]")
          | PyTuple items =>
              if mem_loc l active then Ok "(...)"
              else
                parts <- map_result (py_repr depth' h (l :: active)) items ;;
                Ok (match parts with
                    | [p] => "(" ++ p ++ ",)"
                    | _ => "(" ++ String.concat ", " parts ++ ")"
                    end)
          | PyDict entries =>
              if mem_loc l active then Ok "{...}"
              else
                parts <- map_result
                           (fun kv =>
                              r <- py_repr depth' h (l :: active) (snd kv) ;;
                              Ok (repr_str (fst kv) ++ ": " ++ r))
                           entries ;;
                Ok ("{" ++ String.concat ", " parts ++ "}")
          end
      end
  end.

(** [str(v)] *)
Definition py_str (depth : nat) (h : heap) (v : pyval) : result string :=
  match v with
  | PyStr s => Ok s
  | _ => py_repr depth h [] v
  end.

(** ** Text Normalizer *)

(** [_get_from_obj(obj, key, default)]: [dict.get] on a mapping, [getattr]
    with a default on anything else.  Strings, numbers, lists and tuples have
    none of the attributes the service asks for. *)
Definition _get_from_obj (h : heap) (obj : pyval) (key : string)
    (default : pyval) : pyval :=
  match obj with
  | PyRef l =>
      match h l with
      | PyDict entries =>
          match lookup key entries with
          | Some v => v
          | None => default
          end
      | PyObject attrs _ _ =>
          match lookup key attrs with
          | Some v => v
          | None => default
          end
      | PyList _ | PyTuple _ => default
      end
  | _ => default
  end.

(** The list comprehension of [_coerce_text_value]: coerce each item in
    turn and keep the non-empty texts. *)
Fixpoint coerce_items (coerce : pyval -> result (option string))
    (items : list pyval) : result (list string) :=
  match items with
  | [] => Ok []
  | item :: rest =>
      part <- coerce item ;;
      parts <- coerce_items coerce rest ;;
      Ok (match part with
          | Some s => if is_empty s then parts else s :: parts
          | None => parts
          end)
  end.

(** The loop over [nested_keys] of [_coerce_text_value] *)
Fixpoint coerce_nested (coerce : pyval -> result (option string))
    (h : heap) (value : pyval) (keys : list string)
  : result (option string) :=
  match keys with
  | [] => Ok None
  | key :: rest =>
      match _get_from_obj h value key PyNone with
      | PyNone => coerce_nested coerce h value rest
      | nested =>
          resolved <- coerce nested ;;
          if nonempty resolved then Ok resolved
          else coerce_nested coerce h value rest
      end
  end.

Definition nested_keys : list string := ["value"; "text"; "content"].

Definition or_none (s : string) : option string :=
  if is_empty s then None else Some s.

Fixpoint _coerce_text_value (depth : nat) (h : heap) (value : pyval)
  : result (option string) :=
  match depth with
  | O => Raise RecursionError
  | S depth' =>
      match value with
      | PyNone => Ok None
      | PyStr s => Ok (Some s)
      | PyBool b => Ok (Some (if b then "True" else "False"))
      | PyInt n => Ok (Some (str_int n))
      | PyFloat shown => Ok (Some shown)
      | PyRef l =>
          match h l with
          | PyList items | PyTuple items =>
              parts <- coerce_items (_coerce_text_value depth' h) items ;;
              Ok (match parts with
                  | [] => None
                  | _ => Some (String.concat nl parts)
                  end)
          | PyDict _ | PyObject _ _ _ =>
              found <- coerce_nested (_coerce_text_value depth' h) h value
                         nested_keys ;;
              match found with
              | Some resolved => Ok (Some resolved)
              | None =>
                  text_repr <- py_str depth' h value ;;
                  Ok (or_none (strip text_repr))
              end
          end
      end
  end.

(** ** Configuration

    The module-level constants read from the environment at import time. *)

Record Settings : Type := {
  _OPENAI_MODEL_DEFAULT : string;
  _OPENAI_TEMPERATURE_DEFAULT : QArith_base.Q;
  _OPENAI_MAX_TOKENS_DEFAULT : Z;
  _OPENAI_RESPONSES_MIN_OUTPUT_TOKENS : Z;
  _OPENAI_RESPONSES_MAX_OUTPUT_TOKENS : Z;
  _ENABLE_RAG_NEWS : bool;
  _RAG_NEWS_TOP_K : Z;
  _RAG_NEWS_SUMMARY_LIMIT : nat;
  _RAG_NEWS_SIMILARITY_THRESHOLD : QArith_base.Q
}.

(** The values the constants take when the environment sets none of them
    and the news database is configured. *)
Definition default_settings : Settings := {|
  _OPENAI_MODEL_DEFAULT := "gpt-5-mini";
  _OPENAI_TEMPERATURE_DEFAULT := QArith_base.Qmake 1 5;
  _OPENAI_MAX_TOKENS_DEFAULT := 512;
  _OPENAI_RESPONSES_MIN_OUTPUT_TOKENS := 1024;
  _OPENAI_RESPONSES_MAX_OUTPUT_TOKENS := 4096;
  _ENABLE_RAG_NEWS := true;
  _RAG_NEWS_TOP_K := 12;
  _RAG_NEWS_SUMMARY_LIMIT := 4;
  _RAG_NEWS_SIMILARITY_THRESHOLD := QArith_base.Qmake 7 20
|}.

Definition _RESPONSES_ONLY_PREFIXES : list string :=
  ["gpt-4.1"; "gpt-5-mini"; "o4"; "o5"; "o1"].

Definition _ASSISTANT_FALLBACK_MESSAGE : string :=
  "죄송합니다. 지금은 답변을 생성할 수 없어요. 잠시 후 다시 시도해주세요.".

Definition HTTP_404_NOT_FOUND : Z := 404.
Definition HTTP_500_INTERNAL_SERVER_ERROR : Z := 500.
Definition HTTP_502_BAD_GATEWAY : Z := 502.

(** ** Provider Dispatcher: the two wire protocols *)

Record oai_message : Type := { role : string; content : string }.

Record content_block : Type := { block_type : string; block_text : string }.

Record responses_message : Type := {
  r_role : string;
  r_content : list content_block
}.

Record responses_request : Type := {
  rq_model : string;
  rq_input : list responses_message;
  rq_max_output_tokens : Z
}.

Record chat_request : Type := {
  cq_model : string;
  cq_messages : list oai_message;
  cq_temperature : QArith_base.Q;
  cq_max_tokens : Z
}.

Inductive request : Type :=
| ResponsesCreate (r : responses_request)
| ChatCompletionsCreate (r : chat_request).

(** The provider client.  A call returns a response, a value of the ambient
    heap, or raises.  [responses_create n] is the answer to a call issued
    after [n] earlier calls of the same invocation, so that a retry may be
    answered differently from the first attempt. *)
Record OpenAI : Type := {
  responses_create : nat -> responses_request -> result pyval;
  chat_completions_create : chat_request -> result pyval
}.

(** What the server finds when it builds the client: no SDK installed, a
    constructor that raises, or a client. *)
Inductive sdk_state : Type :=
| NotInstalled
| InitFails (e : exn)
| Ready (client : OpenAI).

Definition _get_openai_client (sdk : sdk_state) : result OpenAI :=
  match sdk with
  | NotInstalled =>
      Raise (HTTPException HTTP_500_INTERNAL_SERVER_ERROR
               "OpenAI SDK is not installed on the server.")
  | InitFails e =>
      Raise (HTTPException HTTP_500_INTERNAL_SERVER_ERROR
               ("Failed to initialize OpenAI client: " ++ exn_str e))
  | Ready client => Ok client
  end.

Definition _should_use_responses_api (model : string) : bool :=
  let normalized := lower model in
  startswith_any normalized _RESPONSES_ONLY_PREFIXES.

Definition _format_messages_for_responses (messages : list oai_message)
  : list responses_message :=
  map (fun msg =>
         let content_type :=
           if String.eqb (role msg) "assistant" then "output_text"
           else "input_text" in
         {| r_role := role msg;
            r_content := [ {| block_type := content_type;
                              block_text := content msg |} ] |})
      messages.

Definition _is_empty_openai_http_error (status_code : Z) (detail : string)
  : bool :=
  Z.eqb status_code HTTP_502_BAD_GATEWAY
  && contains "OpenAI returned empty response" detail.

Definition _fallback_assistant_response (reason : string) : string :=
  _ASSISTANT_FALLBACK_MESSAGE.

(** The nearest integer with at most 53 significant bits, a tie going to
    the even significand: the rounding of double-precision arithmetic. *)
Definition round53 (n : Z) : Z :=
  let a := Z.abs n in
  let shift := (Z.log2 a + 1 - 53)%Z in
  if (shift <=? 0)%Z then n
  else
    let q := Z.shiftr a shift in
    let r := Z.land a (Z.ones shift) in
    let half := Z.shiftl 1 (shift - 1) in
    let q' := if (half <? r)%Z || ((r =? half)%Z && Z.odd q)
              then (q + 1)%Z else q in
    (Z.sgn n * Z.shiftl q' shift)%Z.

(** [int(n * 1.5)].  The integer becomes a double, which raises an
    [OverflowError] from 2^1024 on; the product is a double again, infinite
    from 2^1024 on, and [int] truncates it toward zero, which raises an
    [OverflowError] on an infinity.  [twice] is the double of the product:
    rounding commutes with halving.  Up to 2^53 / 3 the result is
    [3 * n / 2] truncated; beyond, the two roundings show. *)
Definition int_times_1_5 (n : Z) : result Z :=
  let f := round53 n in
  if (2 ^ 1024 <=? Z.abs f)%Z
  then Raise (OtherError "int too large to convert to float")
  else
    let twice := round53 (3 * f) in
    if (2 ^ 1025 <=? Z.abs twice)%Z
    then Raise (OtherError "cannot convert float infinity to integer")
    else Ok (Z.quot twice 2).

Section Dispatcher.

Variable cfg : Settings.
(** The recursion limit left to the service and the heap the provider's
    responses live in. *)
Variable depth : nat.
Variable h : heap.

Let get (obj : pyval) (key : string) : pyval := _get_from_obj h obj key PyNone.
Let coerce : pyval -> result (option string) := _coerce_text_value depth h.

(** [hash(v)] succeeds: lists and mappings are unhashable, a tuple hashes
    its items. *)
Fixpoint py_hashable (fuel : nat) (v : pyval) : result unit :=
  match fuel with
  | O => Raise RecursionError
  | S fuel' =>
      match v with
      | PyRef l =>
          match h l with
          | PyList _ => Raise (TypeError "unhashable type: 'list'")
          | PyDict _ => Raise (TypeError "unhashable type: 'dict'")
          | PyTuple items =>
              _ <- map_result (py_hashable fuel') items ;; Ok tt
          | PyObject _ _ _ => Ok tt
          end
      | _ => Ok tt
      end
  end.

(** [v in {s1, s2, ...}] for a set of strings *)
Definition in_str_set (v : pyval) (set : list string) : result bool :=
  match v with
  | PyStr s => Ok (existsb (String.eqb s) set)
  | _ => _ <- py_hashable depth v ;; Ok false
  end.

(** [v or []], then [[v]] when [v] is not a list: the items iterated *)
Definition as_item_list (v : pyval) : list pyval :=
  if truthy h v then
    match v with
    | PyRef l =>
        match h l with
        | PyList items => items
        | _ => [v]
        end
    | _ => [v]
    end
  else [].

(** [resp.model_dump()] when [resp] has the method and it returns *)
Definition model_dump_of (resp : pyval) : pyval :=
  match resp with
  | PyRef l =>
      match h l with
      | PyObject _ _ (Some (Some dumped)) => dumped
      | _ => resp
      end
  | _ => resp
  end.

(** The inner loop of [_extract_text_from_responses] *)
Fixpoint scan_contents (contents : list pyval) : result (option string) :=
  match contents with
  | [] => Ok None
  | content :: rest =>
      let content_type := get content "type" in
      is_text <- in_str_set content_type ["text"; "output_text"] ;;
      if is_text : bool then
        text_value <- coerce (get content "text") ;;
        if nonempty text_value then Ok text_value
        else
          text_value <- coerce (get content "content") ;;
          if nonempty text_value then Ok text_value
          else scan_contents rest
      else scan_contents rest
  end.

(** The outer loop of [_extract_text_from_responses] *)
Fixpoint scan_outputs (outputs : list pyval) : result (option string) :=
  match outputs with
  | [] => Ok None
  | output :: rest =>
      is_message <- in_str_set (get output "type") ["message"; "output_text"] ;;
      if is_message : bool then
        found <- scan_contents (as_item_list (get output "content")) ;;
        match found with
        | Some text_value => Ok (Some text_value)
        | None => scan_outputs rest
        end
      else scan_outputs rest
  end.

Definition _extract_text_from_responses (resp : pyval) : result string :=
  let resp_data := model_dump_of resp in
  let outputs :=
    as_item_list (py_or h (get resp_data "output") (get resp_data "outputs")) in
  found <- scan_outputs outputs ;;
  match found with
  | Some text_value => Ok text_value
  | None =>
      fallback <- coerce (py_or h (get resp_data "output_text")
                                  (get resp "output_text")) ;;
      match fallback with
      | Some text_value =>
          if is_empty text_value
          then Raise (HTTPException HTTP_502_BAD_GATEWAY
                        "OpenAI returned empty response")
          else Ok text_value
      | None => Raise (HTTPException HTTP_502_BAD_GATEWAY
                         "OpenAI returned empty response")
      end
  end.

Definition _extract_text_from_chat_choice (choice : pyval)
  : result (option string) :=
  match choice with
  | PyNone => Ok None
  | _ =>
      let message := py_or h (get choice "message") choice in
      let content := get message "content" in
      text_value <- coerce content ;;
      if nonempty text_value then Ok text_value
      else
        let delta := py_or h (get message "delta") (get choice "delta") in
        text_value <- coerce delta ;;
        if nonempty text_value then Ok text_value
        else Ok None
  end.

Definition _get_incomplete_reason (resp : pyval) : result (option string) :=
  let incomplete := get resp "incomplete_details" in
  if negb (truthy h incomplete) then Ok None
  else
    let reason := get incomplete "reason" in
    if truthy h reason then
      shown <- py_str depth h reason ;; Ok (Some shown)
    else Ok None.

(** [obj.name], an attribute access without default *)
Definition py_getattr (obj : pyval) (name : string) : result pyval :=
  match obj with
  | PyRef l =>
      match h l with
      | PyObject attrs _ _ =>
          match lookup name attrs with
          | Some v => Ok v
          | None => Raise (AttributeError name)
          end
      | _ => Raise (AttributeError name)
      end
  | _ => Raise (AttributeError name)
  end.

(** [v[0]] *)
Definition py_first (v : pyval) : result pyval :=
  match v with
  | PyStr (String c _) => Ok (PyStr (String c EmptyString))
  | PyStr EmptyString => Raise (IndexError "string index out of range")
  | PyRef l =>
      match h l with
      | PyList (x :: _) | PyTuple (x :: _) => Ok x
      | PyList [] | PyTuple [] => Raise (IndexError "index out of range")
      | PyDict _ => Raise (KeyError "0")
      | PyObject _ _ _ => Raise (TypeError "object is not subscriptable")
      end
  | _ => Raise (TypeError "object is not subscriptable")
  end.

(** The count [len(output or outputs or [])] shown by the debug lines of
    the structured protocol *)
Definition output_count (resp : pyval) : result nat :=
  let outputs := py_or h (get resp "output") (get resp "outputs") in
  if truthy h outputs then py_len h outputs else Ok 0%nat.

(** The debug line after the first structured call.  Printing has no
    effect on the result; building the text evaluates its arguments, which
    may raise. *)
Definition responses_done_line (resp : pyval) (tokens : Z) : result string :=
  count <- output_count resp ;;
  shown_status <- py_str depth h (get resp "status") ;;
  Ok ("responses.create done output_count=" ++ str_nat count
      ++ " status=" ++ shown_status ++ " tokens=" ++ str_int tokens).

(** The debug line after the retry *)
Definition responses_retry_line (resp : pyval) : result string :=
  shown_status <- py_str depth h (get resp "status") ;;
  count <- output_count resp ;;
  Ok ("responses retry done status=" ++ shown_status
      ++ " output_count=" ++ str_nat count).

(** The debug line after a legacy call *)
Definition chat_done_line (resp : pyval) : result string :=
  choices <- py_getattr resp "choices" ;;
  count <- (if truthy h choices then py_len h choices else Ok 0%nat) ;;
  finish_reason <-
    (if truthy h choices then
       first <- py_first choices ;;
       py_str depth h (get first "finish_reason")
     else Ok "none") ;;
  Ok ("chat.completions.create done choices=" ++ str_nat count
      ++ " finish_reason=" ++ finish_reason).

(** What the legacy protocol reads from a response: the first choice, or
    [None] without choices, and the text extracted from it. *)
Definition chat_content (resp : pyval) : result (option string) :=
  choices <- py_getattr resp "choices" ;;
  choice <- (if truthy h choices then py_first choices else Ok PyNone) ;;
  _extract_text_from_chat_choice choice.

(** The handlers that close [_call_openai_chat]: the empty-response
    condition becomes the fallback text, another HTTP error passes, any
    other exception becomes a 502. *)
Definition gateway_handlers (r : result string) : result string :=
  match r with
  | Ok text => Ok text
  | Raise (HTTPException status_code detail) =>
      if _is_empty_openai_http_error status_code detail
      then Ok (_fallback_assistant_response "chat completions HTTPException")
      else Raise (HTTPException status_code detail)
  | Raise e =>
      Raise (HTTPException HTTP_502_BAD_GATEWAY
               ("OpenAI chat completion failed: " ++ exn_str e))
  end.

(** The extraction step of the structured protocol with its own handler *)
Definition responses_text (resp : pyval) : result string :=
  match _extract_text_from_responses resp with
  | Raise (HTTPException status_code detail) =>
      if _is_empty_openai_http_error status_code detail
      then Ok (_fallback_assistant_response "responses API")
      else Raise (HTTPException status_code detail)
  | Raise e => Raise e
  | Ok text =>
      if is_empty text
      then Ok (_fallback_assistant_response "responses API empty string")
      else Ok text
  end.

Definition clamp_output_tokens (max_tokens : Z) : Z :=
  let responses_max_tokens :=
    Z.max max_tokens (_OPENAI_RESPONSES_MIN_OUTPUT_TOKENS cfg) in
  Z.min responses_max_tokens (_OPENAI_RESPONSES_MAX_OUTPUT_TOKENS cfg).

Definition retry_tokens (responses_max_tokens : Z) : result Z :=
  scaled <- int_times_1_5 responses_max_tokens ;;
  Ok (Z.min (_OPENAI_RESPONSES_MAX_OUTPUT_TOKENS cfg)
            (Z.max scaled (responses_max_tokens + 256))).

(** [_call_openai_chat]: the text returned or the exception raised,
    together with the provider calls issued, oldest first. *)
Definition _call_openai_chat (sdk : sdk_state) (messages : list oai_message)
    (model : string) (temperature : QArith_base.Q) (max_tokens : Z)
  : result string * list request :=
  match _get_openai_client sdk with
  | Raise e => (Raise e, [])
  | Ok client =>
      if _should_use_responses_api model then
        let responses_input := _format_messages_for_responses messages in
        let responses_max_tokens := clamp_output_tokens max_tokens in
        let first_call :=
          {| rq_model := model; rq_input := responses_input;
             rq_max_output_tokens := responses_max_tokens |} in
        match responses_create client 0 first_call with
        | Raise e => (gateway_handlers (Raise e), [ResponsesCreate first_call])
        | Ok resp =>
            match (_ <- responses_done_line resp responses_max_tokens ;;
                   _get_incomplete_reason resp) with
            | Raise e =>
                (gateway_handlers (Raise e), [ResponsesCreate first_call])
            | Ok incomplete_reason =>
                if match incomplete_reason with
                   | Some reason => String.eqb reason "max_output_tokens"
                   | None => false
                   end
                   && (responses_max_tokens
                       <? _OPENAI_RESPONSES_MAX_OUTPUT_TOKENS cfg)%Z
                then
                  match retry_tokens responses_max_tokens with
                  | Raise e =>
                      (gateway_handlers (Raise e), [ResponsesCreate first_call])
                  | Ok retry_cap =>
                      let retry_call :=
                        {| rq_model := model; rq_input := responses_input;
                           rq_max_output_tokens := retry_cap |} in
                      let calls := [ResponsesCreate first_call;
                                    ResponsesCreate retry_call] in
                      match responses_create client 1 retry_call with
                      | Raise e => (gateway_handlers (Raise e), calls)
                      | Ok resp' =>
                          (gateway_handlers
                             (_ <- responses_retry_line resp' ;;
                              responses_text resp'),
                           calls)
                      end
                  end
                else
                  (gateway_handlers (responses_text resp),
                   [ResponsesCreate first_call])
            end
        end
      else
        let call :=
          {| cq_model := model; cq_messages := messages;
             cq_temperature := temperature; cq_max_tokens := max_tokens |} in
        match chat_completions_create client call with
        | Raise e => (gateway_handlers (Raise e), [ChatCompletionsCreate call])
        | Ok resp =>
            (gateway_handlers
               (_ <- chat_done_line resp ;;
                content <- chat_content resp ;;
                match content with
                | Some text =>
                    if is_empty text
                    then Ok (_fallback_assistant_response "chat completions")
                    else Ok text
                | None => Ok (_fallback_assistant_response "chat completions")
                end),
             [ChatCompletionsCreate call])
        end
  end.

End Dispatcher.

(** ** Persistence

    The rows of the two tables, in storage order, and the database clock
    read by [func.now()].  A commit stamps the rows it writes with the clock
    and moves the clock on. *)

(** Modelled from the spec: the enumerations and the row types are declared
    in [app/models/models.py], which is not part of the sources at hand.  A
    room has an id, an owner, an optional stock code, a title, a trash state
    ([in] or [out]) and a last-activity time; a message has an id, a room, an
    author, a role ([user] or [assistant]), a content and a creation time. *)
Inductive TrashEnum : Type := in_ | out.

Inductive RoleEnum : Type := role_user | role_assistant.

Definition TrashEnum_value (t : TrashEnum) : string :=
  match t with
  | in_ => "in"
  | out => "out"
  end.

Definition RoleEnum_value (r : RoleEnum) : string :=
  match r with
  | role_user => "user"
  | role_assistant => "assistant"
  end.

Definition TrashEnum_eqb (a b : TrashEnum) : bool :=
  match a, b with
  | in_, in_ | out, out => true
  | _, _ => false
  end.

Record Chat : Type := {
  chat_id : Z;
  user_id : Z;
  title : string;
  stock_code : option string;
  trash_can : TrashEnum;
  lastchat_at : Z
}.

Record Message : Type := {
  messages_id : Z;
  m_chat_id : Z;
  m_user_id : Z;
  m_role : RoleEnum;
  m_content : string;
  created_at : Z
}.

Record DB : Type := {
  chats : list Chat;
  messages : list Message;
  now : Z
}.

(** [ORDER BY key ASC]: a stable insertion sort *)
Fixpoint insert_by {A : Type} (key : A -> Z) (x : A) (l : list A) : list A :=
  match l with
  | [] => [x]
  | y :: rest =>
      if (key x <=? key y)%Z then x :: l else y :: insert_by key x rest
  end.

Definition order_by_asc {A : Type} (key : A -> Z) (l : list A) : list A :=
  fold_right (insert_by key) [] l.

Definition order_by_desc {A : Type} (key : A -> Z) (l : list A) : list A :=
  order_by_asc (fun x => (- key x)%Z) l.

(** [.first()] *)
Definition first {A : Type} (l : list A) : option A := head l.

Definition code_is (code : string) (c : Chat) : bool :=
  match stock_code c with
  | Some s => String.eqb s code
  | None => false
  end.

(** The next value of an auto-incremented key *)
Definition next_id (ids : list Z) : Z := (fold_right Z.max 0 ids + 1)%Z.

(** Modelled from the spec: the uniqueness constraint of the persistence
    layer, declared with the models.  At most one room of a user and a stock
    code is out of the trash; a write that would store a second one is
    refused with an integrity error. *)
Definition conflicts (rows : list Chat) (c : Chat) : bool :=
  match stock_code c, trash_can c with
  | Some code, out =>
      existsb (fun c' => negb (chat_id c' =? chat_id c)%Z
                         && (user_id c' =? user_id c)%Z
                         && code_is code c'
                         && TrashEnum_eqb (trash_can c') out)
              rows
  | _, _ => false
  end.

(** Writing back a changed room: the row of its id is replaced. *)
Definition replace_chat (c : Chat) (rows : list Chat) : list Chat :=
  map (fun c' => if (chat_id c' =? chat_id c)%Z then c else c') rows.

Definition commit_chat_update (db : DB) (c : Chat) : result DB :=
  if conflicts (chats db) c then Raise IntegrityError
  else Ok {| chats := replace_chat c (chats db);
             messages := messages db;
             now := (now db + 1)%Z |}.

Definition commit_chat_insert (db : DB) (c : Chat) : result DB :=
  if conflicts (chats db) c then Raise IntegrityError
  else Ok {| chats := chats db ++ [c];
             messages := messages db;
             now := (now db + 1)%Z |}.

(** A message is stored together with the new last-activity time of its
    room, in one commit. *)
Definition commit_message (db : DB) (chat : Chat) (m : Message) : DB :=
  {| chats := replace_chat chat (chats db);
     messages := messages db ++ [m];
     now := (now db + 1)%Z |}.

Definition touch (db : DB) (chat : Chat) : Chat :=
  {| chat_id := chat_id chat; user_id := user_id chat; title := title chat;
     stock_code := stock_code chat; trash_can := trash_can chat;
     lastchat_at := now db |}.

Definition new_message (db : DB) (room_id user : Z) (r : RoleEnum)
    (text : string) : Message :=
  {| messages_id := next_id (map messages_id (messages db));
     m_chat_id := room_id; m_user_id := user; m_role := r;
     m_content := text; created_at := now db |}.

(** ** Context Assembler *)

Definition _ensure_room_ownership (db : DB) (room_id user : Z) : result Chat :=
  match first (filter (fun c => (chat_id c =? room_id)%Z
                                && (user_id c =? user)%Z) (chats db)) with
  | None => Raise (HTTPException HTTP_404_NOT_FOUND
                     "Chat room not found or permission denied")
  | Some chat => Ok chat
  end.

Definition _load_chat_history (db : DB) (room_id : Z) (limit : nat)
  : list Message :=
  firstn limit
    (order_by_asc created_at
       (filter (fun m => (m_chat_id m =? room_id)%Z) (messages db))).

Definition default_history_limit : nat := 30.

Definition _convert_history_to_openai_messages (history : list Message)
    (system_prompt : option string) : list oai_message :=
  (if nonempty system_prompt
   then match system_prompt with
        | Some p => [ {| role := "system"; content := p |} ]
        | None => []
        end
   else [])
  ++ map (fun m => {| role := RoleEnum_value (m_role m);
                      content := m_content m |}) history.

Definition _extract_latest_user_text (history : list Message)
  : option string :=
  match filter (fun m => String.eqb (RoleEnum_value (m_role m))
                                    (RoleEnum_value role_user))
               (rev history) with
  | m :: _ => Some (m_content m)
  | [] => None
  end.

(** A retrieved document: the three fields the service reads, each absent
    when the mapping has no such key or holds [None]. *)
Record NewsDoc : Type := {
  doc_title : option string;
  doc_published_at : option string;
  doc_content : option string
}.

(** The retrieval collaborator.  [get_news_session] is [None] when the news
    module could not be imported; otherwise opening a session returns or
    raises.  A search returns documents or raises. *)
Record Retrieval : Type := {
  get_news_session : option (result unit);
  similarity_search : string -> Z -> QArith_base.Q -> result (list NewsDoc)
}.

(** [field or placeholder] *)
Definition text_or (field : option string) (placeholder : string) : string :=
  match field with
  | Some s => if is_empty s then placeholder else s
  | None => placeholder
  end.

(** [enumerate(docs, start=idx)] mapped to lines *)
Fixpoint enumerate_lines (line : nat -> NewsDoc -> string) (idx : nat)
    (docs : list NewsDoc) : list string :=
  match docs with
  | [] => []
  | doc :: rest => line idx doc :: enumerate_lines line (S idx) rest
  end.

(** A line of the summary.  The snippet is cleaned, measured and cut as
    ASCII text. *)
Definition summary_line (idx : nat) (doc : NewsDoc) : string :=
  let title := text_or (doc_title doc) "제목 없음" in
  let published_at := text_or (doc_published_at doc) "발행일 미상" in
  let raw_content := text_or (doc_content doc) "" in
  let snippet := strip (collapse_whitespace raw_content) in
  let snippet :=
    if (200 <? String.length snippet)%nat
    then take_string 200 snippet ++ "..." else snippet in
  str_nat idx ++ ". " ++ title ++ " (" ++ published_at ++ "): " ++ snippet.

(** The loop over the queries: the first query with results wins. *)
Fixpoint search_queries (cfg : Settings) (rag : Retrieval)
    (queries : list string) (docs : list NewsDoc) : result (list NewsDoc) :=
  match queries with
  | [] => Ok docs
  | query :: rest =>
      found <- similarity_search rag query (_RAG_NEWS_TOP_K cfg)
                 (_RAG_NEWS_SIMILARITY_THRESHOLD cfg) ;;
      match found with
      | [] => search_queries cfg rag rest found
      | _ => Ok found
      end
  end.

Definition _build_rag_news_summary (cfg : Settings) (rag : Retrieval)
    (stock : option string) (latest_user_text : option string)
    (max_items : nat) : option string * list NewsDoc :=
  match get_news_session rag with
  | None => (None, [])
  | Some session =>
      if negb (_ENABLE_RAG_NEWS cfg) || negb (nonempty stock)
      then (None, [])
      else
        let stock_text := text_or stock "" in
        let queries :=
          ((match latest_user_text with
            | Some t => if is_empty t then [] else [t]
            | None => []
            end) ++ [stock_text])%list in
        match (_ <- session ;; search_queries cfg rag queries []) with
        | Raise _ => (None, [])
        | Ok [] => (None, [])
        | Ok docs =>
            let shown := firstn max_items docs in
            (Some ("[뉴스 요약]" ++ nl ++ stock_text
                   ++ " 관련 최신 기사에서 추출한 핵심 내용입니다. 필요한 경우 아래 정보를 참고해 답변하세요."
                   ++ nl
                   ++ String.concat nl (enumerate_lines summary_line 1 shown)),
             shown)
        end
  end.

(** ** Reply Orchestrator *)

(** The runtime a request runs in: configuration, recursion limit, heap of
    provider payloads, provider SDK and retrieval collaborator. *)
Record Runtime : Type := {
  rt_cfg : Settings;
  rt_depth : nat;
  rt_heap : heap;
  rt_sdk : sdk_state;
  rt_rag : Retrieval
}.

Definition save_user_message (db : DB) (room_id current_user : Z)
    (message : string) : result Message * DB :=
  match _ensure_room_ownership db room_id current_user with
  | Raise e => (Raise e, db)
  | Ok chat =>
      let db_message := new_message db room_id current_user role_user message in
      (Ok db_message, commit_message db (touch db chat) db_message)
  end.

(** [list.insert(idx, x)] *)
Definition list_insert {A : Type} (idx : nat) (x : A) (l : list A) : list A :=
  (firstn idx l ++ x :: skipn idx l)%list.

Definition reference_line (idx : nat) (doc : NewsDoc) : string :=
  let title := text_or (doc_title doc) "제목 없음" in
  let published_at := text_or (doc_published_at doc) "날짜 미상" in
  str_nat idx ++ ". " ++ title ++ " (" ++ published_at ++ ")" ++ nl.

Definition generate_and_save_assistant_reply (rt : Runtime) (db : DB)
    (room_id current_user : Z) (system_prompt : option string)
  : result Message * DB * list request :=
  match _ensure_room_ownership db room_id current_user with
  | Raise e => (Raise e, db, [])
  | Ok chat =>
      let cfg := rt_cfg rt in
      let history := _load_chat_history db room_id default_history_limit in
      let latest_user_text := _extract_latest_user_text history in
      let '(rag_summary, news_docs) :=
        _build_rag_news_summary cfg (rt_rag rt) (stock_code chat)
          latest_user_text (_RAG_NEWS_SUMMARY_LIMIT cfg) in
      let oai_messages :=
        _convert_history_to_openai_messages history system_prompt in
      let oai_messages :=
        if nonempty rag_summary then
          let insert_idx := if nonempty system_prompt then 1%nat else 0%nat in
          list_insert insert_idx
            {| role := "system"; content := text_or rag_summary "" |}
            oai_messages
        else oai_messages in
      match _call_openai_chat cfg (rt_depth rt) (rt_heap rt) (rt_sdk rt)
              oai_messages (_OPENAI_MODEL_DEFAULT cfg)
              (_OPENAI_TEMPERATURE_DEFAULT cfg)
              (_OPENAI_MAX_TOKENS_DEFAULT cfg) with
      | (Raise e, calls) => (Raise e, db, calls)
      | (Ok assistant_text, calls) =>
          let assistant_text :=
            match news_docs with
            | [] => assistant_text
            | _ =>
                assistant_text ++ nl ++ nl ++ "[참고 뉴스]" ++ nl
                ++ String.concat "" (enumerate_lines reference_line 1 news_docs)
            end in
          let assistant_message :=
            new_message db room_id current_user role_assistant assistant_text in
          (Ok assistant_message,
           commit_message db (touch db chat) assistant_message, calls)
      end
  end.

(** A component of a returned tuple *)
Inductive retval : Type :=
| RMessage (m : Message)
| RDocs (docs : list NewsDoc).

(** [create_message_and_reply]: the components of the tuple it returns,
    the database it leaves and the provider calls it issued. *)
Definition create_message_and_reply (rt : Runtime) (db : DB)
    (room_id current_user : Z) (message : string)
    (system_prompt : option string)
  : result (list retval) * DB * list request :=
  match save_user_message db room_id current_user message with
  | (Raise e, db1) => (Raise e, db1, [])
  | (Ok user_msg, db1) =>
      match generate_and_save_assistant_reply rt db1 room_id current_user
              system_prompt with
      | (Raise e, db2, calls) => (Raise e, db2, calls)
      | (Ok assistant_msg, db2, calls) =>
          (Ok [RMessage user_msg; RMessage assistant_msg], db2, calls)
      end
  end.

(** The body of the chat-completions endpoint *)
Record ChatCompletionResponse : Type := {
  resp_user_message : Message;
  resp_assistant_message : Message;
  referenced_news : list NewsDoc
}.

(** [a, b, c = t], the unpacking of the router *)
Definition unpack3 (t : list retval) : result (retval * retval * retval) :=
  match t with
  | [a; b; c] => Ok (a, b, c)
  | _ :: _ :: _ :: _ :: _ =>
      Raise (ValueError "too many values to unpack (expected 3)")
  | _ =>
      Raise (ValueError
               ("not enough values to unpack (expected 3, got "
                ++ str_nat (List.length t) ++ ")"))
  end.

Definition create_message_with_openai (rt : Runtime) (db : DB)
    (room_id current_user : Z) (request_content : string)
    (request_system_prompt : option string)
  : result ChatCompletionResponse * DB * list request :=
  match create_message_and_reply rt db room_id current_user request_content
          request_system_prompt with
  | (Raise e, db', calls) => (Raise e, db', calls)
  | (Ok returned, db', calls) =>
      (unpacked <- unpack3 returned ;;
       match unpacked with
       | (RMessage user_message, RMessage assistant_message, RDocs news_docs) =>
           Ok {| resp_user_message := user_message;
                 resp_assistant_message := assistant_message;
                 referenced_news := news_docs |}
       | _ => Raise (TypeError "response validation failed")
       end,
       db', calls)
  end.

Definition fetch_chat_messages (db : DB) (room_id current_user : Z)
    (last_message_id : option Z) : result (list Message) :=
  _ <- _ensure_room_ownership db room_id current_user ;;
  let rows := filter (fun m => (m_chat_id m =? room_id)%Z) (messages db) in
  let rows :=
    match last_message_id with
    | Some last => filter (fun m => (last <? messages_id m)%Z) rows
    | None => rows
    end in
  Ok (order_by_asc created_at rows).

(** ** Room Lifecycle Manager *)

Definition list_user_chat_rooms (db : DB) (current_user : Z) : list Chat :=
  filter (fun c => (user_id c =? current_user)%Z) (chats db).

Record ChatCreate : Type := {
  create_title : string;
  create_stock_code : option string
}.

Record ChatUpdate : Type := {
  update_title : option string;
  update_trash_can : option string
}.

(** Modelled from the spec: the column defaults of a room are declared with
    the models.  A room created without a trash state is active. *)
Definition Chat_trash_can_default : TrashEnum := out.

Definition create_chat_room_for_user (db : DB) (current_user : Z)
    (chat_in : ChatCreate) : result Chat * DB :=
  let existing_chat :=
    match create_stock_code chat_in with
    | Some code =>
        if is_empty code then None
        else first (filter (fun c => (user_id c =? current_user)%Z
                                     && code_is code c
                                     && TrashEnum_eqb (trash_can c) in_)
                           (chats db))
    | None => None
    end in
  match existing_chat with
  | Some chat => (Ok chat, db)
  | None =>
      let new_chat :=
        {| chat_id := next_id (map chat_id (chats db));
           user_id := current_user;
           title := create_title chat_in;
           stock_code := create_stock_code chat_in;
           trash_can := Chat_trash_can_default;
           lastchat_at := now db |} in
      match commit_chat_insert db new_chat with
      | Raise e => (Raise e, db)
      | Ok db' => (Ok new_chat, db')
      end
  end.

Definition get_chat_room_by_stock_for_user (db : DB) (current_user : Z)
    (code : string) : result Chat :=
  match first (filter (fun c => (user_id c =? current_user)%Z
                                && code_is code c
                                && TrashEnum_eqb (trash_can c) in_)
                      (chats db)) with
  | None => Raise (HTTPException 404 "Chat room for stock not found")
  | Some chat => Ok chat
  end.

Definition parse_trash (value : string) : option TrashEnum :=
  if String.eqb value (TrashEnum_value in_) then Some in_
  else if String.eqb value (TrashEnum_value out) then Some out
  else None.

Definition update_chat_room_for_user (db : DB) (room_id current_user : Z)
    (chat_in : ChatUpdate) : result Chat * DB :=
  match first (filter (fun c => (chat_id c =? room_id)%Z
                                && (user_id c =? current_user)%Z)
                      (chats db)) with
  | None =>
      (Raise (HTTPException 404 "Chat room not found or permission denied"), db)
  | Some chat =>
      match
        (chat1 <-
           match update_title chat_in with
           | None => Ok (chat, false)
           | Some t =>
               let normalized_title := strip t in
               if is_empty normalized_title
               then Raise (HTTPException 400 "Title must not be empty")
               else Ok ({| chat_id := chat_id chat; user_id := user_id chat;
                           title := normalized_title;
                           stock_code := stock_code chat;
                           trash_can := trash_can chat;
                           lastchat_at := lastchat_at chat |}, true)
           end ;;
         match update_trash_can chat_in with
         | None => Ok chat1
         | Some value =>
             match parse_trash value with
             | None => Raise (HTTPException 400 "Invalid trash_can value")
             | Some t =>
                 Ok ({| chat_id := chat_id (fst chat1);
                        user_id := user_id (fst chat1);
                        title := title (fst chat1);
                        stock_code := stock_code (fst chat1);
                        trash_can := t;
                        lastchat_at := lastchat_at (fst chat1) |}, true)
             end
         end)
      with
      | Raise e => (Raise e, db)
      | Ok (chat', false) => (Ok chat', db)
      | Ok (chat', true) =>
          match commit_chat_update db chat' with
          | Raise e => (Raise e, db)
          | Ok db' => (Ok chat', db')
          end
      end
  end.

(** The character class of [_STOCK_CODE_PATTERN]: [A-Z], [0-9], dot, hyphen *)
Definition stock_code_char (c : ascii) : bool :=
  between 65 90 (code c) || between 48 57 (code c)
  || (code c =? 46)%nat || (code c =? 45)%nat.

Fixpoint all_chars (p : ascii -> bool) (s : string) : bool :=
  match s with
  | EmptyString => true
  | String c s' => p c && all_chars p s'
  end.

(** One to twenty characters of the class *)
Definition stock_code_body (s : string) : bool :=
  all_chars stock_code_char s
  && (1 <=? String.length s)%nat && (String.length s <=? 20)%nat.

(** The text before a final newline, when there is one *)
Fixpoint before_final_newline (s : string) : option string :=
  match s with
  | EmptyString => None
  | String c EmptyString =>
      if Ascii.eqb c "010"%char then Some EmptyString else None
  | String c s' =>
      match before_final_newline s' with
      | Some body => Some (String c body)
      | None => None
      end
  end.

(** [_STOCK_CODE_PATTERN.match(s)]: the anchored class, one to twenty times;
    the end anchor also holds just before a final newline. *)
Definition _STOCK_CODE_PATTERN_match (s : string) : bool :=
  stock_code_body s
  || match before_final_newline s with
     | Some body => stock_code_body body
     | None => false
     end.

(** [normalize_stock_code]: whitespace, case and length as on ASCII text *)
Definition normalize_stock_code (raw_code : option string) : result string :=
  match raw_code with
  | None => Raise (ValueError "stock_code is required")
  | Some raw =>
      let normalized := upper (remove_whitespace raw) in
      if is_empty normalized then Raise (ValueError "stock_code is empty")
      else if (20 <? String.length normalized)%nat
      then Raise (ValueError "stock_code must be 20 chars or fewer")
      else if negb (_STOCK_CODE_PATTERN_match normalized)
      then Raise (ValueError "stock_code contains invalid characters")
      else Ok normalized
  end.

Definition get_active_chat_by_stock (db : DB) (user : Z) (code : string)
  : option Chat :=
  first (filter (fun c => (user_id c =? user)%Z
                          && code_is code c
                          && TrashEnum_eqb (trash_can c) out)
                (chats db)).

(** [upsert_chat_by_stock].  [concurrent] is what other requests committed
    between the lookups of this request and its commit; the identity when
    the request runs alone. *)
Definition upsert_chat_by_stock (concurrent : DB -> DB) (db : DB) (user : Z)
    (code : string) (new_title : option string)
  : result (Chat * bool) * DB :=
  match get_active_chat_by_stock db user code with
  | Some existing => (Ok (existing, true), db)
  | None =>
      let trashed :=
        first (order_by_desc chat_id
                 (filter (fun c => (user_id c =? user)%Z
                                   && code_is code c
                                   && TrashEnum_eqb (trash_can c) in_)
                         (chats db))) in
      match trashed with
      | Some trashed =>
          let restored :=
            {| chat_id := chat_id trashed; user_id := user_id trashed;
               title :=
                 (if nonempty new_title
                  then text_or (option_map strip new_title) (title trashed)
                  else title trashed);
               stock_code := stock_code trashed;
               trash_can := out;
               lastchat_at := lastchat_at trashed |} in
          let db := concurrent db in
          match commit_chat_update db restored with
          | Raise e => (Raise e, db)
          | Ok db' => (Ok (restored, false), db')
          end
      | None =>
          let room_title :=
            text_or (if nonempty new_title then option_map strip new_title
                     else None)
                    (code ++ " 채팅") in
          let db := concurrent db in
          let new_chat :=
            {| chat_id := next_id (map chat_id (chats db));
               user_id := user;
               title := room_title;
               stock_code := Some code;
               trash_can := out;
               lastchat_at := now db |} in
          match commit_chat_insert db new_chat with
          | Raise IntegrityError =>
              match get_active_chat_by_stock db user code with
              | None => (Raise IntegrityError, db)
              | Some existing => (Ok (existing, true), db)
              end
          | Raise e => (Raise e, db)
          | Ok db' => (Ok (new_chat, false), db')
          end
      end
  end.

Definition alone : DB -> DB := fun db => db.

(** The body of the by-stock endpoint *)
Record ChatByStockResponse : Type := {
  by_stock_chat_id : Z;
  by_stock_title : string;
  by_stock_stock_code : string;
  existed : bool
}.

Definition enter_chat_by_stock (concurrent : DB -> DB) (db : DB)
    (current_user : Z) (raw_code : string) (query_title : option string)
  : result ChatByStockResponse * DB :=
  match normalize_stock_code (Some raw_code) with
  | Raise (ValueError msg) => (Raise (HTTPException 400 msg), db)
  | Raise e => (Raise e, db)
  | Ok normalized_code =>
      let normalized_title :=
        if nonempty query_title then option_map strip query_title else None in
      match upsert_chat_by_stock concurrent db current_user normalized_code
              normalized_title with
      | (Raise e, db') => (Raise e, db')
      | (Ok (chat, was_there), db') =>
          (Ok {| by_stock_chat_id := chat_id chat;
                 by_stock_title := title chat;
                 by_stock_stock_code :=
                   text_or (stock_code chat) normalized_code;
                 existed := was_there |}, db')
      end
  end.

(** ** Scenarios

    Concrete payloads, clients and databases on which the operations are
    evaluated. *)

(** A heap of provider payloads:
    - 0: the list of three texts, the middle one empty;
    - 1: an empty mapping; 2: an empty list;
    - 3: a list that holds itself;
    - 4, 5: a structured response cut at the output-token limit;
    - 6..10: a structured response carrying the text Hello;
    - 11: a structured response with an empty output list;
    - 12..15: a legacy response whose only choice has no content;
    - 16: a mapping whose output field is a number;
    - 17: the same, cut at the output-token limit. *)
Definition payloads : heap := fun l =>
  match l with
  | 0 => PyList [PyStr "a"; PyStr ""; PyStr "b"]
  | 1 => PyDict []
  | 2 => PyList []
  | 3 => PyList [PyRef 3]
  | 4 => PyObject [("output", PyRef 2); ("incomplete_details", PyRef 5);
                   ("status", PyStr "incomplete")] "Response()" None
  | 5 => PyDict [("reason", PyStr "max_output_tokens")]
  | 6 => PyDict [("output", PyRef 7); ("status", PyStr "completed")]
  | 7 => PyList [PyRef 8]
  | 8 => PyDict [("type", PyStr "message"); ("content", PyRef 9)]
  | 9 => PyList [PyRef 10]
  | 10 => PyDict [("type", PyStr "output_text"); ("text", PyStr "Hello")]
  | 11 => PyDict [("output", PyRef 2); ("status", PyStr "completed")]
  | 12 => PyObject [("choices", PyRef 13)] "ChatCompletion()" None
  | 13 => PyList [PyRef 14]
  | 14 => PyObject [("message", PyRef 15); ("finish_reason", PyStr "stop")]
                   "Choice()" None
  | 15 => PyObject [("content", PyNone)] "ChatCompletionMessage()" None
  | 16 => PyDict [("output", PyInt 5)]
  | 17 => PyDict [("output", PyInt 5); ("incomplete_details", PyRef 5)]
  | _ => PyDict []
  end.

(** A client whose structured answers are the responses at [first_answer]
    and, for a retry, at [retry_answer]; its legacy answer is at 12. *)
Definition scripted_client (first_answer retry_answer : loc) : OpenAI := {|
  responses_create := fun n _ =>
    match n with
    | 0 => Ok (PyRef first_answer)
    | _ => Ok (PyRef retry_answer)
    end;
  chat_completions_create := fun _ => Ok (PyRef 12)
|}.

(** The settings of the scenarios with another ceiling for the cap *)
Definition settings_with_ceiling (ceiling : Z) : Settings := {|
  _OPENAI_MODEL_DEFAULT := _OPENAI_MODEL_DEFAULT default_settings;
  _OPENAI_TEMPERATURE_DEFAULT := _OPENAI_TEMPERATURE_DEFAULT default_settings;
  _OPENAI_MAX_TOKENS_DEFAULT := _OPENAI_MAX_TOKENS_DEFAULT default_settings;
  _OPENAI_RESPONSES_MIN_OUTPUT_TOKENS :=
    _OPENAI_RESPONSES_MIN_OUTPUT_TOKENS default_settings;
  _OPENAI_RESPONSES_MAX_OUTPUT_TOKENS := ceiling;
  _ENABLE_RAG_NEWS := _ENABLE_RAG_NEWS default_settings;
  _RAG_NEWS_TOP_K := _RAG_NEWS_TOP_K default_settings;
  _RAG_NEWS_SUMMARY_LIMIT := _RAG_NEWS_SUMMARY_LIMIT default_settings;
  _RAG_NEWS_SIMILARITY_THRESHOLD :=
    _RAG_NEWS_SIMILARITY_THRESHOLD default_settings
|}.

Definition no_retrieval : Retrieval := {|
  get_news_session := None;
  similarity_search := fun _ _ _ => Ok []
|}.

Definition two_documents : list NewsDoc :=
  [ {| doc_title := Some "Earnings beat"; doc_published_at := Some "2025-01-02";
       doc_content := Some "Revenue   rose." |};
    {| doc_title := None; doc_published_at := None; doc_content := None |} ].

Definition retrieval_of (docs : list NewsDoc) : Retrieval := {|
  get_news_session := Some (Ok tt);
  similarity_search := fun _ _ _ => Ok docs
|}.

Definition runtime_of (client : OpenAI) (rag : Retrieval) : Runtime := {|
  rt_cfg := default_settings;
  rt_depth := 100;
  rt_heap := payloads;
  rt_sdk := Ready client;
  rt_rag := rag
|}.

Definition room (id owner : Z) (code : string) (t : TrashEnum) : Chat := {|
  chat_id := id; user_id := owner; title := code ++ " 채팅";
  stock_code := Some code; trash_can := t; lastchat_at := 0
|}.

Definition message_at (id room_id : Z) (time : Z) : Message := {|
  messages_id := id; m_chat_id := room_id; m_user_id := 1;
  m_role := role_user; m_content := "message " ++ str_int id;
  created_at := time
|}.

(** User 1 owns the active room 1 for AAPL; user 2 owns the active room 2. *)
Definition two_rooms : DB := {|
  chats := [room 1 1 "AAPL" out; room 2 2 "AAPL" out];
  messages := [];
  now := 10
|}.

(** User 1 has one room for AAPL, and it is in the trash. *)
Definition trashed_room_only : DB := {|
  chats := [room 1 1 "AAPL" in_];
  messages := [];
  now := 10
|}.

(** The ideographic space U+3000, in UTF-8 *)
Definition ideographic_space : string :=
  String "227"%char (String "128"%char (String "128"%char EmptyString)).

(** User 1 has two rooms for AAPL: room 3, active, and the newer room 5, in
    the trash. *)
Definition newer_room_trashed : DB := {|
  chats := [room 3 1 "AAPL" out; room 5 1 "AAPL" in_];
  messages := [];
  now := 10
|}.

(** Room 1 with [n] messages, the message [i] created at time [i]. *)
Definition long_room (n : nat) : DB := {|
  chats := [room 1 1 "AAPL" out];
  messages := map (fun i => message_at (Z.of_nat i) 1 (Z.of_nat i)) (seq 1 n);
  now := Z.of_nat n + 1
|}.

(** ** Finite payloads *)

(** The values a heap cell holds and the normalizer descends into *)
Definition children (o : pyobj) : list pyval :=
  match o with
  | PyList items | PyTuple items => items
  | PyDict entries => map snd entries
  | PyObject attrs _ _ => map snd attrs
  end.

(** [within h n v]: what [v] reaches in [h] is finite, with at most [n]
    containers nested in one another.  No value that reaches itself is
    within any bound. *)
Fixpoint within (h : heap) (n : nat) (v : pyval) : Prop :=
  match v with
  | PyRef l =>
      match n with
      | O => False
      | S n' => Forall (within h n') (children (h l))
      end
  | _ => True
  end.

(** ** Shapes of a stock code *)

(** A text of ASCII characters.  On such a text the case mappings, the
    whitespace class of the regular expressions, the length and the slices
    of the embedding are those of Python. *)
Definition is_ascii (s : string) : bool :=
  all_chars (fun c => (code c <? 128)%nat) s.


Definition whitespace_free (s : string) : bool :=
  all_chars (fun c => negb (py_isspace c)) s.

(** ** The history the specification asks for *)

(** [l[-n:]] for a positive [n]: the last [n] items *)
Definition lastn {A : Type} (n : nat) (l : list A) : list A :=
  skipn (List.length l - n) l.

(** Context assembly in the words of the specification: the up-to-[limit]
    most recent messages of the room by creation time, oldest first. *)
Definition most_recent_history (db : DB) (room_id : Z) (limit : nat)
  : list Message :=
  lastn limit
    (order_by_asc created_at
       (filter (fun m => (m_chat_id m =? room_id)%Z) (messages db))).

(** ** Provider runs *)

(** The provider's answers to the calls of a run, in the order of the
    calls; [n] calls were issued before the first of them. *)
Fixpoint answers_from (client : OpenAI) (n : nat) (calls : list request)
  : list (result pyval) :=
  match calls with
  | [] => []
  | ResponsesCreate r :: rest =>
      responses_create client n r :: answers_from client (S n) rest
  | ChatCompletionsCreate r :: rest =>
      chat_completions_create client r :: answers_from client (S n) rest
  end.

Definition answers (client : OpenAI) (calls : list request)
  : list (result pyval) :=
  answers_from client 0 calls.

(** The response has the shape of a provider response, as far as the debug
    lines of the service read it: under the structured protocol its output
    list can be counted, its status shown and its incompletion reason read;
    under the legacy protocol its choices can be counted and the finish
    reason of the first one shown. *)
Definition summarizable (depth : nat) (h : heap) (structured : bool)
    (resp : pyval) : Prop :=
  if structured then
    (exists n, output_count h resp = Ok n)
    /\ (exists s, py_str depth h (_get_from_obj h resp "status" PyNone) = Ok s)
    /\ (exists r, _get_incomplete_reason depth h resp = Ok r)
  else
    exists line, chat_done_line depth h resp = Ok line.


(** The retry cap in the words of the specification, in exact arithmetic:
    the smaller of the ceiling and of the larger of one and a half times the
    previous cap and the previous cap plus 256. *)
Definition specified_retry_cap (ceiling previous : QArith_base.Q)
  : QArith_base.Q :=
  Qminmax.Qmin ceiling
    (Qminmax.Qmax
       (QArith_base.Qmult previous (QArith_base.Qmake 3 2))
       (QArith_base.Qplus previous (QArith_base.inject_Z 256))).

(** ** Rooms of a user and a stock code *)

Definition room_of (user : Z) (code : string) (c : Chat) : Prop :=
  user_id c = user /\ stock_code c = Some code.

(** The title a room gets from an optional new title: the new title
    trimmed, or [fallback] when none is given or it trims to nothing. *)
Definition chosen_title (new_title : option string) (fallback : string)
  : string :=
  match new_title with
  | Some t => if is_empty (strip t) then fallback else strip t
  | None => fallback
  end.

(** The uniqueness the data model aims at: a user has at most one room for
    a stock code. *)
Definition one_room_per_stock (db : DB) : Prop :=
  forall user code a b,
    In a (chats db) -> In b (chats db) ->
    room_of user code a -> room_of user code b -> a = b.

(** The request that moves a room to the trash *)
Definition to_trash : ChatUpdate :=
  {| update_title := None; update_trash_can := Some "in" |}.

(** ** Shapes of results, payloads, queries and writes *)

(** The call returns, or raises an exception that is not an HTTP
    exception. *)
Definition no_http_error {A : Type} (r : result A) : Prop :=
  match r with
  | Raise (HTTPException _ _) => False
  | _ => True
  end.

(** The call returns, or raises an exception that is not an HTTP exception,
    or raises the empty-response error. *)
Definition at_most_empty_error {A : Type} (r : result A) : Prop :=
  match r with
  | Raise (HTTPException status_code detail) =>
      status_code = HTTP_502_BAD_GATEWAY
      /\ detail = "OpenAI returned empty response"
  | _ => True
  end.

(** A mapping or an object: what the normalizer reads fields from *)
Definition is_record (o : pyobj) : Prop :=
  match o with
  | PyDict _ | PyObject _ _ _ => True
  | _ => False
  end.

(** Rows in ascending order of [key]: what [order_by(key.asc())] gives *)
Definition ascending {A : Type} (key : A -> Z) : list A -> Prop :=
  StronglySorted (fun a b => (key a <= key b)%Z).

(** The call carries the messages [sent]: as they are under the legacy
    protocol, reshaped under the structured protocol. *)
Definition carries (sent : list oai_message) (call : request) : Prop :=
  match call with
  | ResponsesCreate r => rq_input r = _format_messages_for_responses sent
  | ChatCompletionsCreate r => cq_messages r = sent
  end.

(** The only whitespace of the text is the plain space. *)
Definition blank_is_space (s : string) : bool :=
  all_chars (fun c => negb (py_isspace c) || Ascii.eqb c " "%char) s.

(** The rooms after a call that wrote: one row replaced by a row of the
    same id, owner and stock code. *)
Definition rewrites_one_row (db db' : DB) : Prop :=
  exists old c,
    In old (chats db) /\ chat_id c = chat_id old /\ user_id c = user_id old
    /\ stock_code c = stock_code old
    /\ chats db' = replace_chat c (chats db).

(** * Properties *)

(** ** Text Normalizer *)

(** *** Enough depth gives a result, the same at every greater depth *)


Lemma within_child h n l v :
  within h (S n) (PyRef l) -> In v (children (h l)) -> within h n v.
Proof.
  simpl. intros H Hin. rewrite Forall_forall in H. auto.
Qed.






Lemma coerce_ref_eq d h l :
  _coerce_text_value (S d) h (PyRef l) =
  match h l with
  | PyList items | PyTuple items =>
      parts <- coerce_items (_coerce_text_value d h) items ;;
      Ok (match parts with
          | [] => None
          | _ => Some (String.concat nl parts)
          end)
  | PyDict _ | PyObject _ _ _ =>
      found <- coerce_nested (_coerce_text_value d h) h (PyRef l) nested_keys ;;
      match found with
      | Some resolved => Ok (Some resolved)
      | None =>
          text_repr <- py_str d h (PyRef l) ;;
          Ok (or_none (strip text_repr))
      end
  end.
Proof. reflexivity. Qed.

(** *** The list that holds itself *)


(** *** Fields that yield no text *)

Lemma coerce_nested_skip f h v key rest r :
  f (_get_from_obj h v key PyNone) = Ok r -> nonempty r = false ->
  coerce_nested f h v (key :: rest) = coerce_nested f h v rest.
Proof.
  intros Hf Hr. cbn [coerce_nested].
  destruct (_get_from_obj h v key PyNone); try reflexivity;
    rewrite Hf; cbn [bind]; rewrite Hr; reflexivity.
Qed.

(** C4 (counterexample).  A whitespace-only string comes back unchanged and
    an empty mapping comes back as its rendering: neither is null. *)
Lemma coerce_text_blank_string_and_empty_mapping :
  _coerce_text_value 100 payloads (PyStr "   ") = Ok (Some "   ")
  /\ _coerce_text_value 100 payloads (PyRef 1) = Ok (Some "{}").
Proof. split; reflexivity. Qed.

(** C4 (amended).  With room for two nested activations, the normalizer
    returns null on an empty sequence; it returns every string unchanged,
    a whitespace-only one included; on a mapping or an object none of whose
    value, text and content fields yields text, be the field absent, null
    or normalized to nothing, it returns the trimmed rendering of the
    mapping or object, null only when the rendering is blank, which for the
    empty mapping is the two braces; and on the list of a, the empty string
    and b it returns a and b joined by a newline. *)
Theorem coerce_text_on_degenerate_inputs (h : heap) (depth : nat) :
  1 <= depth ->
  (forall l, h l = PyList [] \/ h l = PyTuple [] ->
             _coerce_text_value (S depth) h (PyRef l) = Ok None)
  /\ (forall s, _coerce_text_value (S depth) h (PyStr s) = Ok (Some s))
  /\ (forall l shown,
         is_record (h l) ->
         (forall key, In key nested_keys ->
            exists r,
              _coerce_text_value depth h (_get_from_obj h (PyRef l) key PyNone)
              = Ok r
              /\ nonempty r = false) ->
         py_str depth h (PyRef l) = Ok shown ->
         _coerce_text_value (S depth) h (PyRef l) = Ok (or_none (strip shown)))
  /\ (forall l, h l = PyDict [] ->
                 _coerce_text_value (S depth) h (PyRef l) = Ok (Some "{}"))
  /\ (forall l, h l = PyList [PyStr "a"; PyStr ""; PyStr "b"] ->
                 _coerce_text_value (S depth) h (PyRef l)
                 = Ok (Some ("a" ++ nl ++ "b"))).
Proof.
  intro Hd.
  assert (Hrecord : forall l shown,
            is_record (h l) ->
            (forall key, In key nested_keys ->
               exists r,
                 _coerce_text_value depth h
                   (_get_from_obj h (PyRef l) key PyNone) = Ok r
                 /\ nonempty r = false) ->
            py_str depth h (PyRef l) = Ok shown ->
            _coerce_text_value (S depth) h (PyRef l)
            = Ok (or_none (strip shown))).
  { intros l shown Hrec Hsilent Hshown. rewrite coerce_ref_eq.
    assert (Hnone : coerce_nested (_coerce_text_value depth h) h (PyRef l)
                      nested_keys = Ok None).
    { unfold nested_keys.
      destruct (Hsilent "value" (or_introl eq_refl)) as (r1 & H1 & E1).
      destruct (Hsilent "text" (or_intror (or_introl eq_refl)))
        as (r2 & H2 & E2).
      destruct (Hsilent "content"
                  (or_intror (or_intror (or_introl eq_refl))))
        as (r3 & H3 & E3).
      rewrite (coerce_nested_skip _ h (PyRef l) "value" _ r1 H1 E1).
      rewrite (coerce_nested_skip _ h (PyRef l) "text" _ r2 H2 E2).
      rewrite (coerce_nested_skip _ h (PyRef l) "content" _ r3 H3 E3).
      reflexivity. }
    destruct (h l) as [items | items | entries | attrs text dump];
      try contradiction;
      rewrite Hnone; cbn [bind]; rewrite Hshown; reflexivity. }
  destruct depth as [| d]; [lia |].
  refine (conj _ (conj _ (conj Hrecord (conj _ _)))).
  - intros l [Hl | Hl]; rewrite coerce_ref_eq, Hl; reflexivity.
  - reflexivity.
  - intros l Hl. apply (Hrecord l "{}").
    + rewrite Hl. exact I.
    + intros key _. exists None. unfold _get_from_obj. rewrite Hl.
      split; reflexivity.
    + unfold py_str. simpl. rewrite Hl. reflexivity.
  - intros l Hl. rewrite coerce_ref_eq, Hl. reflexivity.
Qed.

(** The cases on the payloads of the scenarios, and on the mapping of an
    empty text and a number, whose text field is set and yields nothing. *)
Lemma coerce_text_on_degenerate_inputs_witness :
  _coerce_text_value 100 payloads (PyRef 2) = Ok None
  /\ _coerce_text_value 100 payloads (PyStr "   ") = Ok (Some "   ")
  /\ _coerce_text_value 100 payloads (PyRef 12)
     = Ok (Some "ChatCompletion()")
  /\ _coerce_text_value 100 payloads (PyRef 1) = Ok (Some "{}")
  /\ _coerce_text_value 100 payloads (PyRef 0) = Ok (Some ("a" ++ nl ++ "b"))
  /\ _coerce_text_value 100
       (fun _ => PyDict [("text", PyStr ""); ("k", PyInt 1)]) (PyRef 0)
     = Ok (Some "{'text': '', 'k': 1}").
Proof.
  assert (Hd : 1 <= 99) by (repeat constructor).
  destruct (coerce_text_on_degenerate_inputs payloads 99 Hd)
    as (Hseq & Hstr & Hobj & Hmap & Hlist).
  destruct (coerce_text_on_degenerate_inputs
              (fun _ => PyDict [("text", PyStr ""); ("k", PyInt 1)]) 99 Hd)
    as (_ & _ & Hrecord & _).
  refine (conj _ (conj _ (conj _ (conj _ (conj _ _))))).
  - apply Hseq. left. reflexivity.
  - apply Hstr.
  - apply (Hobj 12 "ChatCompletion()").
    + exact I.
    + intros key [<- | [<- | [<- | []]]]; exists None; split; reflexivity.
    + reflexivity.
  - apply Hmap. reflexivity.
  - apply Hlist. reflexivity.
  - apply (Hrecord 0 "{'text': '', 'k': 1}").
    + exact I.
    + intros key [<- | [<- | [<- | []]]];
        [exists None | exists (Some "") | exists None]; split; reflexivity.
    + reflexivity.
Defined.




(** ** Provider Dispatcher *)

(** *** The debug lines of a well-shaped response *)

Lemma responses_done_line_ok depth h resp tokens :
  summarizable depth h true resp ->
  exists line, responses_done_line depth h resp tokens = Ok line.
Proof.
  intros ([n Hn] & [s Hs] & _). unfold responses_done_line.
  rewrite Hn. cbn [bind]. rewrite Hs. cbn [bind]. eauto.
Qed.


Lemma clamp_below_ceiling cfg max_tokens :
  (clamp_output_tokens cfg max_tokens
   <= _OPENAI_RESPONSES_MAX_OUTPUT_TOKENS cfg)%Z.
Proof. unfold clamp_output_tokens. lia. Qed.

(** *** The product of a cap and one and a half *)

Lemma round53_small n : (Z.abs n < 2 ^ 53)%Z -> round53 n = n.
Proof.
  intro Hn. unfold round53.
  assert (Hshift : (Z.log2 (Z.abs n) + 1 - 53 <= 0)%Z).
  { destruct (Z.eq_dec (Z.abs n) 0) as [-> | Hnz]; [simpl; lia |].
    assert (Hlog : (Z.log2 (Z.abs n) < 53)%Z)
      by (apply Z.log2_lt_pow2; lia).
    lia. }
  apply Z.leb_le in Hshift. rewrite Hshift. reflexivity.
Qed.

Lemma int_times_1_5_exact n :
  (3 * Z.abs n < 2 ^ 53)%Z -> int_times_1_5 n = Ok (Z.quot (3 * n) 2).
Proof.
  intro Hn. unfold int_times_1_5.
  assert (H53 : (2 ^ 53 < 2 ^ 1024)%Z) by (apply Z.pow_lt_mono_r; lia).
  assert (H1025 : (2 ^ 1024 < 2 ^ 1025)%Z) by (apply Z.pow_lt_mono_r; lia).
  rewrite (round53_small n) by lia.
  rewrite (round53_small (3 * n)) by lia.
  destruct (Z.leb_spec (2 ^ 1024) (Z.abs n)); [lia |].
  destruct (Z.leb_spec (2 ^ 1025) (Z.abs (3 * n))); [lia |].
  reflexivity.
Qed.

Lemma int_times_1_5_raises n e :
  int_times_1_5 n = Raise e -> exists msg, e = OtherError msg.
Proof.
  unfold int_times_1_5.
  destruct (_ <=? _)%Z; [intros [= <-]; eauto |].
  destruct (_ <=? _)%Z; [intros [= <-]; eauto | discriminate].
Qed.

(** C6 (amended).  Under the structured protocol, let the first call be
    answered by a response with the shape of a provider response.  The cap
    of the call never exceeds the configured ceiling.  When the incompletion
    reason of the response is the output-token limit and the cap is strictly
    below the ceiling, the dispatcher issues exactly one further call, with
    the cap min(ceiling, max(int(cap * 1.5), cap + 256)), and no third call
    whatever the retry answers; the product is a double-precision float cut
    to an integer, which is three halves of the cap cut toward zero as long
    as three times the cap stays below 2^53.  When the product cannot be
    formed, the cap being beyond the range of a double, no further call is
    issued and the run ends in a 502.  When the reason is anything else, or
    the cap equals the ceiling, the first call is the only one. *)
Theorem structured_retry_once
    (cfg : Settings) (depth : nat) (h : heap) (client : OpenAI)
    (messages : list oai_message) (model : string)
    (temperature : QArith_base.Q) (max_tokens : Z)
    (resp : pyval) (reason : option string) :
  let ceiling := _OPENAI_RESPONSES_MAX_OUTPUT_TOKENS cfg in
  let cap := clamp_output_tokens cfg max_tokens in
  let call tokens :=
    ResponsesCreate {| rq_model := model;
                       rq_input := _format_messages_for_responses messages;
                       rq_max_output_tokens := tokens |} in
  let run :=
    _call_openai_chat cfg depth h (Ready client) messages model
      temperature max_tokens in
  _should_use_responses_api model = true ->
  answers client [call cap] = [Ok resp] ->
  summarizable depth h true resp ->
  _get_incomplete_reason depth h resp = Ok reason ->
  (cap <= ceiling)%Z
  /\ (reason = Some "max_output_tokens" -> (cap < ceiling)%Z ->
      (forall scaled,
          int_times_1_5 cap = Ok scaled ->
          snd run = [call cap;
                     call (Z.min ceiling (Z.max scaled (cap + 256)))])
      /\ (forall e,
             int_times_1_5 cap = Raise e ->
             run = (Raise (HTTPException HTTP_502_BAD_GATEWAY
                             ("OpenAI chat completion failed: " ++ exn_str e)),
                    [call cap])))
  /\ ((3 * Z.abs cap < 2 ^ 53)%Z ->
      int_times_1_5 cap = Ok (Z.quot (3 * cap) 2))
  /\ (reason <> Some "max_output_tokens" \/ cap = ceiling ->
      snd run = [call cap]).
Proof.
  intros ceiling cap call run Hmodel Hanswer Hshape Hreason.
  assert (Hfirst : responses_create client 0
                     {| rq_model := model;
                        rq_input := _format_messages_for_responses messages;
                        rq_max_output_tokens := cap |} = Ok resp).
  { unfold answers in Hanswer. simpl in Hanswer. congruence. }
  destruct (responses_done_line_ok depth h resp cap Hshape) as [line Hline].
  assert (Hrun : run =
    if match reason with
       | Some r => String.eqb r "max_output_tokens"
       | None => false
       end && (cap <? ceiling)%Z
    then
      match retry_tokens cfg cap with
      | Raise e => (gateway_handlers (Raise e), [call cap])
      | Ok retry_cap =>
          (fst run, [call cap; call retry_cap])
      end
    else (fst run, [call cap])).
  { unfold run, _call_openai_chat. cbn [_get_openai_client].
    rewrite Hmodel. fold cap. rewrite Hfirst, Hline. cbn [bind].
    rewrite Hreason. fold ceiling.
    destruct (match reason with
              | Some r => String.eqb r "max_output_tokens"
              | None => false
              end && (cap <? ceiling)%Z); [| reflexivity].
    destruct (retry_tokens cfg cap) as [retry_cap | e]; [| reflexivity].
    destruct (responses_create client 1 _); reflexivity. }
  split; [apply clamp_below_ceiling |].
  split; [| split; [apply int_times_1_5_exact |]].
  - intros -> Hlt. apply Z.ltb_lt in Hlt.
    rewrite String.eqb_refl in Hrun. fold ceiling in Hlt. rewrite Hlt in Hrun.
    cbn [andb] in Hrun. unfold retry_tokens in Hrun. fold ceiling in Hrun.
    split.
    + intros scaled Hscaled. rewrite Hrun, Hscaled. reflexivity.
    + intros e He. rewrite Hrun, He. cbn [bind].
      destruct (int_times_1_5_raises cap e He) as [msg ->]. reflexivity.
  - intros Hno. rewrite Hrun.
    destruct Hno as [Hne | Heq].
    + destruct reason as [r |]; [| reflexivity].
      destruct (String.eqb r "max_output_tokens") eqn:E; [| reflexivity].
      apply String.eqb_eq in E. congruence.
    + rewrite Heq, Z.ltb_irrefl, andb_false_r. reflexivity.
Qed.

(** The cut response of the scenarios, answered to a call capped at the
    default floor of 1024, is retried once, with the cap 1536. *)
Lemma structured_retry_once_witness :
  snd (_call_openai_chat default_settings 100 payloads
         (Ready (scripted_client 4 6)) [] "gpt-5-mini"
         (QArith_base.Qmake 1 5) 512)
  = [ResponsesCreate {| rq_model := "gpt-5-mini"; rq_input := [];
                        rq_max_output_tokens := 1024 |};
     ResponsesCreate {| rq_model := "gpt-5-mini"; rq_input := [];
                        rq_max_output_tokens := 1536 |}].
Proof.
  assert (Hshape : summarizable 100 payloads true (PyRef 4)).
  { split; [| split]; eexists; vm_compute; reflexivity. }
  assert (Hlt : (clamp_output_tokens default_settings 512
                 < _OPENAI_RESPONSES_MAX_OUTPUT_TOKENS default_settings)%Z)
    by (vm_compute; reflexivity).
  exact (proj1 (proj1 (proj2 (structured_retry_once default_settings 100
                                payloads (scripted_client 4 6) []
                                "gpt-5-mini" (QArith_base.Qmake 1 5) 512
                                (PyRef 4) (Some "max_output_tokens")
                                eq_refl eq_refl Hshape eq_refl))
                      eq_refl Hlt)
               1536%Z eq_refl).
Defined.

(** C6 (counterexample).  Four runs under the structured protocol, each on
    a response cut at the output-token limit and a cap below the ceiling.
    - With a cap of 1025 the retry is issued with the cap 1537, where the
      formula as the specification words it, with one and a half times 1025,
      gives 3075/2.
    - With a cap of 2^52 - 3 the retry cap is 6755399441055740, the double
      nearest to the product, and not three halves of the cap cut to
      6755399441055739.
    - With a cap of 2^1024 the product cannot be formed: no retry is issued
      and the run ends in a 502.
    - On a response whose output is a number, which cannot be counted, no
      retry is issued either: the run ends in a 502 after the first call. *)
Lemma structured_retry_claim_fails :
  (snd (_call_openai_chat default_settings 100 payloads
          (Ready (scripted_client 4 6)) [] "gpt-5-mini"
          (QArith_base.Qmake 1 5) 1025)
   = [ResponsesCreate {| rq_model := "gpt-5-mini"; rq_input := [];
                         rq_max_output_tokens := 1025 |};
      ResponsesCreate {| rq_model := "gpt-5-mini"; rq_input := [];
                         rq_max_output_tokens := 1537 |}]
   /\ QArith_base.Qeq
        (specified_retry_cap (QArith_base.inject_Z 4096)
                           (QArith_base.inject_Z 1025))
        (QArith_base.Qmake 3075 2)
   /\ ~ QArith_base.Qeq (QArith_base.inject_Z 1537)
          (specified_retry_cap (QArith_base.inject_Z 4096)
                             (QArith_base.inject_Z 1025)))
  /\ (snd (_call_openai_chat (settings_with_ceiling (2 ^ 60)) 100 payloads
             (Ready (scripted_client 4 6)) [] "gpt-5-mini"
             (QArith_base.Qmake 1 5) (2 ^ 52 - 3))
      = [ResponsesCreate {| rq_model := "gpt-5-mini"; rq_input := [];
                            rq_max_output_tokens := 2 ^ 52 - 3 |};
         ResponsesCreate {| rq_model := "gpt-5-mini"; rq_input := [];
                            rq_max_output_tokens := 6755399441055740 |}]
      /\ Z.quot (3 * (2 ^ 52 - 3)) 2 = 6755399441055739%Z)
  /\ _call_openai_chat (settings_with_ceiling (2 ^ 1025)) 100 payloads
       (Ready (scripted_client 4 6)) [] "gpt-5-mini"
       (QArith_base.Qmake 1 5) (2 ^ 1024)
     = (Raise (HTTPException 502
                 "OpenAI chat completion failed: int too large to convert to float"),
        [ResponsesCreate {| rq_model := "gpt-5-mini"; rq_input := [];
                            rq_max_output_tokens := 2 ^ 1024 |}])
  /\ (_get_incomplete_reason 100 payloads (PyRef 17)
      = Ok (Some "max_output_tokens")
      /\ _call_openai_chat default_settings 100 payloads
           (Ready (scripted_client 17 6)) [] "gpt-5-mini"
           (QArith_base.Qmake 1 5) 512
         = (Raise (HTTPException 502
                     "OpenAI chat completion failed: object of type 'int' has no len()"),
            [ResponsesCreate {| rq_model := "gpt-5-mini"; rq_input := [];
                                rq_max_output_tokens := 1024 |}])).
Proof.
  refine (conj (conj _ (conj _ _)) (conj (conj _ _) (conj _ (conj _ _)))).
  - vm_compute. reflexivity.
  - vm_compute. reflexivity.
  - vm_compute. discriminate.
  - vm_compute. reflexivity.
  - vm_compute. reflexivity.
  - vm_compute. reflexivity.
  - vm_compute. reflexivity.
  - vm_compute. reflexivity.
Qed.

(** *** The last answer of a run *)







(** ** Queries *)

Lemma filter_none {A : Type} (p : A -> bool) (l : list A) :
  (forall x, In x l -> p x = false) -> filter p l = [].
Proof.
  induction l as [| x l IH]; intro H; [reflexivity |].
  simpl. rewrite (H x (or_introl eq_refl)). apply IH.
  intros y Hy. apply H. now right.
Qed.

Lemma first_filter_some {A : Type} (p : A -> bool) (l : list A) (x : A) :
  first (filter p l) = Some x -> In x l /\ p x = true.
Proof.
  unfold first. intro H.
  assert (Hin : In x (filter p l)).
  { destruct (filter p l); [discriminate |]. injection H as ->. now left. }
  apply filter_In in Hin. exact Hin.
Qed.

Lemma first_filter_exists {A : Type} (p : A -> bool) (l : list A) (x : A) :
  In x l -> p x = true -> exists y, first (filter p l) = Some y.
Proof.
  intros Hin Hp.
  assert (H : In x (filter p l)) by (apply filter_In; auto).
  destruct (filter p l) as [| y rest]; [contradiction |].
  exists y. reflexivity.
Qed.


(** ** Context Assembler *)

(** C2 (code at the failing input).  In a room of 31 messages the history
    loaded with the default limit of 30 is the messages 1 to 30, the oldest
    thirty: the newest message, 31, is left out, where the most recent
    thirty are the messages 2 to 31. *)
Theorem load_chat_history_keeps_oldest :
  map messages_id (_load_chat_history (long_room 31) 1 default_history_limit)
  = map Z.of_nat (seq 1 30)
  /\ map messages_id (most_recent_history (long_room 31) 1 default_history_limit)
     = map Z.of_nat (seq 2 30)
  /\ ~ In 31%Z (map messages_id
                  (_load_chat_history (long_room 31) 1 default_history_limit)).
Proof.
  split; [vm_compute; reflexivity |].
  split; [vm_compute; reflexivity |].
  vm_compute. intuition discriminate.
Qed.


(** ** Reply Orchestrator *)

(** C8.  When no room with the given id belongs to the caller, be it that
    the room does not exist or that another user owns it,
    [create_message_and_reply] fails with the 404 error, leaves the database
    as it was, no message stored, and calls no provider. *)
Theorem create_message_and_reply_not_found
    (rt : Runtime) (db : DB) (room_id current_user : Z) (message : string)
    (system_prompt : option string) :
  (forall c, In c (chats db) -> chat_id c = room_id ->
             user_id c <> current_user) ->
  create_message_and_reply rt db room_id current_user message system_prompt
  = (Raise (HTTPException 404 "Chat room not found or permission denied"),
     db, []).
Proof.
  intro Hforeign.
  unfold create_message_and_reply, save_user_message, _ensure_room_ownership.
  rewrite filter_none; [reflexivity |].
  intros c Hc.
  destruct (chat_id c =? room_id)%Z eqn:Eid; [| reflexivity].
  apply Z.eqb_eq in Eid. simpl.
  apply Z.eqb_neq. auto.
Qed.

(** User 1 writes to room 2, which user 2 owns. *)
Lemma create_message_and_reply_not_found_witness :
  create_message_and_reply (runtime_of (scripted_client 6 6) no_retrieval)
    two_rooms 2 1 "What's the outlook?" None
  = (Raise (HTTPException 404 "Chat room not found or permission denied"),
     two_rooms, []).
Proof.
  apply create_message_and_reply_not_found.
  intros c [<- | [<- | []]]; simpl; intros; lia.
Defined.


(** C1 (code on every successful run).  What [create_message_and_reply]
    returns has two components, the user message and the assistant message,
    and no document list; the endpoint, which unpacks three, then raises. *)
Theorem create_message_and_reply_returns_pair
    (rt : Runtime) (db : DB) (room_id current_user : Z) (message : string)
    (system_prompt : option string) (returned : list retval) (db' : DB)
    (calls : list request) :
  create_message_and_reply rt db room_id current_user message system_prompt
  = (Ok returned, db', calls) ->
  (exists user_msg assistant_msg,
      returned = [RMessage user_msg; RMessage assistant_msg])
  /\ create_message_with_openai rt db room_id current_user message system_prompt
     = (Raise (ValueError "not enough values to unpack (expected 3, got 2)"),
        db', calls).
Proof.
  intro Hrun. unfold create_message_with_openai. rewrite Hrun.
  unfold create_message_and_reply in Hrun.
  destruct (save_user_message db room_id current_user message)
    as [[user_msg | e] db1]; [| discriminate].
  destruct (generate_and_save_assistant_reply rt db1 room_id current_user
              system_prompt) as [[[assistant_msg | e] db2] calls'];
    [| discriminate].
  injection Hrun as <- <- <-.
  split; [eauto | reflexivity].
Qed.

(** A successful turn of user 1 in room 1: the service returns, the
    endpoint raises. *)
Lemma create_message_and_reply_returns_pair_witness :
  exists returned db' calls,
    create_message_and_reply (runtime_of (scripted_client 6 6) no_retrieval)
      two_rooms 1 1 "What's the outlook?" None = (Ok returned, db', calls)
    /\ create_message_with_openai (runtime_of (scripted_client 6 6) no_retrieval)
         two_rooms 1 1 "What's the outlook?" None
       = (Raise (ValueError "not enough values to unpack (expected 3, got 2)"),
          db', calls).
Proof.
  do 3 eexists.
  assert (Hrun : create_message_and_reply
                   (runtime_of (scripted_client 6 6) no_retrieval)
                   two_rooms 1 1 "What's the outlook?" None
                 = (Ok _, _, _)) by (vm_compute; reflexivity).
  split; [exact Hrun |].
  exact (proj2 (create_message_and_reply_returns_pair _ _ _ _ _ _ _ _ _ Hrun)).
Defined.

(** *** A chat turn, end to end *)

(** With retrieval disabled the assistant message carries the text of the
    provider as it is, and both messages are stored in the room. *)
Example turn_without_retrieval :
  let '(outcome, db', _) :=
    create_message_and_reply (runtime_of (scripted_client 6 6) no_retrieval)
      two_rooms 1 1 "What's the outlook?" None in
  exists user_msg assistant_msg,
    outcome = Ok [RMessage user_msg; RMessage assistant_msg]
    /\ m_content assistant_msg = "Hello"
    /\ messages db' = [user_msg; assistant_msg].
Proof. vm_compute. do 2 eexists. repeat split. Qed.

(** With two retrieved documents the assistant message ends with a
    references footer of two lines, placeholders standing for the missing
    title and date. *)
Example turn_with_two_documents :
  let '(outcome, _, _) :=
    create_message_and_reply
      (runtime_of (scripted_client 6 6) (retrieval_of two_documents))
      two_rooms 1 1 "What's the outlook?" None in
  exists user_msg assistant_msg,
    outcome = Ok [RMessage user_msg; RMessage assistant_msg]
    /\ m_content assistant_msg
       = "Hello" ++ nl ++ nl ++ "[참고 뉴스]" ++ nl
         ++ "1. Earnings beat (2025-01-02)" ++ nl
         ++ "2. 제목 없음 (날짜 미상)" ++ nl.
Proof. vm_compute. do 2 eexists. repeat split. Qed.

(** The by-stock endpoint normalizes the code of the request and opens a
    room under the normalized code. *)
Example enter_by_stock_normalizes :
  let '(outcome, _) :=
    enter_chat_by_stock alone two_rooms 3 "aapl " None in
  exists response,
    outcome = Ok response
    /\ by_stock_stock_code response = "AAPL"
    /\ by_stock_title response = "AAPL 채팅"
    /\ existed response = false.
Proof. vm_compute. eexists. repeat split. Qed.

(** ** Room Lifecycle Manager *)

(** *** Ordering *)

Lemma head_insert_by {A : Type} (key : A -> Z) (x : A) (l : list A) :
  head (insert_by key x l) =
  match head l with
  | Some y => if (key x <=? key y)%Z then Some x else Some y
  | None => Some x
  end.
Proof.
  destruct l as [| y rest]; simpl; [reflexivity |].
  destruct (key x <=? key y)%Z; reflexivity.
Qed.

Lemma first_order_by_asc {A : Type} (key : A -> Z) (l : list A) :
  match first (order_by_asc key l) with
  | Some m => In m l /\ forall z, In z l -> (key m <= key z)%Z
  | None => l = []
  end.
Proof.
  unfold first. induction l as [| x l IH]; [reflexivity |].
  unfold order_by_asc in *. cbn [fold_right]. rewrite head_insert_by.
  destruct (head (fold_right (insert_by key) [] l)) as [y |].
  - destruct IH as [Hy Hmin].
    destruct (key x <=? key y)%Z eqn:E.
    + apply Z.leb_le in E. split; [now left |].
      intros z [<- | Hz]; [lia |]. specialize (Hmin z Hz). lia.
    + apply Z.leb_gt in E. split; [now right |].
      intros z [<- | Hz]; [lia | auto].
  - subst l. split; [now left |]. intros z [<- | []]. lia.
Qed.

Lemma first_order_by_desc {A : Type} (key : A -> Z) (l : list A) :
  match first (order_by_desc key l) with
  | Some m => In m l /\ forall z, In z l -> (key z <= key m)%Z
  | None => l = []
  end.
Proof.
  unfold order_by_desc.
  pose proof (first_order_by_asc (fun x => (- key x)%Z) l) as H.
  destruct (first _); [| exact H].
  destruct H as [Hin Hmin]. split; [exact Hin |].
  intros z Hz. specialize (Hmin z Hz). simpl in Hmin. lia.
Qed.

(** *** Selection of the rooms of a user and a code *)

Lemma select_room user code t c :
  ((user_id c =? user)%Z && code_is code c && TrashEnum_eqb (trash_can c) t)
  = true <-> room_of user code c /\ trash_can c = t.
Proof.
  unfold room_of, code_is. rewrite !andb_true_iff, Z.eqb_eq.
  destruct (stock_code c) as [s |], (trash_can c), t; simpl;
    try rewrite String.eqb_eq; intuition congruence.
Qed.

Lemma select_room_false user code t c :
  ~ (room_of user code c /\ trash_can c = t) ->
  ((user_id c =? user)%Z && code_is code c && TrashEnum_eqb (trash_can c) t)
  = false.
Proof.
  intro H. apply not_true_is_false. rewrite select_room. exact H.
Qed.

Lemma no_conflict rows c user code :
  room_of user code c ->
  (forall c', In c' rows -> room_of user code c' -> trash_can c' = out ->
              chat_id c' = chat_id c) ->
  conflicts rows c = false.
Proof.
  intros [Hu Hc] Hrows. unfold conflicts. rewrite Hc.
  destruct (trash_can c); [reflexivity |].
  apply not_true_is_false. intro H. apply existsb_exists in H.
  destruct H as (c' & Hin & Hsel).
  rewrite <- !andb_assoc in Hsel. apply andb_prop in Hsel as [Hid Hsel].
  rewrite Hu in Hsel. rewrite andb_assoc in Hsel.
  apply select_room in Hsel as [Hroom Hout].
  rewrite (Hrows c' Hin Hroom Hout), Z.eqb_refl in Hid. discriminate.
Qed.

Lemma next_id_fresh ids x : In x ids -> (x < next_id ids)%Z.
Proof.
  unfold next_id. induction ids as [| y ids IH]; [contradiction |].
  simpl. intros [-> | Hin]; [lia |]. specialize (IH Hin). lia.
Qed.

Lemma replace_chat_in c rows old :
  In old rows -> chat_id old = chat_id c -> In c (replace_chat c rows).
Proof.
  intros Hin Hid. unfold replace_chat. apply in_map_iff.
  exists old. split; [| exact Hin]. rewrite Hid, Z.eqb_refl. reflexivity.
Qed.

Lemma in_replace_chat c rows x :
  In x (replace_chat c rows) ->
  x = c \/ (In x rows /\ chat_id x <> chat_id c).
Proof.
  unfold replace_chat. intro H. apply in_map_iff in H as (y & Hy & Hin).
  destruct (chat_id y =? chat_id c)%Z eqn:E.
  - left. congruence.
  - right. subst x. apply Z.eqb_neq in E. auto.
Qed.

Lemma chosen_title_restore new_title fallback :
  (if nonempty new_title
   then text_or (option_map strip new_title) fallback
   else fallback) = chosen_title new_title fallback.
Proof.
  destruct new_title as [[| c t] |]; reflexivity.
Qed.

Lemma chosen_title_create new_title fallback :
  text_or (if nonempty new_title then option_map strip new_title else None)
          fallback = chosen_title new_title fallback.
Proof.
  destruct new_title as [[| c t] |]; reflexivity.
Qed.

(** *** The lookups by stock code *)

(** C3 (code on the failing inputs).  The room the get-room-by-stock query
    returns is a room of the user and the code that is in the trash; and
    when the user has a room in the trash for the code, room creation
    returns a trashed room as the existing one and creates nothing.  Only
    the lookup of [upsert_chat_by_stock] returns rooms out of the trash. *)
Theorem stock_lookups_return_trashed_rooms (db : DB) (current_user : Z)
    (code : string) :
  (forall chat, get_chat_room_by_stock_for_user db current_user code = Ok chat ->
                In chat (chats db) /\ room_of current_user code chat
                /\ trash_can chat = in_)
  /\ (forall t, code <> "" ->
        (exists c, In c (chats db) /\ room_of current_user code c
                   /\ trash_can c = in_) ->
        exists chat,
          create_chat_room_for_user db current_user
            {| create_title := t; create_stock_code := Some code |}
          = (Ok chat, db)
          /\ In chat (chats db) /\ room_of current_user code chat
          /\ trash_can chat = in_)
  /\ (forall chat, get_active_chat_by_stock db current_user code = Some chat ->
                   In chat (chats db) /\ room_of current_user code chat
                   /\ trash_can chat = out).
Proof.
  refine (conj _ (conj _ _)).
  - intros chat. unfold get_chat_room_by_stock_for_user.
    destruct (first _) as [c |] eqn:E; [| discriminate].
    intros [= <-]. apply first_filter_some in E as [Hin Hsel].
    apply select_room in Hsel. tauto.
  - intros t Hcode (c & Hin & Hroom & Htrash).
    unfold create_chat_room_for_user. cbn [create_stock_code].
    destruct (is_empty code) eqn:Ee;
      [destruct code; [congruence | discriminate] |].
    destruct (first_filter_exists
                (fun c => (user_id c =? current_user)%Z && code_is code c
                          && TrashEnum_eqb (trash_can c) in_)
                (chats db) c Hin
                (proj2 (select_room current_user code in_ c)
                       (conj Hroom Htrash))) as [y Hy].
    rewrite Hy. exists y. split; [reflexivity |].
    apply first_filter_some in Hy as [Hyin Hsel].
    apply select_room in Hsel. tauto.
  - intros chat. unfold get_active_chat_by_stock. intro E.
    apply first_filter_some in E as [Hin Hsel].
    apply select_room in Hsel. tauto.
Qed.

(** On the database whose only room is in the trash, both lookups hand
    out the trashed room. *)
Lemma stock_lookups_return_trashed_rooms_witness :
  (exists chat,
      get_chat_room_by_stock_for_user trashed_room_only 1 "AAPL" = Ok chat
      /\ trash_can chat = in_)
  /\ (exists chat,
        create_chat_room_for_user trashed_room_only 1
          {| create_title := "new room"; create_stock_code := Some "AAPL" |}
        = (Ok chat, trashed_room_only)
        /\ trash_can chat = in_).
Proof.
  destruct (stock_lookups_return_trashed_rooms trashed_room_only 1 "AAPL")
    as (Hget & Hcreate & _).
  split.
  - exists (room 1 1 "AAPL" in_). split; [reflexivity |].
    apply (Hget (room 1 1 "AAPL" in_)). reflexivity.
  - destruct (Hcreate "new room") as (chat & Hrun & _ & _ & Htrash).
    + discriminate.
    + exists (room 1 1 "AAPL" in_). simpl. unfold room_of. auto.
    + exists chat. auto.
Defined.

(** *** The three cases of [upsert_chat_by_stock] *)

Lemma upsert_active db user code new_title :
  (exists c, In c (chats db) /\ room_of user code c /\ trash_can c = out) ->
  exists c, In c (chats db) /\ room_of user code c /\ trash_can c = out
            /\ upsert_chat_by_stock alone db user code new_title
               = (Ok (c, true), db).
Proof.
  intros (c & Hin & Hroom & Hout).
  destruct (first_filter_exists
              (fun c => (user_id c =? user)%Z && code_is code c
                        && TrashEnum_eqb (trash_can c) out)
              (chats db) c Hin (proj2 (select_room user code out c)
                                      (conj Hroom Hout))) as [y Hy].
  exists y. unfold upsert_chat_by_stock, get_active_chat_by_stock.
  rewrite Hy. apply first_filter_some in Hy as [Hyin Hsel].
  apply select_room in Hsel. tauto.
Qed.

Lemma no_active_lookup db user code :
  (forall c, In c (chats db) -> room_of user code c -> trash_can c = in_) ->
  get_active_chat_by_stock db user code = None.
Proof.
  intro Htrashed. unfold get_active_chat_by_stock.
  rewrite filter_none; [reflexivity |].
  intros c Hc. apply select_room_false. intros [Hroom Hout].
  rewrite (Htrashed c Hc Hroom) in Hout. discriminate.
Qed.

Lemma upsert_trashed db user code new_title :
  (forall c, In c (chats db) -> room_of user code c -> trash_can c = in_) ->
  (exists c, In c (chats db) /\ room_of user code c) ->
  exists old restored db',
    In old (chats db) /\ room_of user code old
    /\ (forall c, In c (chats db) -> room_of user code c ->
                  (chat_id c <= chat_id old)%Z)
    /\ upsert_chat_by_stock alone db user code new_title
       = (Ok (restored, false), db')
    /\ chat_id restored = chat_id old /\ room_of user code restored
    /\ trash_can restored = out
    /\ title restored = chosen_title new_title (title old)
    /\ In restored (chats db').
Proof.
  intros Htrashed (c & Hin & Hroom).
  unfold upsert_chat_by_stock. rewrite (no_active_lookup db user code Htrashed).
  set (sel := fun c => (user_id c =? user)%Z && code_is code c
                       && TrashEnum_eqb (trash_can c) in_).
  pose proof (first_order_by_desc chat_id (filter sel (chats db))) as Hfirst.
  destruct (first (order_by_desc chat_id (filter sel (chats db))))
    as [old |].
  - destruct Hfirst as [Hold Hmax].
    apply filter_In in Hold as [Holdin Hsel]. apply select_room in Hsel.
    destruct Hsel as [Holdroom Holdtrash].
    unfold alone. rewrite chosen_title_restore.
    set (restored := {| chat_id := chat_id old; user_id := user_id old;
                        title := chosen_title new_title (title old);
                        stock_code := stock_code old; trash_can := out;
                        lastchat_at := lastchat_at old |}).
    assert (Hrestored : room_of user code restored) by exact Holdroom.
    unfold commit_chat_update.
    rewrite (no_conflict (chats db) restored user code Hrestored).
    + exists old, restored. eexists. repeat split; try assumption; try apply Holdroom.
      * intros c' Hc' Hroom'. apply Hmax. apply filter_In. split; [exact Hc' |].
        apply select_room. split; [exact Hroom' | auto].
      * cbn [chats]. apply replace_chat_in with (old := old); auto.
    + intros c' Hc' Hroom' Hout. rewrite (Htrashed c' Hc' Hroom') in Hout.
      discriminate.
  - exfalso.
    assert (Hsel : In c (filter sel (chats db))).
    { apply filter_In. split; [exact Hin |]. apply select_room. auto. }
    rewrite Hfirst in Hsel. contradiction.
Qed.

Lemma upsert_created db user code new_title :
  (forall c, In c (chats db) -> ~ room_of user code c) ->
  exists created db',
    upsert_chat_by_stock alone db user code new_title
    = (Ok (created, false), db')
    /\ room_of user code created /\ trash_can created = out
    /\ title created = chosen_title new_title (code ++ " 채팅")
    /\ (forall c, In c (chats db) -> (chat_id c < chat_id created)%Z)
    /\ chats db' = (chats db ++ [created])%list.
Proof.
  intro Hnone.
  unfold upsert_chat_by_stock.
  rewrite (no_active_lookup db user code)
    by (intros c Hc Hroom; destruct (Hnone c Hc Hroom)).
  rewrite filter_none
    by (intros c Hc; apply select_room_false; intros [Hroom _];
        exact (Hnone c Hc Hroom)).
  cbn [order_by_desc order_by_asc fold_right first head].
  unfold alone. rewrite chosen_title_create.
  set (created := {| chat_id := next_id (map chat_id (chats db));
                     user_id := user;
                     title := chosen_title new_title (code ++ " 채팅");
                     stock_code := Some code; trash_can := out;
                     lastchat_at := now db |}).
  assert (Hcreated : room_of user code created) by (split; reflexivity).
  unfold commit_chat_insert.
  rewrite (no_conflict (chats db) created user code Hcreated)
    by (intros c Hc Hroom; destruct (Hnone c Hc Hroom)).
  exists created. eexists. repeat split.
  intros c Hc. apply next_id_fresh. apply in_map. exact Hc.
Qed.

(** *** Trashing a room *)

Lemma same_id_same_row (rows : list Chat) (a b : Chat) :
  NoDup (map chat_id rows) -> In a rows -> In b rows ->
  chat_id a = chat_id b -> a = b.
Proof.
  induction rows as [| x rows IH]; [contradiction |].
  cbn [map]. intro Hnd. apply NoDup_cons_iff in Hnd as [Hnotin Hnd].
  intros [<- | Ha] [<- | Hb] Hid; auto.
  - exfalso. apply Hnotin. rewrite Hid. apply in_map. exact Hb.
  - exfalso. apply Hnotin. rewrite <- Hid. apply in_map. exact Ha.
Qed.

Lemma trash_own_room db user r :
  In r (chats db) -> NoDup (map chat_id (chats db)) -> user_id r = user ->
  let trashed := {| chat_id := chat_id r; user_id := user_id r;
                    title := title r; stock_code := stock_code r;
                    trash_can := in_; lastchat_at := lastchat_at r |} in
  update_chat_room_for_user db (chat_id r) user to_trash
  = (Ok trashed,
     {| chats := replace_chat trashed (chats db);
        messages := messages db; now := (now db + 1)%Z |}).
Proof.
  intros Hin Hnd Huser trashed. unfold update_chat_room_for_user.
  set (sel := fun c => (chat_id c =? chat_id r)%Z && (user_id c =? user)%Z).
  assert (Hr : sel r = true)
    by (unfold sel; rewrite Huser, !Z.eqb_refl; reflexivity).
  destruct (first_filter_exists sel (chats db) r Hin Hr) as [y Hy].
  rewrite Hy. apply first_filter_some in Hy as [Hyin Hysel].
  unfold sel in Hysel. apply andb_prop in Hysel as [Hid _].
  apply Z.eqb_eq in Hid.
  rewrite (same_id_same_row (chats db) y r Hnd Hyin Hin Hid).
  unfold to_trash. cbn [update_title update_trash_can bind fst].
  change (parse_trash "in") with (Some in_). cbn iota.
  unfold commit_chat_update, conflicts. cbn [stock_code trash_can].
  destruct (stock_code r); reflexivity.
Qed.

Lemma upsert_after_trash db user code new_title r :
  In r (chats db) -> NoDup (map chat_id (chats db)) -> room_of user code r ->
  (forall c, In c (chats db) -> room_of user code c ->
             c = r \/ (trash_can c = in_ /\ (chat_id c < chat_id r)%Z)) ->
  exists trashed db1 restored db2,
    update_chat_room_for_user db (chat_id r) user to_trash = (Ok trashed, db1)
    /\ chat_id trashed = chat_id r /\ trash_can trashed = in_
    /\ upsert_chat_by_stock alone db1 user code new_title
       = (Ok (restored, false), db2)
    /\ chat_id restored = chat_id r /\ trash_can restored = out.
Proof.
  intros Hin Hnd Hroom Hothers.
  pose proof (trash_own_room db user r Hin Hnd (proj1 Hroom)) as Htrash.
  cbv zeta in Htrash.
  set (trashed := {| chat_id := chat_id r; user_id := user_id r;
                     title := title r; stock_code := stock_code r;
                     trash_can := in_; lastchat_at := lastchat_at r |}) in *.
  set (db1 := {| chats := replace_chat trashed (chats db);
                 messages := messages db; now := (now db + 1)%Z |}) in *.
  assert (Hrows : forall c, In c (chats db1) -> room_of user code c ->
                    c = trashed
                    \/ (trash_can c = in_ /\ (chat_id c < chat_id r)%Z)).
  { intros c Hc Hcroom. apply in_replace_chat in Hc as [-> | [Hc Hid]]; auto.
    destruct (Hothers c Hc Hcroom) as [-> | H]; [| auto].
    exfalso. apply Hid. reflexivity. }
  assert (Htrashed_in : In trashed (chats db1))
    by (apply replace_chat_in with (old := r); auto).
  assert (Htrashed_room : room_of user code trashed) by exact Hroom.
  destruct (upsert_trashed db1 user code new_title) as
      (old & restored & db2 & Hold & Holdroom & Hmax & Hrun & Hid & _ & Hout & _).
  { intros c Hc Hcroom. destruct (Hrows c Hc Hcroom) as [-> | [H _]]; auto. }
  { exists trashed. auto. }
  exists trashed, db1, restored, db2.
  repeat split; auto.
  rewrite Hid.
  destruct (Hrows old Hold Holdroom) as [-> | [_ Hlt]]; [reflexivity |].
  specialize (Hmax trashed Htrashed_in Htrashed_room). simpl in Hmax. lia.
Qed.

(** Where a user has at most one room for a stock code, trashing the room
    and asking for the code again gives the room back under its id. *)
Lemma upsert_after_trash_unique db user code new_title r :
  one_room_per_stock db -> NoDup (map chat_id (chats db)) ->
  In r (chats db) -> room_of user code r ->
  exists trashed db1 restored db2,
    update_chat_room_for_user db (chat_id r) user to_trash = (Ok trashed, db1)
    /\ chat_id trashed = chat_id r /\ trash_can trashed = in_
    /\ upsert_chat_by_stock alone db1 user code new_title
       = (Ok (restored, false), db2)
    /\ chat_id restored = chat_id r /\ trash_can restored = out.
Proof.
  intros Hone Hnd Hin Hroom.
  apply upsert_after_trash; auto.
  intros c Hc Hcroom. left. exact (Hone user code c r Hc Hin Hcroom Hroom).
Qed.

(** C9 (counterexample).  User 1 has the active room 3 and the newer room 5,
    in the trash, for one code; no write of either is refused and the ids are
    distinct.  Room 3 is trashed; the next call restores room 5, not room
    3. *)
Lemma trash_then_upsert_restores_newer_room :
  (forall c, In c (chats newer_room_trashed) ->
             conflicts (chats newer_room_trashed) c = false)
  /\ NoDup (map chat_id (chats newer_room_trashed))
  /\ exists trashed db1 restored db2,
       update_chat_room_for_user newer_room_trashed 3 1 to_trash
       = (Ok trashed, db1)
       /\ chat_id trashed = 3%Z /\ trash_can trashed = in_
       /\ upsert_chat_by_stock alone db1 1 "AAPL" None
          = (Ok (restored, false), db2)
       /\ chat_id restored = 5%Z /\ trash_can restored = out.
Proof.
  split; [intros c [<- | [<- | []]]; reflexivity |].
  split; [repeat constructor; simpl; intuition discriminate |].
  do 4 eexists.
  split; [vm_compute; reflexivity |].
  split; [reflexivity |]. split; [reflexivity |].
  split; [vm_compute; reflexivity |].
  split; reflexivity.
Qed.

(** C9 (amended).  The case analysis of [upsert_chat_by_stock] for a request
    that runs alone.  If the user has an active room for the code, such a room
    is returned with the flag true and nothing is written.  Otherwise, if
    the user has rooms for the code, all in the trash, the one with the
    greatest id is restored: it is returned out of the trash under the same
    id, its title replaced by the new title when one is given, with the flag
    false.  Otherwise a new active room is created, with the placeholder
    title when no title is given, and returned with the flag false.  And
    when a room is trashed that is the newest room of the user for the code,
    every other one being in the trash, the next call returns the same room
    id, restored, with the flag false. *)
Theorem upsert_chat_by_stock_cases
    (db : DB) (user : Z) (code : string) (new_title : option string) :
  let run := upsert_chat_by_stock alone db user code new_title in
  ((exists c, In c (chats db) /\ room_of user code c /\ trash_can c = out) ->
   exists c, In c (chats db) /\ room_of user code c /\ trash_can c = out
             /\ run = (Ok (c, true), db))
  /\ ((forall c, In c (chats db) -> room_of user code c -> trash_can c = in_) ->
      (exists c, In c (chats db) /\ room_of user code c) ->
      exists old restored db',
        In old (chats db) /\ room_of user code old
        /\ (forall c, In c (chats db) -> room_of user code c ->
                      (chat_id c <= chat_id old)%Z)
        /\ run = (Ok (restored, false), db')
        /\ chat_id restored = chat_id old /\ room_of user code restored
        /\ trash_can restored = out
        /\ title restored = chosen_title new_title (title old)
        /\ In restored (chats db'))
  /\ ((forall c, In c (chats db) -> ~ room_of user code c) ->
      exists created db',
        run = (Ok (created, false), db')
        /\ room_of user code created /\ trash_can created = out
        /\ title created = chosen_title new_title (code ++ " 채팅")
        /\ (forall c, In c (chats db) -> (chat_id c < chat_id created)%Z)
        /\ chats db' = (chats db ++ [created])%list)
  /\ (forall r,
        In r (chats db) -> NoDup (map chat_id (chats db)) ->
        room_of user code r ->
        (forall c, In c (chats db) -> room_of user code c ->
                   c = r \/ (trash_can c = in_ /\ (chat_id c < chat_id r)%Z)) ->
        exists trashed db1 restored db2,
          update_chat_room_for_user db (chat_id r) user to_trash
          = (Ok trashed, db1)
          /\ chat_id trashed = chat_id r /\ trash_can trashed = in_
          /\ upsert_chat_by_stock alone db1 user code new_title
             = (Ok (restored, false), db2)
          /\ chat_id restored = chat_id r /\ trash_can restored = out).
Proof.
  intro run. subst run.
  split; [apply upsert_active |].
  split; [apply upsert_trashed |].
  split; [apply upsert_created |].
  intros r. apply upsert_after_trash.
Qed.

(** The four cases on the databases of the scenarios: user 1 has an active
    room; user 1 has only a trashed room; user 3 has no room; user 1 trashes
    room 1 and asks again. *)
Lemma upsert_chat_by_stock_cases_witness :
  (exists c, upsert_chat_by_stock alone two_rooms 1 "AAPL" None
             = (Ok (c, true), two_rooms))
  /\ (exists restored db',
        upsert_chat_by_stock alone trashed_room_only 1 "AAPL" None
        = (Ok (restored, false), db')
        /\ trash_can restored = out)
  /\ (exists created db',
        upsert_chat_by_stock alone two_rooms 3 "AAPL" None
        = (Ok (created, false), db')
        /\ title created = "AAPL 채팅")
  /\ (exists trashed db1 restored db2,
        update_chat_room_for_user two_rooms 1 1 to_trash = (Ok trashed, db1)
        /\ upsert_chat_by_stock alone db1 1 "AAPL" None
           = (Ok (restored, false), db2)
        /\ chat_id restored = 1%Z).
Proof.
  refine (conj _ (conj _ (conj _ _))).
  - destruct (proj1 (upsert_chat_by_stock_cases two_rooms 1 "AAPL" None))
      as (c & _ & _ & _ & Hrun).
    + exists (room 1 1 "AAPL" out). simpl. unfold room_of. auto.
    + exists c. exact Hrun.
  - destruct (proj1 (proj2 (upsert_chat_by_stock_cases
                              trashed_room_only 1 "AAPL" None)))
      as (old & restored & db' & _ & _ & _ & Hrun & _ & _ & Hout & _).
    + intros c [<- | []] _. reflexivity.
    + exists (room 1 1 "AAPL" in_). simpl. unfold room_of. auto.
    + exists restored, db'. auto.
  - destruct (proj1 (proj2 (proj2 (upsert_chat_by_stock_cases
                                     two_rooms 3 "AAPL" None))))
      as (created & db' & Hrun & _ & _ & Htitle & _).
    + intros c [<- | [<- | []]] [Huser _]; discriminate.
    + exists created, db'. auto.
  - destruct (proj2 (proj2 (proj2 (upsert_chat_by_stock_cases
                                     two_rooms 1 "AAPL" None)))
                (room 1 1 "AAPL" out))
      as (trashed & db1 & restored & db2 & Htrash & _ & _ & Hrun & Hid & _).
    + simpl. auto.
    + simpl. repeat constructor; simpl; intuition discriminate.
    + unfold room_of. auto.
    + intros c [<- | [<- | []]] [Huser _]; [auto | discriminate].
    + exists trashed, db1, restored, db2. auto.
Defined.

(** ** Stock codes *)

(** Case analysis on the eight bits of a character. *)
Ltac each_char c :=
  destruct c as [[] [] [] [] [] [] [] []]; vm_compute; auto.

Lemma upper_keeps_nonspace c :
  py_isspace c = false -> py_isspace (py_upper_char c) = false.
Proof. each_char c. Qed.


Lemma normalized_whitespace_free raw :
  whitespace_free (upper (remove_whitespace raw)) = true.
Proof.
  induction raw as [| c raw IH]; [reflexivity |].
  simpl. destruct (py_isspace c) eqn:E; [exact IH |].
  unfold whitespace_free, upper in *. simpl.
  rewrite (upper_keeps_nonspace c E). exact IH.
Qed.






(** * Further properties

    Of the dispatcher and the normalizer, of the history and the news
    summary, of the stored messages, and of the rooms. *)

(** ** Protocol selection *)









(** ** The calls of a run *)

Lemma retry_tokens_larger cfg cap retry_cap :
  (cap < _OPENAI_RESPONSES_MAX_OUTPUT_TOKENS cfg)%Z ->
  retry_tokens cfg cap = Ok retry_cap ->
  (cap < retry_cap <= _OPENAI_RESPONSES_MAX_OUTPUT_TOKENS cfg)%Z.
Proof.
  unfold retry_tokens. intro Hlt.
  destruct (int_times_1_5 cap) as [scaled | e]; [| discriminate].
  intros [= <-]. lia.
Qed.

Lemma clamp_above_floor cfg max_tokens :
  (_OPENAI_RESPONSES_MIN_OUTPUT_TOKENS cfg
   <= _OPENAI_RESPONSES_MAX_OUTPUT_TOKENS cfg)%Z ->
  (_OPENAI_RESPONSES_MIN_OUTPUT_TOKENS cfg
   <= clamp_output_tokens cfg max_tokens)%Z.
Proof. unfold clamp_output_tokens. lia. Qed.

(** The calls a structured run can issue: the first call alone, or the
    first call and one retry with a larger cap. *)
Lemma structured_calls cfg depth h client messages model temperature max_tokens :
  _should_use_responses_api model = true ->
  let call tokens :=
    ResponsesCreate {| rq_model := model;
                       rq_input := _format_messages_for_responses messages;
                       rq_max_output_tokens := tokens |} in
  let cap := clamp_output_tokens cfg max_tokens in
  let calls := snd (_call_openai_chat cfg depth h (Ready client) messages model
                      temperature max_tokens) in
  calls = [call cap]
  \/ ((cap < _OPENAI_RESPONSES_MAX_OUTPUT_TOKENS cfg)%Z
      /\ exists retry_cap,
           retry_tokens cfg cap = Ok retry_cap
           /\ calls = [call cap; call retry_cap]).
Proof.
  intros Hmodel call cap calls. subst calls.
  unfold _call_openai_chat. cbn [_get_openai_client]. rewrite Hmodel.
  fold cap.
  destruct (responses_create client 0 _) as [resp | e]; [| left; reflexivity].
  destruct (responses_done_line depth h resp cap) as [line | e];
    cbn [bind]; [| left; reflexivity].
  destruct (_get_incomplete_reason depth h resp) as [reason | e];
    [| left; reflexivity].
  destruct (match reason with
            | Some r => String.eqb r "max_output_tokens"
            | None => false
            end) ; cbn [andb]; [| left; reflexivity].
  destruct (cap <? _OPENAI_RESPONSES_MAX_OUTPUT_TOKENS cfg)%Z eqn:Hlt;
    [| left; reflexivity].
  apply Z.ltb_lt in Hlt.
  destruct (retry_tokens cfg cap) as [retry_cap | e]; [| left; reflexivity].
  right. split; [exact Hlt |]. exists retry_cap. split; [reflexivity |].
  destruct (responses_create client 1 _); reflexivity.
Qed.

(** X2.  A run issues no provider call when no client can be built, and
    fails with a 500; under the legacy protocol it issues exactly one call,
    with the messages, temperature and token cap it was given; under the
    structured protocol it issues one or two calls on the reshaped messages,
    with strictly increasing caps that never exceed the ceiling and, where
    the configured floor is not above the ceiling, never fall below the
    floor. *)
Theorem call_discipline
    (cfg : Settings) (depth : nat) (h : heap) (sdk : sdk_state)
    (messages : list oai_message) (model : string)
    (temperature : QArith_base.Q) (max_tokens : Z) :
  let run := _call_openai_chat cfg depth h sdk messages model temperature
               max_tokens in
  let floor := _OPENAI_RESPONSES_MIN_OUTPUT_TOKENS cfg in
  let ceiling := _OPENAI_RESPONSES_MAX_OUTPUT_TOKENS cfg in
  match sdk with
  | Ready client =>
      if _should_use_responses_api model then
        (exists caps,
            snd run
            = map (fun tokens =>
                     ResponsesCreate
                       {| rq_model := model;
                          rq_input := _format_messages_for_responses messages;
                          rq_max_output_tokens := tokens |}) caps
            /\ (1 <= List.length caps <= 2)%nat
            /\ (forall a b rest, caps = a :: b :: rest -> (a < b)%Z)
            /\ Forall (fun tokens => (tokens <= ceiling)%Z) caps
            /\ ((floor <= ceiling)%Z ->
                Forall (fun tokens => (floor <= tokens)%Z) caps))
      else
        snd run
        = [ChatCompletionsCreate
             {| cq_model := model; cq_messages := messages;
                cq_temperature := temperature; cq_max_tokens := max_tokens |}]
  | _ =>
      snd run = []
      /\ exists detail,
           fst run = Raise (HTTPException HTTP_500_INTERNAL_SERVER_ERROR detail)
  end.
Proof.
  intros run floor ceiling. subst run.
  destruct sdk as [| e | client].
  - split; [reflexivity | eexists; reflexivity].
  - split; [reflexivity | eexists; reflexivity].
  - destruct (_should_use_responses_api model) eqn:Hmodel.
    + pose proof (clamp_below_ceiling cfg max_tokens) as Hle.
      pose proof (clamp_above_floor cfg max_tokens) as Hge.
      destruct (structured_calls cfg depth h client messages model temperature
                  max_tokens Hmodel)
        as [-> | (Hlt & retry_cap & Hcap & ->)].
      * exists [clamp_output_tokens cfg max_tokens].
        split; [reflexivity |]. split; [simpl; lia |].
        split; [intros a b rest [=] |].
        split; [repeat constructor; exact Hle |].
        intro Hband. repeat constructor. auto.
      * pose proof (retry_tokens_larger cfg _ _ Hlt Hcap) as [Hup Htop].
        exists [clamp_output_tokens cfg max_tokens; retry_cap].
        split; [reflexivity |]. split; [simpl; lia |].
        split; [intros a b rest [= <- <- _]; exact Hup |].
        split; [repeat constructor; [exact Hle | exact Htop] |].
        intro Hband. specialize (Hge Hband). unfold floor in *.
        repeat constructor; lia.
    + unfold _call_openai_chat. cbn [_get_openai_client]. rewrite Hmodel.
      destruct (chat_completions_create client _); reflexivity.
Qed.

(** ** What a run returns *)

Lemma fallback_not_empty : _ASSISTANT_FALLBACK_MESSAGE <> "".
Proof. discriminate. Qed.

Lemma is_empty_false s : is_empty s = false -> s <> "".
Proof. destruct s; [discriminate | discriminate]. Qed.

Lemma gateway_handlers_not_empty r text :
  (forall t, r = Ok t -> t <> "") ->
  gateway_handlers r = Ok text -> text <> "".
Proof.
  intros Hr. unfold gateway_handlers.
  destruct r as [t | [sc d | | | | | | | |]]; try discriminate.
  - intros [= <-]. auto.
  - destruct (_is_empty_openai_http_error sc d); [| discriminate].
    intros [= <-]. apply fallback_not_empty.
Qed.

Lemma responses_text_not_empty depth h resp t :
  responses_text depth h resp = Ok t -> t <> "".
Proof.
  unfold responses_text.
  destruct (_extract_text_from_responses depth h resp)
    as [text | [sc d | | | | | | | |]]; try discriminate.
  - destruct (is_empty text) eqn:E; intros [= <-];
      [apply fallback_not_empty | apply is_empty_false; exact E].
  - destruct (_is_empty_openai_http_error sc d); [| discriminate].
    intros [= <-]. apply fallback_not_empty.
Qed.

(** X3.  Whatever text [_call_openai_chat] returns is not empty. *)
Theorem generated_text_not_empty
    (cfg : Settings) (depth : nat) (h : heap) (sdk : sdk_state)
    (messages : list oai_message) (model : string)
    (temperature : QArith_base.Q) (max_tokens : Z) (text : string) :
  fst (_call_openai_chat cfg depth h sdk messages model temperature max_tokens)
  = Ok text ->
  text <> "".
Proof.
  unfold _call_openai_chat.
  destruct (_get_openai_client sdk) as [client | e]; [| discriminate].
  destruct (_should_use_responses_api model).
  - destruct (responses_create client 0 _) as [resp | e];
      [| apply gateway_handlers_not_empty; discriminate].
    destruct (responses_done_line depth h resp _) as [line | e];
      cbn [bind]; [| apply gateway_handlers_not_empty; discriminate].
    destruct (_get_incomplete_reason depth h resp) as [reason | e];
      [| apply gateway_handlers_not_empty; discriminate].
    destruct (_ && _).
    + destruct (retry_tokens cfg _) as [retry_cap | e];
        [| apply gateway_handlers_not_empty; discriminate].
      destruct (responses_create client 1 _) as [resp' | e];
        [| apply gateway_handlers_not_empty; discriminate].
      cbn [fst]. apply gateway_handlers_not_empty.
      destruct (responses_retry_line depth h resp'); cbn [bind];
        [| discriminate].
      intro t. apply responses_text_not_empty.
    + cbn [fst]. apply gateway_handlers_not_empty.
      intro t. apply responses_text_not_empty.
  - destruct (chat_completions_create client _) as [resp | e];
      cbn [fst]; apply gateway_handlers_not_empty; [| discriminate].
    destruct (chat_done_line depth h resp); cbn [bind]; [| discriminate].
    destruct (chat_content depth h resp) as [[content |] | e]; cbn [bind];
      try discriminate.
    + destruct (is_empty content) eqn:E; intros t [= <-];
        [apply fallback_not_empty | apply is_empty_false; exact E].
    + intros t [= <-]. apply fallback_not_empty.
Qed.

Lemma generated_text_not_empty_witness :
  fst (_call_openai_chat default_settings 100 payloads
         (Ready (scripted_client 6 6)) [] "gpt-5-mini"
         (QArith_base.Qmake 1 5) 512) = Ok "Hello"
  /\ "Hello" <> "".
Proof.
  assert (Hrun : fst (_call_openai_chat default_settings 100 payloads
                        (Ready (scripted_client 6 6)) [] "gpt-5-mini"
                        (QArith_base.Qmake 1 5) 512) = Ok "Hello")
    by (vm_compute; reflexivity).
  split; [exact Hrun |].
  exact (generated_text_not_empty _ _ _ _ _ _ _ _ _ Hrun).
Defined.

(** X4.  When the first provider call raises anything but an HTTP
    exception, the run ends in a 502 whose detail carries the text of the
    exception, after that single call: a failed call is not retried. *)
Theorem transport_failure_is_502
    (cfg : Settings) (depth : nat) (h : heap) (client : OpenAI)
    (messages : list oai_message) (model : string)
    (temperature : QArith_base.Q) (max_tokens : Z) (e : exn) :
  let first_call :=
    if _should_use_responses_api model then
      ResponsesCreate
        {| rq_model := model;
           rq_input := _format_messages_for_responses messages;
           rq_max_output_tokens := clamp_output_tokens cfg max_tokens |}
    else
      ChatCompletionsCreate
        {| cq_model := model; cq_messages := messages;
           cq_temperature := temperature; cq_max_tokens := max_tokens |} in
  (forall status_code detail, e <> HTTPException status_code detail) ->
  answers client [first_call] = [Raise e] ->
  _call_openai_chat cfg depth h (Ready client) messages model temperature
    max_tokens
  = (Raise (HTTPException HTTP_502_BAD_GATEWAY
              ("OpenAI chat completion failed: " ++ exn_str e)),
     [first_call]).
Proof.
  intros first_call Hkind Hanswer. subst first_call.
  unfold _call_openai_chat. cbn [_get_openai_client].
  unfold answers in Hanswer.
  destruct (_should_use_responses_api model); cbn [answers_from] in Hanswer;
    injection Hanswer as Hanswer; rewrite Hanswer;
    destruct e; try reflexivity; exfalso; eapply Hkind; reflexivity.
Qed.

Lemma transport_failure_is_502_witness :
  _call_openai_chat default_settings 100 payloads
    (Ready {| responses_create := fun _ _ => Raise (OtherError "connection reset");
              chat_completions_create := fun _ => Raise (OtherError "connection reset") |})
    [] "gpt-4o" (QArith_base.Qmake 1 5) 512
  = (Raise (HTTPException 502
              "OpenAI chat completion failed: connection reset"),
     [ChatCompletionsCreate
        {| cq_model := "gpt-4o"; cq_messages := [];
           cq_temperature := QArith_base.Qmake 1 5; cq_max_tokens := 512 |}]).
Proof.
  apply (transport_failure_is_502 default_settings 100 payloads
           {| responses_create := fun _ _ => Raise (OtherError "connection reset");
              chat_completions_create := fun _ => Raise (OtherError "connection reset") |}
           [] "gpt-4o" (QArith_base.Qmake 1 5) 512 (OtherError "connection reset")).
  - discriminate.
  - reflexivity.
Defined.

(** ** The exceptions of the dispatcher *)

Lemma bind_no_http {A B : Type} (m : result A) (k : A -> result B) :
  no_http_error m -> (forall a, no_http_error (k a)) -> no_http_error (bind m k).
Proof. destruct m as [a | e]; simpl; auto. Qed.

Lemma bind_at_most_empty {A B : Type} (m : result A) (k : A -> result B) :
  no_http_error m -> (forall a, at_most_empty_error (k a)) ->
  at_most_empty_error (bind m k).
Proof. destruct m as [a | [ | | | | | | | | ]]; simpl; auto; contradiction. Qed.

Lemma map_result_no_http {A B : Type} (f : A -> result B) (l : list A) :
  (forall x, no_http_error (f x)) -> no_http_error (map_result f l).
Proof.
  intro Hf. induction l as [| x l IH]; simpl; [exact I |].
  apply bind_no_http; [apply Hf |]. intro y.
  apply bind_no_http; [exact IH |]. intro ys. exact I.
Qed.

Lemma py_repr_no_http depth h :
  forall active v, no_http_error (py_repr depth h active v).
Proof.
  induction depth as [| d IH]; intros active v; [exact I |].
  destruct v; try exact I. simpl.
  destruct (h l) as [items | items | entries | attrs shown dump]; try exact I.
  - destruct (mem_loc l active); [exact I |].
    apply bind_no_http; [apply map_result_no_http; auto | intro; exact I].
  - destruct (mem_loc l active); [exact I |].
    apply bind_no_http; [apply map_result_no_http; auto | intro; exact I].
  - destruct (mem_loc l active); [exact I |].
    apply bind_no_http; [| intro; exact I].
    apply map_result_no_http. intros kv.
    apply bind_no_http; [apply IH | intro; exact I].
Qed.

Lemma py_str_no_http depth h v : no_http_error (py_str depth h v).
Proof. destruct v; try exact I; apply py_repr_no_http. Qed.

Lemma coerce_items_no_http f items :
  (forall x, no_http_error (f x)) -> no_http_error (coerce_items f items).
Proof.
  intro Hf. induction items as [| x l IH]; simpl; [exact I |].
  apply bind_no_http; [apply Hf |]. intro y.
  apply bind_no_http; [exact IH |]. intro ys. exact I.
Qed.

Lemma coerce_nested_no_http f h v keys :
  (forall x, no_http_error (f x)) -> no_http_error (coerce_nested f h v keys).
Proof.
  intro Hf. induction keys as [| key rest IH]; cbn [coerce_nested]; [exact I |].
  destruct (_get_from_obj h v key PyNone); try exact IH;
    (apply bind_no_http; [apply Hf |]; intro r;
     destruct (nonempty r); [exact I | exact IH]).
Qed.

Lemma coerce_no_http depth h :
  forall v, no_http_error (_coerce_text_value depth h v).
Proof.
  induction depth as [| d IH]; intro v; [exact I |].
  destruct v; try exact I. rewrite coerce_ref_eq.
  destruct (h l) as [items | items | entries | attrs shown dump].
  - apply bind_no_http; [apply coerce_items_no_http; exact IH | intro; exact I].
  - apply bind_no_http; [apply coerce_items_no_http; exact IH | intro; exact I].
  - apply bind_no_http; [apply coerce_nested_no_http; exact IH |].
    intros [r |]; [exact I |].
    apply bind_no_http; [apply py_str_no_http | intro; exact I].
  - apply bind_no_http; [apply coerce_nested_no_http; exact IH |].
    intros [r |]; [exact I |].
    apply bind_no_http; [apply py_str_no_http | intro; exact I].
Qed.

Lemma py_hashable_no_http h fuel : forall v, no_http_error (py_hashable h fuel v).
Proof.
  induction fuel as [| f IH]; intro v; [exact I |].
  destruct v; try exact I. simpl.
  destruct (h l); try exact I.
  apply bind_no_http; [apply map_result_no_http; exact IH | intro; exact I].
Qed.

Lemma in_str_set_no_http depth h v set : no_http_error (in_str_set depth h v set).
Proof.
  destruct v; try exact I;
    (apply bind_no_http; [apply py_hashable_no_http | intro; exact I]).
Qed.

Lemma scan_contents_no_http depth h contents :
  no_http_error (scan_contents depth h contents).
Proof.
  induction contents as [| c rest IH]; cbn [scan_contents]; [exact I |].
  apply bind_no_http; [apply in_str_set_no_http |]. intros [|]; [| exact IH].
  apply bind_no_http; [apply coerce_no_http |]. intro t.
  destruct (nonempty t); [exact I |].
  apply bind_no_http; [apply coerce_no_http |]. intro t'.
  destruct (nonempty t'); [exact I | exact IH].
Qed.

Lemma scan_outputs_no_http depth h outputs :
  no_http_error (scan_outputs depth h outputs).
Proof.
  induction outputs as [| o rest IH]; cbn [scan_outputs]; [exact I |].
  apply bind_no_http; [apply in_str_set_no_http |]. intros [|]; [| exact IH].
  apply bind_no_http; [apply scan_contents_no_http |].
  intros [t |]; [exact I | exact IH].
Qed.

Lemma extract_at_most_empty depth h resp :
  at_most_empty_error (_extract_text_from_responses depth h resp).
Proof.
  unfold _extract_text_from_responses.
  apply bind_at_most_empty; [apply scan_outputs_no_http |].
  intros [t |]; [exact I |].
  apply bind_at_most_empty; [apply coerce_no_http |].
  intros [t |]; [destruct (is_empty t) |]; simpl; auto.
Qed.

Lemma responses_text_no_http depth h resp :
  no_http_error (responses_text depth h resp).
Proof.
  unfold responses_text.
  pose proof (extract_at_most_empty depth h resp) as H.
  destruct (_extract_text_from_responses depth h resp)
    as [t | [sc d | | | | | | | |]]; try exact I.
  - destruct (is_empty t); exact I.
  - destruct H as [-> ->]. exact I.
Qed.

Lemma py_len_no_http h v : no_http_error (py_len h v).
Proof. destruct v; try exact I. simpl. destruct (h l); exact I. Qed.

Lemma output_count_no_http h resp : no_http_error (output_count h resp).
Proof.
  unfold output_count. destruct (truthy h _); [apply py_len_no_http | exact I].
Qed.

Lemma responses_done_line_no_http depth h resp tokens :
  no_http_error (responses_done_line depth h resp tokens).
Proof.
  unfold responses_done_line.
  apply bind_no_http; [apply output_count_no_http |]. intro n.
  apply bind_no_http; [apply py_str_no_http | intro; exact I].
Qed.

Lemma responses_retry_line_no_http depth h resp :
  no_http_error (responses_retry_line depth h resp).
Proof.
  unfold responses_retry_line.
  apply bind_no_http; [apply py_str_no_http |]. intro s.
  apply bind_no_http; [apply output_count_no_http | intro; exact I].
Qed.

Lemma get_incomplete_reason_no_http depth h resp :
  no_http_error (_get_incomplete_reason depth h resp).
Proof.
  unfold _get_incomplete_reason.
  destruct (negb _); [exact I |]. destruct (truthy h _); [| exact I].
  apply bind_no_http; [apply py_str_no_http | intro; exact I].
Qed.

Lemma py_getattr_no_http h obj name : no_http_error (py_getattr h obj name).
Proof.
  destruct obj; try exact I. simpl. destruct (h l); try exact I.
  destruct (lookup name attrs); exact I.
Qed.

Lemma py_first_no_http h v : no_http_error (py_first h v).
Proof.
  destruct v as [| | | | [| c s] | l]; try exact I. simpl.
  destruct (h l) as [[| x r] | [| x r] | |]; exact I.
Qed.

Lemma chat_done_line_no_http depth h resp :
  no_http_error (chat_done_line depth h resp).
Proof.
  unfold chat_done_line.
  apply bind_no_http; [apply py_getattr_no_http |]. intro choices.
  apply bind_no_http;
    [destruct (truthy h choices); [apply py_len_no_http | exact I] |].
  intro n. apply bind_no_http; [| intro; exact I].
  destruct (truthy h choices); [| exact I].
  apply bind_no_http; [apply py_first_no_http |]. intro first.
  apply py_str_no_http.
Qed.

Lemma chat_choice_no_http depth h choice :
  no_http_error (_extract_text_from_chat_choice depth h choice).
Proof.
  unfold _extract_text_from_chat_choice.
  destruct choice; try exact I;
    (apply bind_no_http; [apply coerce_no_http |]; intro t;
     destruct (nonempty t); [exact I |];
     apply bind_no_http; [apply coerce_no_http |]; intro t';
     destruct (nonempty t'); exact I).
Qed.

Lemma chat_content_no_http depth h resp :
  no_http_error (chat_content depth h resp).
Proof.
  unfold chat_content.
  apply bind_no_http; [apply py_getattr_no_http |]. intro choices.
  apply bind_no_http;
    [destruct (truthy h choices); [apply py_first_no_http | exact I] |].
  intro choice. apply chat_choice_no_http.
Qed.

Lemma retry_tokens_no_http cfg cap : no_http_error (retry_tokens cfg cap).
Proof.
  unfold retry_tokens.
  destruct (int_times_1_5 cap) as [scaled | e] eqn:E; [exact I |].
  destruct (int_times_1_5_raises cap e E) as [msg ->]. exact I.
Qed.

Lemma gateway_handlers_wraps r e :
  no_http_error r -> gateway_handlers r = Raise e ->
  exists text, r = Raise text
               /\ e = HTTPException HTTP_502_BAD_GATEWAY
                        ("OpenAI chat completion failed: " ++ exn_str text).
Proof.
  destruct r as [t | x]; [discriminate |].
  destruct x; simpl; try contradiction; intros _ [= <-]; eexists; eauto.
Qed.

(** X5.  The text extraction of the structured protocol raises no HTTP
    exception but its empty-response error, and the normalizer raises none:
    of what the service itself raises, only exceptions about the shape or
    depth of a payload reach the handlers of the dispatcher. *)
Theorem extraction_errors (depth : nat) (h : heap) (resp : pyval) :
  at_most_empty_error (_extract_text_from_responses depth h resp)
  /\ no_http_error (_extract_text_from_chat_choice depth h resp)
  /\ no_http_error (_coerce_text_value depth h resp).
Proof.
  split; [apply extract_at_most_empty |].
  split; [apply chat_choice_no_http | apply coerce_no_http].
Qed.

(** X6.  Provided the provider itself raises no HTTP exception, every
    failure of [_call_openai_chat] with a client at hand is a 502 whose
    detail begins with the words of the gateway failure: nothing else
    escapes the dispatcher. *)
Theorem failures_are_gateway_errors
    (cfg : Settings) (depth : nat) (h : heap) (client : OpenAI)
    (messages : list oai_message) (model : string)
    (temperature : QArith_base.Q) (max_tokens : Z) (e : exn) :
  (forall n rq, no_http_error (responses_create client n rq)) ->
  (forall rq, no_http_error (chat_completions_create client rq)) ->
  fst (_call_openai_chat cfg depth h (Ready client) messages model temperature
         max_tokens) = Raise e ->
  exists cause,
    e = HTTPException HTTP_502_BAD_GATEWAY
          ("OpenAI chat completion failed: " ++ exn_str cause).
Proof.
  intros Hresponses Hchat.
  unfold _call_openai_chat. cbn [_get_openai_client].
  assert (Hwrap : forall r, no_http_error r -> gateway_handlers r = Raise e ->
            exists cause,
              e = HTTPException HTTP_502_BAD_GATEWAY
                    ("OpenAI chat completion failed: " ++ exn_str cause)).
  { intros r Hr Hg. destruct (gateway_handlers_wraps r e Hr Hg) as (c & _ & ->).
    eauto. }
  destruct (_should_use_responses_api model).
  - pose proof (Hresponses 0%nat
                  {| rq_model := model;
                     rq_input := _format_messages_for_responses messages;
                     rq_max_output_tokens := clamp_output_tokens cfg max_tokens |})
      as H0.
    destruct (responses_create client 0 _) as [resp | x];
      [| cbn [fst]; apply Hwrap; exact H0].
    pose proof (responses_done_line_no_http depth h resp
                  (clamp_output_tokens cfg max_tokens)) as Hline.
    destruct (responses_done_line depth h resp _) as [line | x];
      cbn [bind]; [| cbn [fst]; apply Hwrap; exact Hline].
    pose proof (get_incomplete_reason_no_http depth h resp) as Hreason.
    destruct (_get_incomplete_reason depth h resp) as [reason | x];
      [| cbn [fst]; apply Hwrap; exact Hreason].
    destruct (_ && _).
    + pose proof (retry_tokens_no_http cfg (clamp_output_tokens cfg max_tokens))
        as Hcap.
      destruct (retry_tokens cfg _) as [retry_cap | x];
        [| cbn [fst]; apply Hwrap; exact Hcap].
      match goal with
      | |- context [responses_create client 1 ?rq] =>
          pose proof (Hresponses 1%nat rq) as H1;
          destruct (responses_create client 1 rq) as [resp' | x]
      end; cbn [fst]; apply Hwrap; [| exact H1].
      apply bind_no_http; [apply responses_retry_line_no_http |].
      intro. apply responses_text_no_http.
    + cbn [fst]. apply Hwrap. apply responses_text_no_http.
  - match goal with
    | |- context [chat_completions_create client ?rq] =>
        pose proof (Hchat rq) as H0;
        destruct (chat_completions_create client rq) as [resp | x]
    end; cbn [fst]; apply Hwrap; [| exact H0].
    apply bind_no_http; [apply chat_done_line_no_http |]. intro.
    apply bind_no_http; [apply chat_content_no_http |].
    intros [t |]; [destruct (is_empty t) |]; exact I.
Qed.

Lemma failures_are_gateway_errors_witness :
  exists cause,
    HTTPException 502
      "OpenAI chat completion failed: object of type 'int' has no len()"
    = HTTPException HTTP_502_BAD_GATEWAY
        ("OpenAI chat completion failed: " ++ exn_str cause).
Proof.
  apply (failures_are_gateway_errors default_settings 100 payloads
           (scripted_client 16 11) [] "gpt-5-mini" (QArith_base.Qmake 1 5) 512).
  - intros [| n] rq; exact I.
  - intros rq. exact I.
  - vm_compute. reflexivity.
Defined.

(** ** Texts that are never empty *)

Lemma nonempty_some t s : nonempty t = true -> t = Some s -> s <> "".
Proof.
  intros H ->. simpl in H. apply negb_true_iff in H.
  apply is_empty_false. exact H.
Qed.

Lemma append_not_empty s t : s <> "" -> s ++ t <> "".
Proof. destruct s; [congruence | discriminate]. Qed.

Lemma concat_not_empty sep parts :
  parts <> [] -> Forall (fun p => p <> "") parts ->
  String.concat sep parts <> "".
Proof.
  destruct parts as [| p rest]; [congruence |].
  intros _ H. apply Forall_inv in H.
  destruct rest; simpl; [exact H | apply append_not_empty; exact H].
Qed.

Lemma coerce_items_parts f items parts :
  coerce_items f items = Ok parts -> Forall (fun p => p <> "") parts.
Proof.
  revert parts. induction items as [| x rest IH]; simpl; intros parts.
  - intros [= <-]. constructor.
  - destruct (f x) as [part | e]; [| discriminate]. cbn [bind].
    destruct (coerce_items f rest) as [ps | e]; [| discriminate]. cbn [bind].
    specialize (IH ps eq_refl).
    destruct part as [s |]; [| intros [= <-]; exact IH].
    destruct (is_empty s) eqn:E; intros [= <-]; [exact IH |].
    constructor; [apply is_empty_false; exact E | exact IH].
Qed.

Lemma coerce_nested_found f h v keys s :
  coerce_nested f h v keys = Ok (Some s) -> s <> "".
Proof.
  induction keys as [| key rest IH]; cbn [coerce_nested]; [discriminate |].
  destruct (_get_from_obj h v key PyNone); try exact IH;
    (destruct (f _) as [r | e]; [| discriminate]; cbn [bind];
     destruct (nonempty r) eqn:E; [| exact IH];
     intros [= ->]; eapply nonempty_some; eauto).
Qed.

Lemma or_none_some s t : or_none s = Some t -> t <> "".
Proof.
  unfold or_none. destruct (is_empty s) eqn:E; [discriminate |].
  intros [= <-]. apply is_empty_false. exact E.
Qed.

(** X7.  On a sequence, a mapping or an object the normalizer never yields
    the empty string: its result is null or a text with content. *)
Theorem coerce_container_text_not_empty
    (depth : nat) (h : heap) (l : loc) (t : string) :
  _coerce_text_value depth h (PyRef l) = Ok (Some t) -> t <> "".
Proof.
  destruct depth as [| d]; [discriminate |]. rewrite coerce_ref_eq.
  assert (Hseq : forall items,
             (parts <- coerce_items (_coerce_text_value d h) items ;;
              Ok (match parts with
                  | [] => None
                  | _ => Some (String.concat nl parts)
                  end)) = Ok (Some t) -> t <> "").
  { intros items.
    destruct (coerce_items (_coerce_text_value d h) items) as [parts | e] eqn:E;
      [| discriminate]. cbn [bind].
    apply coerce_items_parts in E.
    destruct parts as [| p rest]; [discriminate |].
    intros [= <-]. apply (concat_not_empty nl (p :: rest));
      [discriminate | exact E]. }
  assert (Hobj :
            (found <- coerce_nested (_coerce_text_value d h) h (PyRef l)
                        nested_keys ;;
             match found with
             | Some resolved => Ok (Some resolved)
             | None =>
                 text_repr <- py_str d h (PyRef l) ;;
                 Ok (or_none (strip text_repr))
             end) = Ok (Some t) -> t <> "").
  { destruct (coerce_nested _ h (PyRef l) nested_keys) as [[s |] | e] eqn:E;
      cbn [bind]; [| | discriminate].
    - intros [= <-]. eapply coerce_nested_found; eauto.
    - destruct (py_str d h (PyRef l)); [| discriminate]. cbn [bind].
      intros [= H]. eapply or_none_some; eauto. }
  destruct (h l) as [items | items | entries | attrs shown dump];
    [apply Hseq | apply Hseq | exact Hobj | exact Hobj].
Qed.

Lemma coerce_container_text_not_empty_witness :
  _coerce_text_value 100 payloads (PyRef 0) = Ok (Some ("a" ++ nl ++ "b"))
  /\ "a" ++ nl ++ "b" <> "".
Proof.
  assert (H : _coerce_text_value 100 payloads (PyRef 0)
              = Ok (Some ("a" ++ nl ++ "b"))) by reflexivity.
  split; [exact H |].
  exact (coerce_container_text_not_empty 100 payloads 0 _ H).
Defined.

Lemma scan_contents_found depth h contents t :
  scan_contents depth h contents = Ok (Some t) -> t <> "".
Proof.
  induction contents as [| c rest IH]; cbn [scan_contents]; [discriminate |].
  destruct (in_str_set depth h _ _) as [[|] | e]; cbn [bind];
    [| exact IH | discriminate].
  destruct (_coerce_text_value depth h _) as [r | e]; [| discriminate].
  cbn [bind]. destruct (nonempty r) eqn:E;
    [intros [= ->]; eapply nonempty_some; eauto |].
  destruct (_coerce_text_value depth h _) as [r' | e]; [| discriminate].
  cbn [bind]. destruct (nonempty r') eqn:E';
    [intros [= ->]; eapply nonempty_some; eauto | exact IH].
Qed.

Lemma scan_outputs_found depth h outputs t :
  scan_outputs depth h outputs = Ok (Some t) -> t <> "".
Proof.
  induction outputs as [| o rest IH]; cbn [scan_outputs]; [discriminate |].
  destruct (in_str_set depth h _ _) as [[|] | e]; cbn [bind];
    [| exact IH | discriminate].
  destruct (scan_contents depth h _) as [[s |] | e] eqn:E; cbn [bind];
    [| exact IH | discriminate].
  intros [= <-]. eapply scan_contents_found; eauto.
Qed.

(** X8.  A text extracted from a provider response is never empty:
    [_extract_text_from_responses] returns a text with content or raises,
    and [_extract_text_from_chat_choice] returns a text with content or
    nothing. *)
Theorem extracted_text_not_empty (depth : nat) (h : heap) (v : pyval)
    (t : string) :
  (_extract_text_from_responses depth h v = Ok t -> t <> "")
  /\ (_extract_text_from_chat_choice depth h v = Ok (Some t) -> t <> "").
Proof.
  split.
  - unfold _extract_text_from_responses. cbv zeta.
    destruct (scan_outputs depth h _) as [[s |] | e] eqn:E; cbn [bind];
      [| | discriminate].
    + intros [= <-]. eapply scan_outputs_found; eauto.
    + destruct (_coerce_text_value depth h _) as [[s |] | e]; cbn [bind];
        try discriminate.
      destruct (is_empty s) eqn:Es; [discriminate |].
      intros [= <-]. apply is_empty_false. exact Es.
  - unfold _extract_text_from_chat_choice. cbv zeta.
    destruct v; try discriminate;
      repeat match goal with
             | |- context [_coerce_text_value ?d ?hp ?x] =>
                 destruct (_coerce_text_value d hp x) as [? | ?];
                 cbn [bind]; try discriminate
             | |- context [nonempty ?r] => destruct (nonempty r) eqn:?
             end;
      try discriminate;
      intros [= ->]; eapply nonempty_some; eauto.
Qed.

Lemma extracted_text_not_empty_witness :
  _extract_text_from_responses 100 payloads (PyRef 6) = Ok "Hello"
  /\ "Hello" <> "".
Proof.
  assert (H : _extract_text_from_responses 100 payloads (PyRef 6) = Ok "Hello")
    by (vm_compute; reflexivity).
  split; [exact H |].
  exact (proj1 (extracted_text_not_empty 100 payloads (PyRef 6) "Hello") H).
Defined.

(** ** The order of the nested fields *)

Lemma coerce_nested_step f h v key rest s :
  s <> "" -> f (_get_from_obj h v key PyNone) = Ok (Some s) ->
  _get_from_obj h v key PyNone <> PyNone ->
  coerce_nested f h v (key :: rest) = Ok (Some s).
Proof.
  intros Hs Hf Hnone. cbn [coerce_nested].
  destruct (_get_from_obj h v key PyNone); try congruence;
    rewrite Hf; cbn [bind]; simpl;
    destruct s; try congruence; reflexivity.
Qed.

Lemma coerce_some_not_none d h v s :
  _coerce_text_value d h v = Ok (Some s) -> v <> PyNone.
Proof. intros H ->. destruct d; discriminate. Qed.

(** X9.  On a mapping or an object the fields are tried in the order value,
    text, content: the first of them to yield a text with content gives the
    result, a later field counting only when the earlier ones yield none. *)
Theorem coerce_field_order (depth : nat) (h : heap) (l : loc) (s : string) :
  let field key := _get_from_obj h (PyRef l) key PyNone in
  let yields key := _coerce_text_value depth h (field key) = Ok (Some s) in
  let silent key :=
    exists r, _coerce_text_value depth h (field key) = Ok r
              /\ nonempty r = false in
  is_record (h l) -> s <> "" ->
  (yields "value"
   \/ (silent "value" /\ yields "text")
   \/ (silent "value" /\ silent "text" /\ yields "content")) ->
  _coerce_text_value (S depth) h (PyRef l) = Ok (Some s).
Proof.
  intros field yields silent Hrec Hs Hcases.
  assert (Hfound : coerce_nested (_coerce_text_value depth h) h (PyRef l)
                     nested_keys = Ok (Some s)).
  { unfold nested_keys.
    destruct Hcases as [Hv | [[(r & Hr & Hn) Ht] | [(r & Hr & Hn) [(r' & Hr' & Hn') Hc]]]].
    - apply coerce_nested_step; auto. eapply coerce_some_not_none; eauto.
    - rewrite (coerce_nested_skip _ h (PyRef l) "value" _ r Hr Hn).
      apply coerce_nested_step; auto. eapply coerce_some_not_none; eauto.
    - rewrite (coerce_nested_skip _ h (PyRef l) "value" _ r Hr Hn).
      rewrite (coerce_nested_skip _ h (PyRef l) "text" _ r' Hr' Hn').
      apply coerce_nested_step; auto. eapply coerce_some_not_none; eauto. }
  rewrite coerce_ref_eq.
  destruct (h l); try contradiction; rewrite Hfound; reflexivity.
Qed.

Lemma coerce_field_order_witness :
  _coerce_text_value 3 payloads (PyRef 10) = Ok (Some "Hello").
Proof.
  apply (coerce_field_order 2 payloads 10 "Hello").
  - exact I.
  - discriminate.
  - right. left. split; [exists None; split; reflexivity | reflexivity].
Defined.

(** ** Sequences of strings *)

Lemma coerce_items_strings d h ss :
  coerce_items (_coerce_text_value (S d) h) (map PyStr ss)
  = Ok (filter (fun s => negb (is_empty s)) ss).
Proof.
  induction ss as [| s ss IH]; [reflexivity |].
  cbn [map coerce_items]. rewrite IH.
  cbn [_coerce_text_value bind filter]. destruct (is_empty s); reflexivity.
Qed.

(** X10.  A list or tuple of strings is normalized to its non-empty strings
    joined by newlines, in order, and to null when none has content. *)
Theorem coerce_joins_strings (depth : nat) (h : heap) (l : loc)
    (ss : list string) :
  h l = PyList (map PyStr ss) \/ h l = PyTuple (map PyStr ss) ->
  _coerce_text_value (S (S depth)) h (PyRef l)
  = Ok (match filter (fun s => negb (is_empty s)) ss with
        | [] => None
        | parts => Some (String.concat nl parts)
        end).
Proof.
  intros [Hl | Hl]; rewrite coerce_ref_eq, Hl, coerce_items_strings;
    cbn [bind]; destruct (filter _ ss); reflexivity.
Qed.

Lemma coerce_joins_strings_witness :
  _coerce_text_value 2 payloads (PyRef 0) = Ok (Some ("a" ++ nl ++ "b")).
Proof.
  apply (coerce_joins_strings 0 payloads 0 ["a"; ""; "b"]).
  left. reflexivity.
Defined.

(** ** The recursion limit *)

Lemma map_result_transfer {A B : Type} (f g : A -> result B) (l : list A) ys :
  (forall x y, f x = Ok y -> g x = Ok y) ->
  map_result f l = Ok ys -> map_result g l = Ok ys.
Proof.
  intro Hfg. revert ys. induction l as [| x l IH]; simpl; [auto |].
  intros ys. destruct (f x) as [y |] eqn:E; [| discriminate]. cbn [bind].
  rewrite (Hfg x y E). cbn [bind].
  destruct (map_result f l) as [zs |]; [| discriminate].
  rewrite (IH zs eq_refl). auto.
Qed.

Lemma coerce_items_transfer (f g : pyval -> result (option string)) items parts :
  (forall x y, f x = Ok y -> g x = Ok y) ->
  coerce_items f items = Ok parts -> coerce_items g items = Ok parts.
Proof.
  intro Hfg. revert parts. induction items as [| x l IH]; simpl; [auto |].
  intros parts. destruct (f x) as [y |] eqn:E; [| discriminate]. cbn [bind].
  rewrite (Hfg x y E). cbn [bind].
  destruct (coerce_items f l) as [zs |]; [| discriminate].
  rewrite (IH zs eq_refl). auto.
Qed.

Lemma coerce_nested_transfer (f g : pyval -> result (option string)) h v keys r :
  (forall x y, f x = Ok y -> g x = Ok y) ->
  coerce_nested f h v keys = Ok r -> coerce_nested g h v keys = Ok r.
Proof.
  intro Hfg. induction keys as [| key rest IH]; cbn [coerce_nested]; [auto |].
  destruct (_get_from_obj h v key PyNone) eqn:Eg; try exact IH;
    (destruct (f _) as [y |] eqn:E; [| discriminate];
     rewrite (Hfg _ y E); cbn [bind]; destruct (nonempty y); auto).
Qed.

Lemma py_repr_deeper d h :
  forall active v s, py_repr d h active v = Ok s ->
                     py_repr (S d) h active v = Ok s.
Proof.
  induction d as [| d IH]; intros active v s; [discriminate |].
  destruct v; try (simpl; auto; fail).
  change (py_repr (S d) h active (PyRef l)) with
    (match h l with
     | PyObject _ shown _ => Ok shown
     | PyList items =>
         if mem_loc l active then Ok "[...]"
         else parts <- map_result (py_repr d h (l :: active)) items ;;
              Ok ("[" ++ String.concat ", " parts ++ "]")
     | PyTuple items =>
         if mem_loc l active then Ok "(...)"
         else parts <- map_result (py_repr d h (l :: active)) items ;;
              Ok (match parts with
                  | [p] => "(" ++ p ++ ",)"
                  | _ => "(" ++ String.concat ", " parts ++ ")"
                  end)
     | PyDict entries =>
         if mem_loc l active then Ok "{...}"
         else parts <- map_result
                         (fun kv => r <- py_repr d h (l :: active) (snd kv) ;;
                                    Ok (repr_str (fst kv) ++ ": " ++ r))
                         entries ;;
              Ok ("{" ++ String.concat ", " parts ++ "}")
     end).
  change (py_repr (S (S d)) h active (PyRef l)) with
    (match h l with
     | PyObject _ shown _ => Ok shown
     | PyList items =>
         if mem_loc l active then Ok "[...]"
         else parts <- map_result (py_repr (S d) h (l :: active)) items ;;
              Ok ("[" ++ String.concat ", " parts ++ "]")
     | PyTuple items =>
         if mem_loc l active then Ok "(...)"
         else parts <- map_result (py_repr (S d) h (l :: active)) items ;;
              Ok (match parts with
                  | [p] => "(" ++ p ++ ",)"
                  | _ => "(" ++ String.concat ", " parts ++ ")"
                  end)
     | PyDict entries =>
         if mem_loc l active then Ok "{...}"
         else parts <- map_result
                         (fun kv => r <- py_repr (S d) h (l :: active) (snd kv) ;;
                                    Ok (repr_str (fst kv) ++ ": " ++ r))
                         entries ;;
              Ok ("{" ++ String.concat ", " parts ++ "}")
     end).
  destruct (h l) as [items | items | entries | attrs shown dump]; auto;
    destruct (mem_loc l active); auto.
  - destruct (map_result (py_repr d h (l :: active)) items) as [parts |] eqn:E;
      [| discriminate].
    rewrite (map_result_transfer _ (py_repr (S d) h (l :: active)) items parts
               (IH (l :: active)) E). auto.
  - destruct (map_result (py_repr d h (l :: active)) items) as [parts |] eqn:E;
      [| discriminate].
    rewrite (map_result_transfer _ (py_repr (S d) h (l :: active)) items parts
               (IH (l :: active)) E). auto.
  - destruct (map_result _ entries) as [parts |] eqn:E; [| discriminate].
    rewrite (map_result_transfer
               (fun kv => r <- py_repr d h (l :: active) (snd kv) ;;
                          Ok (repr_str (fst kv) ++ ": " ++ r))
               (fun kv => r <- py_repr (S d) h (l :: active) (snd kv) ;;
                          Ok (repr_str (fst kv) ++ ": " ++ r))
               entries parts); auto.
    intros kv y. destruct (py_repr d h (l :: active) (snd kv)) eqn:Ek;
      [| discriminate].
    rewrite (IH _ _ _ Ek). auto.
Qed.

Lemma py_str_deeper d h v s :
  py_str d h v = Ok s -> py_str (S d) h v = Ok s.
Proof. destruct v; try apply py_repr_deeper. auto. Qed.

Lemma coerce_deeper d h :
  forall v r, _coerce_text_value d h v = Ok r ->
              _coerce_text_value (S d) h v = Ok r.
Proof.
  induction d as [| d IH]; intros v r; [discriminate |].
  destruct v; try (simpl; auto; fail).
  rewrite !coerce_ref_eq.
  destruct (h l) as [items | items | entries | attrs shown dump].
  - destruct (coerce_items _ items) as [parts |] eqn:E; [| discriminate].
    rewrite (coerce_items_transfer _ (_coerce_text_value (S d) h) items parts IH E).
    auto.
  - destruct (coerce_items _ items) as [parts |] eqn:E; [| discriminate].
    rewrite (coerce_items_transfer _ (_coerce_text_value (S d) h) items parts IH E).
    auto.
  - destruct (coerce_nested _ h (PyRef l) nested_keys) as [found |] eqn:E;
      [| discriminate].
    rewrite (coerce_nested_transfer _ (_coerce_text_value (S d) h) h (PyRef l)
               nested_keys found IH E).
    cbn [bind]. destruct found; auto.
    destruct (py_str d h (PyRef l)) eqn:Es; [| discriminate].
    rewrite (py_str_deeper _ _ _ _ Es). auto.
  - destruct (coerce_nested _ h (PyRef l) nested_keys) as [found |] eqn:E;
      [| discriminate].
    rewrite (coerce_nested_transfer _ (_coerce_text_value (S d) h) h (PyRef l)
               nested_keys found IH E).
    cbn [bind]. destruct found; auto.
    destruct (py_str d h (PyRef l)) eqn:Es; [| discriminate].
    rewrite (py_str_deeper _ _ _ _ Es). auto.
Qed.

(** X11.  A result of the normalizer does not depend on the recursion limit:
    what it returns under one limit it returns under every greater one. *)
Theorem coerce_result_stable_under_depth
    (h : heap) (v : pyval) (r : option string) (d d' : nat) :
  _coerce_text_value d h v = Ok r -> d <= d' ->
  _coerce_text_value d' h v = Ok r.
Proof.
  intros H Hle. induction Hle as [| m _ IH]; [exact H |].
  apply coerce_deeper. exact IH.
Qed.

Lemma coerce_result_stable_under_depth_witness :
  _coerce_text_value 7 payloads (PyRef 14) = Ok (Some "Choice()").
Proof.
  apply (coerce_result_stable_under_depth payloads (PyRef 14) _ 3 7).
  - reflexivity.
  - repeat constructor.
Defined.

(** ** Queries in creation order *)

Lemma in_insert_by {A : Type} (key : A -> Z) (x y : A) (l : list A) :
  In y (insert_by key x l) <-> y = x \/ In y l.
Proof.
  induction l as [| z l IH]; simpl; [intuition |].
  destruct (key x <=? key z)%Z; simpl; [intuition |].
  rewrite IH. intuition.
Qed.

Lemma in_order_by_asc {A : Type} (key : A -> Z) (y : A) (l : list A) :
  In y (order_by_asc key l) <-> In y l.
Proof.
  unfold order_by_asc. induction l as [| x l IH]; simpl; [reflexivity |].
  rewrite in_insert_by, IH. intuition.
Qed.

Lemma length_insert_by {A : Type} (key : A -> Z) (x : A) (l : list A) :
  List.length (insert_by key x l) = S (List.length l).
Proof.
  induction l as [| z l IH]; simpl; [reflexivity |].
  destruct (key x <=? key z)%Z; simpl; [reflexivity | rewrite IH; reflexivity].
Qed.

Lemma length_order_by_asc {A : Type} (key : A -> Z) (l : list A) :
  List.length (order_by_asc key l) = List.length l.
Proof.
  unfold order_by_asc. induction l as [| x l IH]; simpl; [reflexivity |].
  rewrite length_insert_by, IH. reflexivity.
Qed.

Lemma insert_by_ascending {A : Type} (key : A -> Z) (x : A) (l : list A) :
  ascending key l -> ascending key (insert_by key x l).
Proof.
  unfold ascending. induction 1 as [| z l Hl IH Hz]; simpl.
  - repeat constructor.
  - destruct (key x <=? key z)%Z eqn:E.
    + apply Z.leb_le in E. constructor; [constructor; assumption |].
      constructor; [exact E |].
      rewrite Forall_forall in *. intros w Hw. specialize (Hz w Hw). lia.
    + apply Z.leb_gt in E. constructor; [exact IH |].
      rewrite Forall_forall in *. intros w Hw.
      apply in_insert_by in Hw as [-> | Hw]; [lia | auto].
Qed.

Lemma order_by_asc_ascending {A : Type} (key : A -> Z) (l : list A) :
  ascending key (order_by_asc key l).
Proof.
  unfold order_by_asc. induction l as [| x l IH]; simpl.
  - constructor.
  - apply insert_by_ascending. exact IH.
Qed.

Lemma in_firstn {A : Type} (n : nat) (l : list A) (x : A) :
  In x (firstn n l) -> In x l.
Proof.
  intro H. rewrite <- (firstn_skipn n l). apply in_or_app. now left.
Qed.

Lemma firstn_ascending {A : Type} (key : A -> Z) (n : nat) (l : list A) :
  ascending key l -> ascending key (firstn n l).
Proof.
  unfold ascending. intro H. revert n.
  induction H as [| z l Hl IH Hz]; intros [| n]; simpl; try constructor.
  - apply IH.
  - rewrite Forall_forall in *. intros w Hw. apply Hz.
    eapply in_firstn. exact Hw.
Qed.

(** X12.  The history loaded for a room holds at most [limit] messages, all
    of them stored messages of that room, in ascending order of creation;
    and it holds every message of the room when the room has no more than
    [limit] of them. *)
Theorem load_chat_history_shape (db : DB) (room_id : Z) (limit : nat) :
  let history := _load_chat_history db room_id limit in
  let of_room :=
    filter (fun m => (m_chat_id m =? room_id)%Z) (messages db) in
  (List.length history <= limit)%nat
  /\ (forall m, In m history -> In m (messages db) /\ m_chat_id m = room_id)
  /\ ascending created_at history
  /\ ((List.length of_room <= limit)%nat ->
      forall m, In m (messages db) -> m_chat_id m = room_id -> In m history).
Proof.
  intros history of_room. subst history. unfold _load_chat_history.
  fold of_room. refine (conj _ (conj _ (conj _ _))).
  - rewrite length_firstn. lia.
  - intros m H. apply in_firstn, in_order_by_asc, filter_In in H.
    destruct H as [Hin H]. apply Z.eqb_eq in H. auto.
  - apply firstn_ascending, order_by_asc_ascending.
  - intros Hfew m Hm Hroom.
    rewrite firstn_all2 by (rewrite length_order_by_asc; exact Hfew).
    apply in_order_by_asc, filter_In. split; [exact Hm |].
    apply Z.eqb_eq. exact Hroom.
Qed.

Lemma load_chat_history_shape_witness :
  (List.length
     (filter (fun m => (m_chat_id m =? 1)%Z) (messages (long_room 3)))
   <= default_history_limit)%nat
  /\ In (message_at 3 1 3)
        (_load_chat_history (long_room 3) 1 default_history_limit).
Proof.
  assert (Hfits : (List.length
                     (filter (fun m => (m_chat_id m =? 1)%Z)
                             (messages (long_room 3)))
                   <= default_history_limit)%nat) by (vm_compute; lia).
  split; [exact Hfits |].
  apply (proj2 (proj2 (proj2 (load_chat_history_shape (long_room 3) 1
                                default_history_limit))) Hfits).
  - simpl. auto.
  - reflexivity.
Defined.

(** ** The latest user text *)

(** X13.  The latest user text is the content of the last message of the
    user role in the history, whatever assistant messages follow it, and
    there is none exactly when the history has no message of the user
    role. *)
Theorem latest_user_text_is_last_user_message (history : list Message) :
  (forall before m after,
      history = (before ++ m :: after)%list -> m_role m = role_user ->
      Forall (fun x => m_role x = role_assistant) after ->
      _extract_latest_user_text history = Some (m_content m))
  /\ (_extract_latest_user_text history = None
      <-> Forall (fun x => m_role x = role_assistant) history).
Proof.
  unfold _extract_latest_user_text. split.
  - intros before m after -> Hm Hafter.
    rewrite rev_app_distr. cbn [rev]. rewrite <- app_assoc, filter_app.
    rewrite (filter_none _ (rev after)).
    + cbn [app filter]. rewrite Hm. reflexivity.
    + intros x Hx. apply in_rev in Hx. rewrite Forall_forall in Hafter.
      rewrite (Hafter x Hx). reflexivity.
  - split.
    + intro H. apply Forall_forall. intros x Hx.
      destruct (m_role x) eqn:E; [| reflexivity]. exfalso.
      assert (Hin : In x (filter (fun m => String.eqb (RoleEnum_value (m_role m))
                                             (RoleEnum_value role_user))
                                 (rev history))).
      { apply filter_In. split; [apply in_rev in Hx; exact Hx |].
        rewrite E. reflexivity. }
      destruct (filter _ (rev history)); [contradiction | discriminate].
    + intro H. rewrite filter_none; [reflexivity |].
      intros x Hx. apply in_rev in Hx. rewrite Forall_forall in H.
      rewrite (H x Hx). reflexivity.
Qed.

Lemma latest_user_text_is_last_user_message_witness :
  _extract_latest_user_text
    [message_at 1 1 1;
     {| messages_id := 2; m_chat_id := 1; m_user_id := 1;
        m_role := role_assistant; m_content := "reply"; created_at := 2 |}]
  = Some "message 1".
Proof.
  apply (proj1 (latest_user_text_is_last_user_message _) [] (message_at 1 1 1)
           [{| messages_id := 2; m_chat_id := 1; m_user_id := 1;
               m_role := role_assistant; m_content := "reply";
               created_at := 2 |}]).
  - reflexivity.
  - reflexivity.
  - repeat constructor.
Defined.

(** ** What the provider is sent *)

Lemma calls_carry_messages cfg depth h sdk messages model temperature max_tokens :
  Forall (carries messages)
         (snd (_call_openai_chat cfg depth h sdk messages model temperature
                 max_tokens)).
Proof.
  unfold _call_openai_chat.
  destruct (_get_openai_client sdk) as [client | e]; [| constructor].
  destruct (_should_use_responses_api model).
  - destruct (responses_create client 0 _) as [resp | e];
      [| repeat constructor].
    destruct (responses_done_line depth h resp _); cbn [bind];
      [| repeat constructor].
    destruct (_get_incomplete_reason depth h resp); [| repeat constructor].
    destruct (_ && _); [| repeat constructor].
    destruct (retry_tokens cfg _); [| repeat constructor].
    destruct (responses_create client 1 _); repeat constructor.
  - destruct (chat_completions_create client _); repeat constructor.
Qed.

(** X14.  Every provider call of a reply carries, in this order, the system
    prompt when one is given, the news summary when there is one, and the
    loaded history as role and content pairs, oldest first. *)
Theorem reply_sends_prompt_summary_history
    (rt : Runtime) (db : DB) (room_id current_user : Z)
    (system_prompt : option string) (chat : Chat) :
  _ensure_room_ownership db room_id current_user = Ok chat ->
  let history := _load_chat_history db room_id default_history_limit in
  let summary :=
    fst (_build_rag_news_summary (rt_cfg rt) (rt_rag rt) (stock_code chat)
           (_extract_latest_user_text history)
           (_RAG_NEWS_SUMMARY_LIMIT (rt_cfg rt))) in
  let sent :=
    ((match system_prompt with
      | Some p => if is_empty p then [] else [ {| role := "system"; content := p |} ]
      | None => []
      end)
     ++ (match summary with
         | Some text => if is_empty text then []
                        else [ {| role := "system"; content := text |} ]
         | None => []
         end)
     ++ map (fun m => {| role := RoleEnum_value (m_role m);
                         content := m_content m |}) history)%list in
  Forall (carries sent)
         (snd (generate_and_save_assistant_reply rt db room_id current_user
                 system_prompt)).
Proof.
  intros Hown history summary sent. subst sent summary.
  unfold generate_and_save_assistant_reply. rewrite Hown. cbv zeta.
  fold history.
  destruct (_build_rag_news_summary (rt_cfg rt) (rt_rag rt) (stock_code chat)
              (_extract_latest_user_text history)
              (_RAG_NEWS_SUMMARY_LIMIT (rt_cfg rt)))
    as [rag_summary news_docs]. cbn [fst].
  match goal with
  | |- context [_call_openai_chat _ _ _ _ ?sent_by_code _ _ _] =>
      set (oai_messages := sent_by_code)
  end.
  match goal with
  | |- Forall (carries ?messages) _ => set (sent := messages)
  end.
  assert (Hsent : oai_messages = sent).
  { unfold oai_messages, sent.
    unfold _convert_history_to_openai_messages, list_insert.
    destruct system_prompt as [[| c p] |], rag_summary as [[| c' s] |];
      reflexivity. }
  pose proof (calls_carry_messages (rt_cfg rt) (rt_depth rt) (rt_heap rt)
                (rt_sdk rt) oai_messages (_OPENAI_MODEL_DEFAULT (rt_cfg rt))
                (_OPENAI_TEMPERATURE_DEFAULT (rt_cfg rt))
                (_OPENAI_MAX_TOKENS_DEFAULT (rt_cfg rt))) as Hcalls.
  rewrite <- Hsent.
  destruct (_call_openai_chat _ _ _ _ oai_messages _ _ _)
    as [[text | e] calls]; exact Hcalls.
Qed.

Lemma reply_sends_prompt_summary_history_witness :
  Forall (carries [ {| role := "system"; content := "be brief" |} ])
         (snd (generate_and_save_assistant_reply
                 (runtime_of (scripted_client 6 6) no_retrieval)
                 two_rooms 1 1 (Some "be brief"))).
Proof.
  exact (reply_sends_prompt_summary_history
           (runtime_of (scripted_client 6 6) no_retrieval) two_rooms 1 1
           (Some "be brief") (room 1 1 "AAPL" out) eq_refl).
Defined.

(** ** Messages are appended, never changed *)

(** X15.  A stored user message is appended to the messages of the
    database, which are otherwise unchanged; it carries the room, the
    author, the user role and the content given.  No room is added or
    removed, and only the room of the message gets a new last-activity
    time, the time of the write. *)
Theorem save_user_message_appends (db db' : DB) (room_id current_user : Z)
    (text : string) (m : Message) :
  save_user_message db room_id current_user text = (Ok m, db') ->
  messages db' = (messages db ++ [m])%list
  /\ m_chat_id m = room_id /\ m_user_id m = current_user
  /\ m_role m = role_user /\ m_content m = text /\ created_at m = now db
  /\ map chat_id (chats db') = map chat_id (chats db)
  /\ (forall c, In c (chats db') ->
        (chat_id c <> room_id /\ In c (chats db))
        \/ (chat_id c = room_id /\ user_id c = current_user
            /\ lastchat_at c = now db)).
Proof.
  unfold save_user_message, _ensure_room_ownership.
  destruct (first _) as [chat |] eqn:E; [| discriminate].
  apply first_filter_some in E as [Hin Hsel].
  apply andb_prop in Hsel as [Hid Huser].
  apply Z.eqb_eq in Hid. apply Z.eqb_eq in Huser.
  intros [= <- <-]. cbn [messages chats commit_message new_message
                          m_chat_id m_user_id m_role m_content created_at].
  repeat split.
  - unfold replace_chat. rewrite map_map. apply map_ext_in.
    intros c _. unfold touch. cbn [chat_id].
    destruct (chat_id c =? chat_id chat)%Z eqn:Ec; [| reflexivity].
    apply Z.eqb_eq in Ec. cbn [chat_id]. symmetry. exact Ec.
  - intros c Hc. apply in_replace_chat in Hc as [-> | [Hc Hne]].
    + right. cbn [touch chat_id user_id lastchat_at]. auto.
    + left. cbn [touch chat_id] in Hne. split; [congruence | exact Hc].
Qed.

Lemma save_user_message_appends_witness :
  exists m db',
    save_user_message two_rooms 1 1 "hello" = (Ok m, db')
    /\ messages db' = (messages two_rooms ++ [m])%list.
Proof.
  do 2 eexists.
  assert (H : save_user_message two_rooms 1 1 "hello" = (Ok _, _))
    by (vm_compute; reflexivity).
  split; [exact H |].
  exact (proj1 (save_user_message_appends _ _ _ _ _ _ H)).
Defined.

Lemma save_appends db db' room_id current_user text m :
  save_user_message db room_id current_user text = (Ok m, db') ->
  messages db' = (messages db ++ [m])%list
  /\ m_chat_id m = room_id /\ m_role m = role_user /\ m_content m = text.
Proof.
  unfold save_user_message.
  destruct (_ensure_room_ownership db room_id current_user) as [chat | e];
    [| discriminate].
  intros [= <- <-]. repeat split.
Qed.

Lemma generate_appends rt db room_id current_user system_prompt :
  let '(outcome, db', _) :=
    generate_and_save_assistant_reply rt db room_id current_user system_prompt in
  match outcome with
  | Raise _ => db' = db
  | Ok a =>
      m_role a = role_assistant /\ m_chat_id a = room_id
      /\ m_user_id a = current_user
      /\ messages db' = (messages db ++ [a])%list
  end.
Proof.
  unfold generate_and_save_assistant_reply.
  destruct (_ensure_room_ownership db room_id current_user) as [chat | e];
    [| reflexivity].
  destruct (_build_rag_news_summary _ _ _ _ _) as [rag_summary news_docs].
  destruct (_call_openai_chat _ _ _ _ _ _ _ _) as [[text | e] calls];
    [| reflexivity].
  repeat split.
Qed.

(** X16.  A chat turn only appends to the stored messages.  When the room is
    missing or not the caller's, nothing is written.  Otherwise the user
    message is stored, and it stays stored when the reply fails: the messages
    then grow by the user message alone, and by the user message followed by
    the assistant message when the turn succeeds. *)
Theorem chat_turn_appends
    (rt : Runtime) (db : DB) (room_id current_user : Z) (text : string)
    (system_prompt : option string) :
  let '(outcome, db', _) :=
    create_message_and_reply rt db room_id current_user text system_prompt in
  match _ensure_room_ownership db room_id current_user with
  | Raise e => outcome = Raise e /\ db' = db
  | Ok _ =>
      exists u,
        m_role u = role_user /\ m_content u = text /\ m_chat_id u = room_id
        /\ match outcome with
           | Raise _ => messages db' = (messages db ++ [u])%list
           | Ok returned =>
               exists a,
                 returned = [RMessage u; RMessage a]
                 /\ m_role a = role_assistant /\ m_chat_id a = room_id
                 /\ messages db' = (messages db ++ [u; a])%list
           end
  end.
Proof.
  unfold create_message_and_reply.
  destruct (save_user_message db room_id current_user text)
    as [[u | e] db1] eqn:Hsave.
  - pose proof (save_appends _ _ _ _ _ _ Hsave)
      as (Hmsgs & Hroom & Hrole & Hcontent).
    unfold save_user_message in Hsave.
    destruct (_ensure_room_ownership db room_id current_user) as [chat | e];
      [| discriminate].
    pose proof (generate_appends rt db1 room_id current_user system_prompt)
      as Hgen.
    destruct (generate_and_save_assistant_reply rt db1 room_id current_user
                system_prompt) as [[[a | e] db2] calls].
    + destruct Hgen as (Ha & Haroom & _ & Hmsgs2).
      exists u. repeat split; auto. exists a. repeat split; auto.
      rewrite Hmsgs2, Hmsgs, <- app_assoc. reflexivity.
    + subst db2. exists u. repeat split; auto.
  - unfold save_user_message in Hsave.
    destruct (_ensure_room_ownership db room_id current_user) as [chat | e'];
      [discriminate |].
    injection Hsave as <- <-. auto.
Qed.

(** ** Reading the messages of a room *)

(** X17.  Messages are read only from a room of the caller: for any other
    room the read fails with the 404 error.  A successful read returns
    exactly the stored messages of the room, those after the given message
    id when one is given, in ascending order of creation. *)
Theorem fetch_chat_messages_scope (db : DB) (room_id current_user : Z)
    (last_message_id : option Z) :
  match fetch_chat_messages db room_id current_user last_message_id with
  | Raise e =>
      e = HTTPException 404 "Chat room not found or permission denied"
      /\ forall c, In c (chats db) -> chat_id c = room_id ->
                   user_id c <> current_user
  | Ok rows =>
      (exists c, In c (chats db) /\ chat_id c = room_id
                 /\ user_id c = current_user)
      /\ (forall m, In m rows <->
                    In m (messages db) /\ m_chat_id m = room_id
                    /\ match last_message_id with
                       | Some last => (last < messages_id m)%Z
                       | None => True
                       end)
      /\ ascending created_at rows
  end.
Proof.
  unfold fetch_chat_messages, _ensure_room_ownership.
  destruct (first _) as [chat |] eqn:E; cbn [bind].
  - apply first_filter_some in E as [Hin Hsel].
    apply andb_prop in Hsel as [Hid Huser].
    apply Z.eqb_eq in Hid. apply Z.eqb_eq in Huser.
    split; [eauto |]. split; [| apply order_by_asc_ascending].
    intro m. rewrite in_order_by_asc.
    destruct last_message_id as [last |].
    + rewrite !filter_In, Z.eqb_eq, Z.ltb_lt. tauto.
    + rewrite filter_In, Z.eqb_eq. tauto.
  - split; [reflexivity |]. intros c Hc Hid Huser.
    assert (Hsel : In c (filter (fun c => (chat_id c =? room_id)%Z
                                          && (user_id c =? current_user)%Z)
                                (chats db))).
    { apply filter_In. split; [exact Hc |].
      rewrite Hid, Huser, !Z.eqb_refl. reflexivity. }
    unfold first in E. destruct (filter _ (chats db)); [contradiction | discriminate].
Qed.

(** ** The news summary *)





(** ** The snippet of a summary line *)

Lemma length_take_string n s : (String.length (take_string n s) <= n)%nat.
Proof.
  revert s. induction n as [| n IH]; intros [| c s]; simpl; try lia.
  specialize (IH s). lia.
Qed.

Lemma length_append s t :
  String.length (s ++ t) = (String.length s + String.length t)%nat.
Proof. induction s as [| c s IH]; simpl; [reflexivity | rewrite IH; reflexivity]. Qed.

Lemma all_chars_app p s t :
  all_chars p (s ++ t) = all_chars p s && all_chars p t.
Proof.
  induction s as [| c s IH]; simpl; [reflexivity |].
  rewrite IH, andb_assoc. reflexivity.
Qed.

Lemma all_chars_take p n s :
  all_chars p s = true -> all_chars p (take_string n s) = true.
Proof.
  revert s. induction n as [| n IH]; intros [| c s]; simpl; auto.
  intro H. apply andb_prop in H as [-> H]. simpl. auto.
Qed.

Lemma all_chars_lstrip_within p n :
  forall s, (String.length s <= n)%nat ->
            all_chars p s = true -> all_chars p (lstrip s) = true.
Proof.
  induction n as [| n IH]; intros s Hn H.
  - destruct s; [reflexivity | simpl in Hn; lia].
  - destruct s as [| c1 s1]; [reflexivity |].
    cbn [lstrip]. cbn [String.length] in Hn.
    pose proof H as Hall. cbn [all_chars] in H.
    apply andb_prop in H as [_ H1].
    destruct (py_isspace c1); [apply IH; [lia | exact H1] |].
    destruct s1 as [| c2 s2]; [exact Hall |].
    cbn [String.length] in Hn. cbn [all_chars] in H1.
    apply andb_prop in H1 as [_ H2].
    destruct (space2 c1 c2); [apply IH; [lia | exact H2] |].
    destruct s2 as [| c3 s3]; [exact Hall |].
    cbn [String.length] in Hn. cbn [all_chars] in H2.
    apply andb_prop in H2 as [_ H3].
    destruct (space3 c1 c2 c3); [apply IH; [lia | exact H3] | exact Hall].
Qed.

Lemma all_chars_lstrip p s :
  all_chars p s = true -> all_chars p (lstrip s) = true.
Proof. apply (all_chars_lstrip_within p (String.length s)). lia. Qed.

Lemma all_chars_rstrip p s :
  all_chars p s = true -> all_chars p (rstrip s) = true.
Proof.
  induction s as [| c s IH]; [auto |].
  intro H. cbn [rstrip].
  destruct (lstrip (String c s)); [reflexivity |].
  cbn [all_chars] in *. apply andb_prop in H as [Hc H].
  rewrite Hc, (IH H). reflexivity.
Qed.

Lemma collapse_blank_is_space in_run s :
  blank_is_space (collapse_from in_run s) = true.
Proof.
  unfold blank_is_space. revert in_run.
  induction s as [| c s IH]; intro in_run; simpl; [reflexivity |].
  destruct (py_isspace c) eqn:E.
  - destruct in_run; [apply IH |]. simpl. apply IH.
  - simpl. rewrite E. simpl. apply IH.
Qed.

(** X20.  For a document whose content is of ASCII characters, the summary
    line ends with a snippet of at most 203 characters, the 200 first
    characters of the content and an ellipsis when the content is longer, in
    which every whitespace character is a plain space: a line break of the
    content never breaks the line. *)
Theorem summary_line_snippet (idx : nat) (doc : NewsDoc) :
  is_ascii (text_or (doc_content doc) "") = true ->
  exists snippet,
    summary_line idx doc
    = str_nat idx ++ ". " ++ text_or (doc_title doc) "제목 없음"
      ++ " (" ++ text_or (doc_published_at doc) "발행일 미상" ++ "): "
      ++ snippet
    /\ (String.length snippet <= 203)%nat
    /\ blank_is_space snippet = true
    /\ let cleaned :=
         strip (collapse_whitespace (text_or (doc_content doc) "")) in
       snippet = if (200 <? String.length cleaned)%nat
                 then take_string 200 cleaned ++ "..." else cleaned.
Proof.
  intros _. eexists. split; [reflexivity |].
  set (cleaned := strip (collapse_whitespace (text_or (doc_content doc) ""))).
  assert (Hclean : blank_is_space cleaned = true).
  { unfold cleaned, strip, blank_is_space.
    apply all_chars_rstrip, all_chars_lstrip.
    apply (collapse_blank_is_space false). }
  split; [| split; [| reflexivity]].
  - destruct (200 <? String.length cleaned)%nat eqn:E.
    + rewrite length_append. pose proof (length_take_string 200 cleaned).
      change (String.length "...") with 3%nat. lia.
    + apply Nat.ltb_ge in E. lia.
  - destruct (200 <? String.length cleaned)%nat.
    + unfold blank_is_space in *. rewrite all_chars_app.
      rewrite all_chars_take by exact Hclean. reflexivity.
    + exact Hclean.
Qed.

Lemma summary_line_snippet_witness :
  exists snippet,
    summary_line 1 {| doc_title := Some "Earnings beat";
                      doc_published_at := Some "2025-01-02";
                      doc_content := Some "Revenue   rose." |}
    = "1. Earnings beat (2025-01-02): " ++ snippet
    /\ (String.length snippet <= 203)%nat
    /\ blank_is_space snippet = true.
Proof.
  destruct (summary_line_snippet 1
              {| doc_title := Some "Earnings beat";
                 doc_published_at := Some "2025-01-02";
                 doc_content := Some "Revenue   rose." |} eq_refl)
    as (snippet & Hline & Hlen & Hblank & _).
  exists snippet. split; [exact Hline |]. split; [exact Hlen | exact Hblank].
Defined.

(** ** Updating a room *)

Lemma replace_chat_ids c rows :
  map chat_id (replace_chat c rows) = map chat_id rows.
Proof.
  unfold replace_chat. rewrite map_map. apply map_ext.
  intro x. destruct (chat_id x =? chat_id c)%Z eqn:E; [| reflexivity].
  apply Z.eqb_eq in E. symmetry. exact E.
Qed.

(** X21.  An update that fails leaves the database as it was.  An update
    that succeeds returns the caller's room of the given id with its owner,
    stock code and last-activity time unchanged, the title replaced by the
    trimmed new title when one is given and the trash state by the new
    state when one is given, and that room is stored; it adds and removes
    no room and touches no message; and with neither field given it writes
    nothing at all. *)
Theorem update_chat_room_outcomes (db : DB) (room_id current_user : Z)
    (chat_in : ChatUpdate) :
  let '(outcome, db') :=
    update_chat_room_for_user db room_id current_user chat_in in
  messages db' = messages db
  /\ map chat_id (chats db') = map chat_id (chats db)
  /\ match outcome with
     | Raise _ => db' = db
     | Ok c =>
         exists old,
           In old (chats db) /\ chat_id old = room_id
           /\ user_id old = current_user
           /\ In c (chats db')
           /\ chat_id c = room_id /\ user_id c = current_user
           /\ stock_code c = stock_code old
           /\ lastchat_at c = lastchat_at old
           /\ title c = match update_title chat_in with
                        | Some t => strip t
                        | None => title old
                        end
           /\ (forall t, update_title chat_in = Some t -> strip t <> "")
           /\ TrashEnum_value (trash_can c)
              = match update_trash_can chat_in with
                | Some v => v
                | None => TrashEnum_value (trash_can old)
                end
     end
  /\ (update_title chat_in = None -> update_trash_can chat_in = None ->
      db' = db).
Proof.
  unfold update_chat_room_for_user.
  destruct (first _) as [chat |] eqn:E; [| auto].
  apply first_filter_some in E as [Hin Hsel].
  apply andb_prop in Hsel as [Hid Huser].
  apply Z.eqb_eq in Hid. apply Z.eqb_eq in Huser.
  assert (Hparse : forall v s, parse_trash v = Some s -> TrashEnum_value s = v).
  { intros v s. unfold parse_trash.
    destruct (String.eqb v (TrashEnum_value in_)) eqn:E1;
      [apply String.eqb_eq in E1; intros [= <-]; auto |].
    destruct (String.eqb v (TrashEnum_value out)) eqn:E2;
      [apply String.eqb_eq in E2; intros [= <-]; auto | discriminate]. }
  assert (Hstrip : forall t, is_empty (strip t) = false -> strip t <> "")
    by (intros t; destruct (strip t); [discriminate | discriminate]).
  destruct chat_in as [[t |] [v |]]; cbn [update_title update_trash_can].
  - destruct (is_empty (strip t)) eqn:Et; cbn [bind]; [auto |].
    destruct (parse_trash v) as [s |] eqn:Ev; cbn [fst]; [| auto].
    unfold commit_chat_update. destruct (conflicts _ _); [auto |].
    cbn [messages chats]. split; [reflexivity |].
    split; [apply replace_chat_ids |]. split; [| discriminate].
    exists chat. split; [exact Hin |]. split; [exact Hid |].
    split; [exact Huser |].
    split; [apply replace_chat_in with (old := chat); auto |].
    cbn. repeat split; auto. intros t' [= <-]. auto.
  - destruct (is_empty (strip t)) eqn:Et; cbn [bind]; [auto |].
    unfold commit_chat_update. destruct (conflicts _ _); [auto |].
    cbn [messages chats]. split; [reflexivity |].
    split; [apply replace_chat_ids |]. split; [| discriminate].
    exists chat. split; [exact Hin |]. split; [exact Hid |].
    split; [exact Huser |].
    split; [apply replace_chat_in with (old := chat); auto |].
    cbn. repeat split; auto. intros t' [= <-]. auto.
  - cbn [bind]. destruct (parse_trash v) as [s |] eqn:Ev; cbn [fst]; [| auto].
    unfold commit_chat_update. destruct (conflicts _ _); [auto |].
    cbn [messages chats]. split; [reflexivity |].
    split; [apply replace_chat_ids |]. split; [| discriminate].
    exists chat. split; [exact Hin |]. split; [exact Hid |].
    split; [exact Huser |].
    split; [apply replace_chat_in with (old := chat); auto |].
    cbn. repeat split; auto. discriminate.
  - cbn [bind]. split; [reflexivity |]. split; [reflexivity |].
    split; [| reflexivity]. exists chat. repeat split; auto. discriminate.
Qed.

(** X22.  Of the three refusals of an update, the missing room comes first,
    the blank title second and the unknown trash state last: a room that is
    not the caller's gives the 404 error whatever the fields, and a blank
    title gives its 400 error even when the trash state is unknown too.
    Each refusal leaves the database as it was. *)
Theorem update_chat_room_refusals (db : DB) (room_id current_user : Z)
    (chat_in : ChatUpdate) :
  let run := update_chat_room_for_user db room_id current_user chat_in in
  let owned :=
    exists c, In c (chats db) /\ chat_id c = room_id
              /\ user_id c = current_user in
  let blank :=
    exists t, update_title chat_in = Some t /\ strip t = "" in
  let unknown :=
    exists v, update_trash_can chat_in = Some v /\ v <> "in" /\ v <> "out" in
  (~ owned ->
   run = (Raise (HTTPException 404 "Chat room not found or permission denied"),
          db))
  /\ (owned -> blank ->
      run = (Raise (HTTPException 400 "Title must not be empty"), db))
  /\ (owned -> ~ blank -> unknown ->
      run = (Raise (HTTPException 400 "Invalid trash_can value"), db)).
Proof.
  intros run owned blank unknown. subst run.
  unfold update_chat_room_for_user.
  set (sel := fun c => (chat_id c =? room_id)%Z && (user_id c =? current_user)%Z).
  assert (Hfound : owned -> exists chat, first (filter sel (chats db)) = Some chat).
  { intros (c & Hin & Hid & Huser).
    apply (first_filter_exists sel (chats db) c Hin).
    unfold sel. rewrite Hid, Huser, !Z.eqb_refl. reflexivity. }
  refine (conj _ (conj _ _)).
  - intro Hnot. destruct (first (filter sel (chats db))) as [chat |] eqn:E;
      [| reflexivity].
    exfalso. apply Hnot. apply first_filter_some in E as [Hin Hsel].
    unfold sel in Hsel. apply andb_prop in Hsel as [Hid Huser].
    apply Z.eqb_eq in Hid. apply Z.eqb_eq in Huser. exists chat. auto.
  - intros Ho (t & Ht & Hblank). destruct (Hfound Ho) as [chat ->].
    rewrite Ht, Hblank. reflexivity.
  - intros Ho Hnb (v & Hv & Hin & Hout). destruct (Hfound Ho) as [chat ->].
    assert (Hparse : parse_trash v = None).
    { unfold parse_trash. cbn [TrashEnum_value].
      destruct (String.eqb v "in") eqn:E1;
        [apply String.eqb_eq in E1; congruence |].
      destruct (String.eqb v "out") eqn:E2;
        [apply String.eqb_eq in E2; congruence | reflexivity]. }
    rewrite Hv, Hparse.
    destruct (update_title chat_in) as [t |]; cbn [bind]; [| reflexivity].
    destruct (is_empty (strip t)) eqn:Et; [| reflexivity].
    exfalso. apply Hnb. exists t. split; [reflexivity |].
    destruct (strip t); [reflexivity | discriminate].
Qed.

(** A title that is one ideographic space, with an unknown trash state: the
    blank title is what is refused. *)
Lemma update_chat_room_refusals_witness :
  update_chat_room_for_user two_rooms 1 1
    {| update_title := Some ideographic_space;
       update_trash_can := Some "deleted" |}
  = (Raise (HTTPException 400 "Title must not be empty"), two_rooms).
Proof.
  apply (proj1 (proj2 (update_chat_room_refusals two_rooms 1 1
                         {| update_title := Some ideographic_space;
                            update_trash_can := Some "deleted" |}))).
  - exists (room 1 1 "AAPL" out). simpl. auto.
  - exists ideographic_space. split; reflexivity.
Defined.

(** ** Finding or creating a room, again *)

Lemma first_filter_replace (sel : Chat -> bool) (r : Chat) (rows : list Chat) :
  (forall c, In c rows -> sel c = false) -> sel r = true ->
  (exists old, In old rows /\ chat_id old = chat_id r) ->
  first (filter sel (replace_chat r rows)) = Some r.
Proof.
  intros Hnone Hr (old & Hin & Hid).
  induction rows as [| x rows IH]; [contradiction |].
  cbn [replace_chat map filter].
  destruct (chat_id x =? chat_id r)%Z eqn:E.
  - rewrite Hr. reflexivity.
  - rewrite (Hnone x (or_introl eq_refl)).
    apply IH.
    + intros c Hc. apply Hnone. now right.
    + destruct Hin as [-> | Hin]; [| exact Hin].
      rewrite Hid, Z.eqb_refl in E. discriminate.
Qed.

Lemma first_none_filter {A : Type} (p : A -> bool) (l : list A) :
  first (filter p l) = None -> forall x, In x l -> p x = false.
Proof.
  intros H x Hx. destruct (p x) eqn:E; [| reflexivity].
  destruct (first_filter_exists p l x Hx E) as [y Hy]. congruence.
Qed.

Lemma first_app_none {A : Type} (p : A -> bool) (l : list A) (x : A) :
  (forall y, In y l -> p y = false) -> p x = true ->
  first (filter p (l ++ [x])) = Some x.
Proof.
  intros Hnone Hx. rewrite filter_app, (filter_none p l Hnone).
  cbn [app filter]. rewrite Hx. reflexivity.
Qed.

(** What a successful [upsert_chat_by_stock] of a request that runs alone
    leaves behind: the room it returns is the active room the lookup finds
    next. *)
Lemma upsert_leaves_active db user code new_title r e db' :
  upsert_chat_by_stock alone db user code new_title = (Ok (r, e), db') ->
  get_active_chat_by_stock db' user code = Some r
  /\ messages db' = messages db
  /\ (e = true -> db' = db).
Proof.
  unfold upsert_chat_by_stock.
  destruct (get_active_chat_by_stock db user code) as [existing |] eqn:Eactive.
  - intros [= <- <- <-]. auto.
  - unfold get_active_chat_by_stock in Eactive.
    pose proof (first_none_filter _ _ Eactive) as Hnone.
    set (sel_in := fun c => (user_id c =? user)%Z && code_is code c
                            && TrashEnum_eqb (trash_can c) in_).
    pose proof (first_order_by_desc chat_id (filter sel_in (chats db))) as Hfirst.
    destruct (first (order_by_desc chat_id (filter sel_in (chats db))))
      as [old |].
    + destruct Hfirst as [Hold _]. apply filter_In in Hold as [Hin Hsel].
      apply select_room in Hsel as [Hroom _].
      unfold alone, commit_chat_update.
      match goal with
      | |- context [conflicts (chats db) ?c] =>
          set (restored := c); destruct (conflicts (chats db) restored)
      end; [discriminate |].
      intros [= <- <- <-]. split; [| split; [reflexivity | discriminate]].
      unfold get_active_chat_by_stock. cbn [chats].
      apply first_filter_replace.
      * exact Hnone.
      * apply select_room. split; [exact Hroom | reflexivity].
      * exists old. auto.
    + unfold alone.
      match goal with
      | |- context [commit_chat_insert db ?c] => set (created := c)
      end.
      unfold commit_chat_insert.
      destruct (conflicts (chats db) created).
      * unfold get_active_chat_by_stock. rewrite Eactive. discriminate.
      * intros [= <- <- <-]. split; [| split; [reflexivity | discriminate]].
        unfold get_active_chat_by_stock. cbn [chats].
        apply first_app_none; [exact Hnone |].
        apply select_room. split; [split; reflexivity | reflexivity].
Qed.

(** X23.  Asking twice gives the same room: after a successful
    [upsert_chat_by_stock], a second call for the same user and code,
    whatever the title, returns the very room of the first call, with the
    flag true, and writes nothing.  That room is an active room of the user
    for the code and is stored. *)
Theorem upsert_chat_by_stock_twice
    (db db1 : DB) (user : Z) (code : string) (title1 title2 : option string)
    (r : Chat) (e : bool) :
  upsert_chat_by_stock alone db user code title1 = (Ok (r, e), db1) ->
  upsert_chat_by_stock alone db1 user code title2 = (Ok (r, true), db1)
  /\ In r (chats db1) /\ room_of user code r /\ trash_can r = out
  /\ messages db1 = messages db.
Proof.
  intro Hrun.
  destruct (upsert_leaves_active _ _ _ _ _ _ _ Hrun) as (Hactive & Hmsgs & _).
  split; [unfold upsert_chat_by_stock; rewrite Hactive; reflexivity |].
  unfold get_active_chat_by_stock in Hactive.
  apply first_filter_some in Hactive as [Hin Hsel].
  apply select_room in Hsel as [Hroom Hout]. auto.
Qed.

Lemma upsert_chat_by_stock_twice_witness :
  exists r db1,
    upsert_chat_by_stock alone two_rooms 3 "AAPL" None = (Ok (r, false), db1)
    /\ upsert_chat_by_stock alone db1 3 "AAPL" (Some "later")
       = (Ok (r, true), db1).
Proof.
  do 2 eexists.
  assert (H : upsert_chat_by_stock alone two_rooms 3 "AAPL" None
              = (Ok (_, false), _)) by (vm_compute; reflexivity).
  split; [exact H |].
  exact (proj1 (upsert_chat_by_stock_twice _ _ _ _ _ (Some "later") _ _ H)).
Defined.

(** ** Two requests at once *)

(** X24.  When the user has no room for the code and, between the lookups
    and the commit, another request stores an active room of the user for
    the code, the insert is refused, nothing is added, and the call returns
    an active room of the user for the code found in the database, with
    the flag true. *)
Theorem upsert_chat_by_stock_race
    (concurrent : DB -> DB) (db : DB) (user : Z) (code : string)
    (new_title : option string) (c : Chat) :
  (forall x, In x (chats db) -> ~ room_of user code x) ->
  In c (chats (concurrent db)) -> room_of user code c -> trash_can c = out ->
  exists existing,
    upsert_chat_by_stock concurrent db user code new_title
    = (Ok (existing, true), concurrent db)
    /\ In existing (chats (concurrent db)) /\ room_of user code existing
    /\ trash_can existing = out.
Proof.
  intros Hnone Hin Hroom Hout.
  unfold upsert_chat_by_stock.
  rewrite (no_active_lookup db user code)
    by (intros x Hx Hxroom; destruct (Hnone x Hx Hxroom)).
  rewrite filter_none
    by (intros x Hx; apply select_room_false; intros [Hxroom _];
        exact (Hnone x Hx Hxroom)).
  cbn [order_by_desc order_by_asc fold_right first head].
  match goal with
  | |- context [commit_chat_insert (concurrent db) ?n] => set (created := n)
  end.
  assert (Hconflict : conflicts (chats (concurrent db)) created = true).
  { unfold conflicts. cbn [created stock_code trash_can].
    apply existsb_exists. exists c. split; [exact Hin |].
    rewrite !andb_true_iff. repeat split.
    - apply negb_true_iff, Z.eqb_neq. cbn [created chat_id].
      pose proof (next_id_fresh (map chat_id (chats (concurrent db)))
                    (chat_id c) (in_map chat_id _ _ Hin)). lia.
    - cbn [created user_id]. apply Z.eqb_eq. apply Hroom.
    - unfold code_is. rewrite (proj2 Hroom). apply String.eqb_refl.
    - rewrite Hout. reflexivity. }
  unfold commit_chat_insert. rewrite Hconflict.
  destruct (first_filter_exists
              (fun c => (user_id c =? user)%Z && code_is code c
                        && TrashEnum_eqb (trash_can c) out)
              (chats (concurrent db)) c Hin
              (proj2 (select_room user code out c) (conj Hroom Hout)))
    as [existing Hexisting].
  unfold get_active_chat_by_stock. rewrite Hexisting.
  exists existing. split; [reflexivity |].
  apply first_filter_some in Hexisting as [Hein Hsel].
  apply select_room in Hsel. tauto.
Qed.

Lemma upsert_chat_by_stock_race_witness :
  exists existing,
    upsert_chat_by_stock
      (fun db => {| chats := chats db ++ [room 9 3 "AAPL" out];
                    messages := messages db; now := now db |})
      two_rooms 3 "AAPL" None
    = (Ok (existing, true),
       {| chats := chats two_rooms ++ [room 9 3 "AAPL" out];
          messages := messages two_rooms; now := now two_rooms |})
    /\ chat_id existing = 9%Z.
Proof.
  destruct (upsert_chat_by_stock_race
              (fun db => {| chats := chats db ++ [room 9 3 "AAPL" out];
                            messages := messages db; now := now db |})
              two_rooms 3 "AAPL" None (room 9 3 "AAPL" out))
    as (existing & Hrun & Hin & _).
  - intros x [<- | [<- | []]] [Huser _]; discriminate.
  - simpl. auto.
  - split; reflexivity.
  - reflexivity.
  - exists existing. split; [exact Hrun |].
    simpl in Hin. destruct Hin as [<- | [<- | [<- | []]]]; try reflexivity;
      vm_compute in Hrun; discriminate Hrun.
Defined.

(** ** Normalizing twice *)

Lemma remove_whitespace_free s :
  whitespace_free s = true -> remove_whitespace s = s.
Proof.
  unfold whitespace_free. induction s as [| c s IH]; [reflexivity |].
  cbn [all_chars remove_whitespace]. intro H. apply andb_prop in H as [Hc Hs].
  apply negb_true_iff in Hc. rewrite Hc, (IH Hs). reflexivity.
Qed.

Lemma upper_char_twice c : py_upper_char (py_upper_char c) = py_upper_char c.
Proof. each_char c. Qed.

Lemma upper_twice s : upper (upper s) = upper s.
Proof.
  unfold upper. induction s as [| c s IH]; [reflexivity |].
  cbn [map_string]. rewrite upper_char_twice, IH. reflexivity.
Qed.

Lemma normalized_fixed raw :
  upper (remove_whitespace (upper (remove_whitespace raw)))
  = upper (remove_whitespace raw).
Proof.
  rewrite (remove_whitespace_free _ (normalized_whitespace_free raw)).
  apply upper_twice.
Qed.

Lemma normalize_result raw n :
  normalize_stock_code (Some raw) = Ok n -> n = upper (remove_whitespace raw).
Proof.
  unfold normalize_stock_code.
  destruct (is_empty _); [discriminate |].
  destruct (20 <? _)%nat; [discriminate |].
  destruct (negb _); [discriminate |]. congruence.
Qed.

Lemma normalize_raises raw e :
  normalize_stock_code (Some raw) = Raise e -> exists msg, e = ValueError msg.
Proof.
  unfold normalize_stock_code.
  destruct (is_empty _); [intros [= <-]; eauto |].
  destruct (20 <? _)%nat; [intros [= <-]; eauto |].
  destruct (negb _); [intros [= <-]; eauto | discriminate].
Qed.

(** X25.  Normalization is idempotent: the normalized form of a raw code is
    treated as the raw code is, accepted with the same result or refused
    with the same error; so a code that normalization returned is returned
    unchanged when it is normalized again. *)
Theorem normalize_stock_code_idempotent (raw : string) :
  normalize_stock_code (Some (upper (remove_whitespace raw)))
  = normalize_stock_code (Some raw)
  /\ (forall n, normalize_stock_code (Some raw) = Ok n ->
                normalize_stock_code (Some n) = Ok n).
Proof.
  assert (H : normalize_stock_code (Some (upper (remove_whitespace raw)))
              = normalize_stock_code (Some raw)).
  { unfold normalize_stock_code. rewrite normalized_fixed. reflexivity. }
  split; [exact H |].
  intros n Hn. rewrite (normalize_result raw n Hn) at 1. rewrite H. exact Hn.
Qed.

Lemma normalize_stock_code_idempotent_witness :
  normalize_stock_code (Some " br k.b ") = Ok "BRK.B"
  /\ normalize_stock_code (Some "BRK.B") = Ok "BRK.B".
Proof.
  assert (H : normalize_stock_code (Some " br k.b ") = Ok "BRK.B")
    by reflexivity.
  split; [exact H |].
  exact (proj2 (normalize_stock_code_idempotent " br k.b ") "BRK.B" H).
Defined.

(** ** Entering a room by stock code *)

(** A request that runs alone is never refused by the uniqueness
    constraint: when the lookup found no active room, the room it writes is
    the only active one of the user for the code. *)
Lemma upsert_alone_ok db user code new_title :
  exists r e db',
    upsert_chat_by_stock alone db user code new_title = (Ok (r, e), db').
Proof.
  unfold upsert_chat_by_stock.
  destruct (get_active_chat_by_stock db user code) as [existing |] eqn:Eactive;
    [eauto |].
  unfold get_active_chat_by_stock in Eactive.
  pose proof (first_none_filter _ _ Eactive) as Hnone.
  assert (Hfree : forall (c c' : Chat), In c' (chats db) ->
            room_of user code c' -> trash_can c' = out ->
            chat_id c' = chat_id c).
  { intros c c' Hin Hroom Hout.
    pose proof (Hnone c' Hin) as Hsel. cbv beta in Hsel.
    rewrite (proj2 (select_room user code out c') (conj Hroom Hout)) in Hsel.
    discriminate. }
  set (sel_in := fun c => (user_id c =? user)%Z && code_is code c
                          && TrashEnum_eqb (trash_can c) in_).
  pose proof (first_order_by_desc chat_id (filter sel_in (chats db))) as Hfirst.
  destruct (first (order_by_desc chat_id (filter sel_in (chats db))))
    as [old |].
  - destruct Hfirst as [Hold _]. apply filter_In in Hold as [Hin Hsel].
    apply select_room in Hsel as [Hroom _].
    unfold alone, commit_chat_update.
    rewrite (no_conflict (chats db) _ user code); [eauto | exact Hroom |].
    intros c' Hc'. apply Hfree. exact Hc'.
  - unfold alone, commit_chat_insert.
    rewrite (no_conflict (chats db) _ user code);
      [eauto | split; reflexivity |].
    intros c' Hc'. apply Hfree. exact Hc'.
Qed.

(** X26.  The by-stock endpoint, for a request that runs alone.  It fails
    only on a code that normalization refuses, with the 400 error that
    carries the normalizer's message, and then writes nothing.  Otherwise
    it answers with the normalized code and with the id and title of a
    stored active room of the user for that code; it touches no message,
    and when it reports that the room existed it wrote nothing. *)
Theorem enter_chat_by_stock_outcomes (db : DB) (current_user : Z)
    (raw_code : string) (query_title : option string) :
  let '(outcome, db') :=
    enter_chat_by_stock alone db current_user raw_code query_title in
  messages db' = messages db
  /\ match outcome with
     | Raise e =>
         db' = db
         /\ exists msg,
              normalize_stock_code (Some raw_code) = Raise (ValueError msg)
              /\ e = HTTPException 400 msg
     | Ok response =>
         normalize_stock_code (Some raw_code)
         = Ok (by_stock_stock_code response)
         /\ (exists r,
               In r (chats db')
               /\ room_of current_user (by_stock_stock_code response) r
               /\ trash_can r = out
               /\ chat_id r = by_stock_chat_id response
               /\ title r = by_stock_title response)
         /\ (existed response = true -> db' = db)
     end.
Proof.
  unfold enter_chat_by_stock.
  destruct (normalize_stock_code (Some raw_code)) as [code | e] eqn:Enorm.
  - set (normalized_title :=
           if nonempty query_title then option_map strip query_title
           else None).
    destruct (upsert_alone_ok db current_user code normalized_title)
      as (r & e & db' & Hrun).
    rewrite Hrun.
    destruct (upsert_leaves_active _ _ _ _ _ _ _ Hrun)
      as (Hactive & Hmsgs & Hsame).
    unfold get_active_chat_by_stock in Hactive.
    apply first_filter_some in Hactive as [Hin Hsel].
    apply select_room in Hsel as [Hroom Hout].
    assert (Hcode : text_or (stock_code r) code = code).
    { rewrite (proj2 Hroom). unfold text_or. destruct (is_empty code) eqn:E;
        [| reflexivity]. destruct code; [reflexivity | discriminate]. }
    cbn [by_stock_stock_code by_stock_chat_id by_stock_title existed].
    rewrite Hcode. split; [exact Hmsgs |]. split; [reflexivity |].
    split; [exists r; auto | exact Hsame].
  - destruct (normalize_raises raw_code e Enorm) as [msg ->].
    split; [reflexivity |]. split; [reflexivity |]. eauto.
Qed.

(** ** One room of a user for a stock code *)

Lemma one_room_replace (db : DB) (rows' : list Chat) (old c : Chat) :
  one_room_per_stock db -> In old (chats db) ->
  chat_id c = chat_id old -> user_id c = user_id old ->
  stock_code c = stock_code old ->
  forall user code a b,
    In a (replace_chat c (chats db)) -> In b (replace_chat c (chats db)) ->
    room_of user code a -> room_of user code b -> a = b.
Proof.
  intros Hone Hold Hid Huser Hcode user code a b Ha Hb Hra Hrb.
  assert (Hother : forall x,
            In x (chats db) -> chat_id x <> chat_id c ->
            room_of user code x -> room_of user code c -> False).
  { intros x Hx Hne Hrx [Hcu Hcc].
    assert (Hro : room_of user code old)
      by (split; [rewrite <- Huser | rewrite <- Hcode]; assumption).
    rewrite (Hone user code x old Hx Hold Hrx Hro) in Hne. congruence. }
  apply in_replace_chat in Ha as [-> | [Ha Hna]];
    apply in_replace_chat in Hb as [-> | [Hb Hnb]].
  - reflexivity.
  - destruct (Hother b Hb Hnb Hrb Hra).
  - destruct (Hother a Ha Hna Hra Hrb).
  - exact (Hone user code a b Ha Hb Hra Hrb).
Qed.

Lemma nodup_app_fresh (ids : list Z) :
  NoDup ids -> NoDup (ids ++ [next_id ids]).
Proof.
  intro Hnd. apply NoDup_app.
  - exact Hnd.
  - constructor; [intros [] | constructor].
  - intros x Hx [<- | []]. pose proof (next_id_fresh ids _ Hx). lia.
Qed.

Lemma rewrites_one_row_keeps db db' :
  rewrites_one_row db db' ->
  (one_room_per_stock db -> one_room_per_stock db')
  /\ (NoDup (map chat_id (chats db)) -> NoDup (map chat_id (chats db'))).
Proof.
  intros (old & c & Hold & Hid & Huser & Hcode & Hrows). split.
  - intros Hone user code a b. rewrite Hrows.
    exact (one_room_replace db (chats db') old c Hone Hold Hid Huser Hcode
             user code a b).
  - rewrite Hrows, replace_chat_ids. auto.
Qed.

Lemma update_chat_room_writes db room_id current_user chat_in :
  let db' := snd (update_chat_room_for_user db room_id current_user chat_in) in
  db' = db \/ rewrites_one_row db db'.
Proof.
  unfold update_chat_room_for_user.
  destruct (first _) as [chat |] eqn:E; [| left; reflexivity].
  apply first_filter_some in E as [Hin _].
  match goal with
  | |- context [bind ?m ?k] => destruct (bind m k) as [[chat' []] | e] eqn:Eb
  end; cbn [snd]; try (left; reflexivity).
  unfold commit_chat_update. destruct (conflicts _ _); [left; reflexivity |].
  right. exists chat, chat'. cbn [chats snd].
  assert (Hsame : chat_id chat' = chat_id chat /\ user_id chat' = user_id chat
                  /\ stock_code chat' = stock_code chat).
  { destruct (update_title chat_in) as [t |];
      [destruct (is_empty (strip t)); [discriminate |] |];
      cbn [bind] in Eb;
      (destruct (update_trash_can chat_in) as [v |];
       [destruct (parse_trash v); [| discriminate] |]);
      injection Eb; intros; subst chat'; cbn; auto. }
  tauto.
Qed.

Lemma upsert_writes db user code new_title :
  let db' := snd (upsert_chat_by_stock alone db user code new_title) in
  db' = db \/ rewrites_one_row db db'
  \/ ((forall c, In c (chats db) -> ~ room_of user code c)
      /\ exists created,
           chat_id created = next_id (map chat_id (chats db))
           /\ room_of user code created
           /\ chats db' = (chats db ++ [created])%list).
Proof.
  unfold upsert_chat_by_stock.
  destruct (get_active_chat_by_stock db user code) as [existing |] eqn:Eactive;
    [left; reflexivity |].
  unfold get_active_chat_by_stock in Eactive.
  pose proof (first_none_filter _ _ Eactive) as Hout.
  set (sel_in := fun c => (user_id c =? user)%Z && code_is code c
                          && TrashEnum_eqb (trash_can c) in_).
  pose proof (first_order_by_desc chat_id (filter sel_in (chats db))) as Hfirst.
  destruct (first (order_by_desc chat_id (filter sel_in (chats db))))
    as [old |].
  - destruct Hfirst as [Hold _]. apply filter_In in Hold as [Hin _].
    unfold alone, commit_chat_update.
    match goal with
    | |- context [conflicts (chats db) ?c] =>
        set (restored := c); destruct (conflicts (chats db) restored)
    end; [left; reflexivity |].
    right. left. cbn [snd chats]. exists old, restored.
    split; [exact Hin |]. repeat split.
  - unfold alone, commit_chat_insert.
    destruct (conflicts _ _) eqn:Ec.
    + cbn [snd]. destruct (get_active_chat_by_stock db user code);
        left; reflexivity.
    + right. right. split.
      * intros c Hc Hroom.
        assert (Hnot : ~ In c (filter sel_in (chats db)))
          by (rewrite Hfirst; intros []).
        destruct (trash_can c) eqn:Et.
        -- apply Hnot. apply filter_In. split; [exact Hc |].
           apply select_room. auto.
        -- pose proof (Hout c Hc) as Hsel. cbv beta in Hsel.
           rewrite (proj2 (select_room user code out c) (conj Hroom Et))
             in Hsel. discriminate.
      * cbn [snd chats]. eexists.
        split; [| split; [| reflexivity]]; [reflexivity | split; reflexivity].
Qed.

(** X27.  Finding or creating a room by stock code, and updating a room,
    keep the data model's uniqueness: when no user has two rooms for one
    stock code before the call, none has after it, and when the ids of the
    rooms are distinct before, they are after.  This holds whether the call
    succeeds or fails. *)
Theorem room_writes_keep_uniqueness (db : DB) :
  let kept (db' : DB) :=
    (one_room_per_stock db -> one_room_per_stock db')
    /\ (NoDup (map chat_id (chats db)) -> NoDup (map chat_id (chats db'))) in
  (forall user code new_title,
     kept (snd (upsert_chat_by_stock alone db user code new_title)))
  /\ (forall room_id current_user chat_in,
        kept (snd (update_chat_room_for_user db room_id current_user chat_in))).
Proof.
  intro kept. subst kept. cbv beta. split.
  - intros user code new_title.
    destruct (upsert_writes db user code new_title)
      as [-> | [Hrow | (Hnone & created & Hid & Hcreated & Hrows)]].
    + auto.
    + exact (rewrites_one_row_keeps _ _ Hrow).
    + split.
      * intros Hone u k a b. rewrite Hrows. intros Ha Hb Hra Hrb.
        assert (Hnew : forall x y, In x (chats db) -> room_of u k x ->
                  room_of u k y -> y = created -> False).
        { intros x y Hx [Hxu Hxk] [Hyu Hyk] ->. destruct Hcreated as [Hcu Hck].
          apply (Hnone x Hx). split; congruence. }
        apply in_app_or in Ha as [Ha | [<- | []]];
          apply in_app_or in Hb as [Hb | [<- | []]].
        -- exact (Hone u k a b Ha Hb Hra Hrb).
        -- destruct (Hnew a created Ha Hra Hrb eq_refl).
        -- destruct (Hnew b created Hb Hrb Hra eq_refl).
        -- reflexivity.
      * rewrite Hrows, map_app. cbn [map]. rewrite Hid.
        apply nodup_app_fresh.
  - intros room_id current_user chat_in.
    destruct (update_chat_room_writes db room_id current_user chat_in)
      as [-> | Hrow]; [auto |].
    exact (rewrites_one_row_keeps _ _ Hrow).
Qed.

Lemma room_writes_keep_uniqueness_witness :
  one_room_per_stock
    (snd (upsert_chat_by_stock alone trashed_room_only 1 "AAPL" None)).
Proof.
  apply (proj1 (proj1 (room_writes_keep_uniqueness trashed_room_only)
                  1%Z "AAPL" None)).
  intros u k a b [<- | []] [<- | []] _ _. reflexivity.
Defined.

(** ** Creating a room *)

(** X28.  Creating a room changes no stored room and no message.  A call
    that fails writes nothing.  A call that succeeds returns a stored room
    of the caller with the stock code asked for: either a room that was
    there, and then nothing is written, or a new last row with the title
    asked for and an id above every other. *)
Theorem create_chat_room_outcomes (db : DB) (current_user : Z)
    (chat_in : ChatCreate) :
  let '(outcome, db') := create_chat_room_for_user db current_user chat_in in
  messages db' = messages db
  /\ match outcome with
     | Raise _ => db' = db
     | Ok c =>
         user_id c = current_user /\ In c (chats db')
         /\ stock_code c = create_stock_code chat_in
         /\ ((db' = db /\ In c (chats db))
             \/ (chats db' = (chats db ++ [c])%list
                 /\ title c = create_title chat_in
                 /\ forall x, In x (chats db) -> (chat_id x < chat_id c)%Z))
     end.
Proof.
  unfold create_chat_room_for_user.
  match goal with
  | |- context [match ?lookup with Some _ => _ | None => _ end] =>
      destruct lookup as [chat |] eqn:Elookup
  end.
  - destruct (create_stock_code chat_in) as [code |]; [| discriminate].
    destruct (is_empty code); [discriminate |].
    apply first_filter_some in Elookup as [Hin Hsel].
    apply select_room in Hsel as [[Huser Hcode] _].
    split; [reflexivity |]. auto 6.
  - unfold commit_chat_insert. destruct (conflicts _ _); [auto |].
    cbn [messages chats user_id stock_code title chat_id].
    split; [reflexivity |]. split; [reflexivity |].
    split; [apply in_or_app; right; left; reflexivity |].
    split; [reflexivity |]. right. split; [reflexivity |].
    split; [reflexivity |].
    intros x Hx. apply next_id_fresh. apply in_map. exact Hx.
Qed.

(** ** Rooms handed to a caller are listed for the caller *)

Lemma listed (db : DB) (user : Z) (c : Chat) :
  In c (chats db) -> user_id c = user -> In c (list_user_chat_rooms db user).
Proof.
  intros Hin Huser. unfold list_user_chat_rooms. apply filter_In.
  split; [exact Hin |]. apply Z.eqb_eq. exact Huser.
Qed.

Lemma create_returns_stored db current_user chat_in c db' :
  create_chat_room_for_user db current_user chat_in = (Ok c, db') ->
  In c (chats db') /\ user_id c = current_user.
Proof.
  unfold create_chat_room_for_user.
  match goal with
  | |- context [match ?lookup with Some _ => _ | None => _ end] =>
      destruct lookup as [chat |] eqn:Elookup
  end.
  - destruct (create_stock_code chat_in) as [code |]; [| discriminate].
    destruct (is_empty code); [discriminate |].
    apply first_filter_some in Elookup as [Hin Hsel].
    apply select_room in Hsel as [[Huser _] _].
    intros [= <- <-]. auto.
  - unfold commit_chat_insert. destruct (conflicts _ _); [discriminate |].
    intros [= <- <-]. cbn [chats user_id].
    split; [apply in_or_app; right; left; reflexivity | reflexivity].
Qed.

Lemma update_returns_stored db room_id current_user chat_in c db' :
  update_chat_room_for_user db room_id current_user chat_in = (Ok c, db') ->
  In c (chats db') /\ user_id c = current_user.
Proof.
  unfold update_chat_room_for_user.
  destruct (first _) as [chat |] eqn:E; [| discriminate].
  apply first_filter_some in E as [Hin Hsel].
  apply andb_prop in Hsel as [_ Huser]. apply Z.eqb_eq in Huser.
  match goal with
  | |- context [bind ?m ?k] => destruct (bind m k) as [[chat' changed] | e] eqn:Eb
  end; [| discriminate].
  assert (Hsame : chat_id chat' = chat_id chat /\ user_id chat' = user_id chat
                  /\ (changed = false -> chat' = chat)).
  { destruct (update_title chat_in) as [t |];
      [destruct (is_empty (strip t)); [discriminate |] |];
      cbn [bind] in Eb;
      (destruct (update_trash_can chat_in) as [v |];
       [destruct (parse_trash v); [| discriminate] |]);
      injection Eb; intros; subst chat' changed; cbn; auto;
      repeat split; discriminate. }
  destruct Hsame as (Hid & Hu & Hkeep).
  destruct changed.
  - unfold commit_chat_update. destruct (conflicts _ _); [discriminate |].
    intros [= <- <-]. cbn [chats].
    split; [apply replace_chat_in with (old := chat); auto | congruence].
  - intros [= <- <-]. rewrite (Hkeep eq_refl). auto.
Qed.

(** X29.  Every room an operation of the room lifecycle hands to a caller
    is among the rooms listed for that caller afterwards: the room found by
    stock code, the room created, the room updated, and the room found or
    created by stock code by a request that runs alone. *)
Theorem returned_rooms_are_listed (db : DB) (current_user : Z) (c : Chat) :
  (forall code,
     get_chat_room_by_stock_for_user db current_user code = Ok c ->
     In c (list_user_chat_rooms db current_user))
  /\ (forall chat_in db',
        create_chat_room_for_user db current_user chat_in = (Ok c, db') ->
        In c (list_user_chat_rooms db' current_user))
  /\ (forall room_id chat_in db',
        update_chat_room_for_user db room_id current_user chat_in
        = (Ok c, db') ->
        In c (list_user_chat_rooms db' current_user))
  /\ (forall code new_title was_there db',
        upsert_chat_by_stock alone db current_user code new_title
        = (Ok (c, was_there), db') ->
        In c (list_user_chat_rooms db' current_user)).
Proof.
  refine (conj _ (conj _ (conj _ _))).
  - intros code. unfold get_chat_room_by_stock_for_user.
    destruct (first _) as [chat |] eqn:E; [| discriminate].
    intros [= <-]. apply first_filter_some in E as [Hin Hsel].
    apply select_room in Hsel as [[Huser _] _]. apply listed; assumption.
  - intros chat_in db' Hrun.
    destruct (create_returns_stored _ _ _ _ _ Hrun). apply listed; assumption.
  - intros room_id chat_in db' Hrun.
    destruct (update_returns_stored _ _ _ _ _ _ Hrun). apply listed; assumption.
  - intros code new_title was_there db' Hrun.
    destruct (upsert_leaves_active _ _ _ _ _ _ _ Hrun) as (Hactive & _).
    unfold get_active_chat_by_stock in Hactive.
    apply first_filter_some in Hactive as [Hin Hsel].
    apply select_room in Hsel as [[Huser _] _]. apply listed; assumption.
Qed.

Lemma returned_rooms_are_listed_witness :
  In (room 1 1 "AAPL" in_) (list_user_chat_rooms trashed_room_only 1).
Proof.
  apply (proj1 (returned_rooms_are_listed trashed_room_only 1
                  (room 1 1 "AAPL" in_)) "AAPL").
  reflexivity.
Defined.
